(* ===== verification/_CoqProject ===== *)
-Q . S2P
Prelude.v
PyList.v
PyFloat.v
Fdtd.v
Causality.v
IEEE.v
Dtoa.v
Repr.v
Output.v
