(* ===== verification/Prelude.v ===== *)
(** * A verification development of [src/fdtd1d.py] (nds-org/jupyter-fdtd)

    ** The program
    [src/fdtd1d.py] is a bare one-dimensional FDTD (Yee) simulation in a
    single Python script.  Module constants [SIZE = 200], [imp0 = 377.0]
    and [maxTime = 250] (lines 4, 8, 9) configure it.  It keeps two float
    lists [ez] and [hy] of [SIZE] zeros (lines 6-7).  Each of the
    [maxTime] iterations of its time loop (line 12) does four things in
    order:
    - it updates [hy[mm]] from [ez[mm+1] - ez[mm]] for [mm < SIZE - 1]
      (lines 15-16);
    - it updates [ez[mm]] from [hy[mm] - hy[mm-1]] for [mm < SIZE],
      where [hy[-1]] is Python's last element (lines 19-20);
    - it overwrites [ez[0]] with the Gaussian [exp(-(qTime-30)^2/100)]
      (line 23);
    - it prints the probe [ez[50]] (line 25).
    The field stepper uses Python's list, [range] and exception semantics
    and Python's float arithmetic.  Its observable output is the text
    [print] writes: [repr] of each printed float and a newline, which
    CPython computes with David Gay's shortest-digit conversion.

    ** Files
    - [Prelude] (this file) holds what every file shares: [result]
      carries exceptions ([IndexError], [ZeroDivisionError]), with a bind
      notation in [py_scope]; [upd_upto] is the list an in-place
      elementwise loop leaves behind; the hint databases [py] and
      [py_len], the tactic [py_lia], and the list lemmas.
    - [PyList] models the fragment of Python's list semantics the script
      uses.  [py_index] resolves a subscript (negative ones count from
      the end), [py_get] and [py_set] are subscript and subscript
      assignment, raising [IndexError] out of range.  [py_repeat] is
      [[x] * n], [py_range] is [range] and [py_for] is the [for]
      statement.
    - [PyFloat] is the interface between the stepper and its numbers.  The
      class [PyFloat] names the float operations of the script: [0.0],
      [+ - * /], [math.exp], [int / int] and the test [y == 0.0].
      [py_fdiv] is CPython's float division, which raises
      [ZeroDivisionError] on a zero divisor.  The class [QuietZero] states
      the two facts about [0.0] that keep a silent cell silent.
    - [Fdtd], [Module FieldStepper], is the script, generic in any
      [PyFloat] instance.  [config] holds the constants and [state] the
      two lists and the printed values.  The operations are [init]
      (lines 6-7), [update_hy] (line 16), [update_ez] (line 20), [source]
      and [hardwire_source] (line 23), [print_probe] (line 25),
      [time_step] (one iteration, lines 13-25), [time_loop] (line 12) and
      [run] (the program; its result is the final state and the exception
      that ended it, if any).  [spec_step] is the leapfrog step as the
      spec describes it: simultaneous updates [hy_next], then
      [ez_next], then the source.  [reachable] is the time loop as a
      transition system.
    - [Causality] holds the invariants of reachable states, by rule
      induction ([reach_ind]).
    - [IEEE] instantiates the model with binary64 primitive floats, which
      is what CPython computes; [int / int] is CPython's
      [long_true_divide], the exact quotient rounded once.  The C
      library's [exp] stays a parameter, constrained where needed by its
      contract, the class [LibmExp] (C Annex F: [exp(+-0) = 1]; a
      faithfully rounded [exp] maps [x <= 0] into [[0, 1]]).  [fdtd1d] is
      the script's configuration.  The file also holds the witnesses,
      run by [vm_compute] with a stand-in [exp_approx] that meets the
      contract.
    - [Dtoa] is CPython's [_Py_dg_dtoa] in mode 0 (Python/dtoa.c): the
      shortest decimal digits that read back as a double, computed on its
      exact value [m * 2^e] with integer arithmetic ([dtoa_core]).
    - [Repr] is CPython's [float_repr]: [format_float_short]
      (Python/pystrtod.c) lays the digits out, in positional notation for
      [-4 < decpt <= 16] and in exponent notation otherwise.  It also has
      a reader [parse_float_text] of the resulting text.
    - [Output] is line 25 as text: [print_line] and the whole output
      [stdout] of a run, with the theorems that compose the printed text
      with the run.

    ** What is proved
    - Refinement (C1, C10): one iteration of the in-place Python loops is
      exactly [spec_step] when [SIZE > 50] and [imp0 <> 0.0].  It raises
      [IndexError] when [SIZE <= 50], and [ZeroDivisionError] first when
      [imp0 == 0.0] and [SIZE >= 2].  [magnetic_loop] and [electric_loop]
      show that each in-place loop equals its simultaneous update.  The
      whole program is [spec_run], [maxTime] leapfrog steps from the zero
      fields.
    - Termination and errors (C2, C3, C8, C9): with [SIZE > 50] and
      [imp0 <> 0.0] the program ends normally with exactly [maxTime]
      printed values.  With [SIZE <= 50] and [maxTime >= 1] it raises
      [IndexError] in iteration 0 and prints nothing.  With
      [imp0 == 0.0] (and [SIZE >= 2]) it raises [ZeroDivisionError]
      there instead, as CPython's float division does.  With
      [maxTime <= 0] it prints nothing and ends normally whatever [SIZE]
      is.
    - Invariants of reachable states (C5, C6, C11): both lists keep
      [SIZE] cells and one value is printed per iteration; [hy[SIZE-1]]
      stays [0.0]; [ez[0]] holds the source of the last iteration.
    - Equivalence (C7, C13): the [hy[-1]] wrap-around is inert, for one
      iteration and for the whole run.  Any left boundary value gives the
      same state.
    - The program in binary64 (C4, C12, C14): for every impedance that
      is a finite float other than [0.0] and any [exp], the fields vanish
      beyond cell [q] after [q] iterations (causality), and the program
      terminates with its first 50 values exactly [0.0]
      ([binary64_quiet] proves [QuietZero] from the IEEE specifications
      of the primitive operations).  For [imp0 = inf] it terminates and
      prints NaN: nothing detects it.
    - The printed text (C15-C18):
      - [repr] of every finite double denotes a decimal nearer to that
        double than to any other finite double (ties going to the even
        significand), so it reads back as that double under IEEE round
        to nearest;
      - its digits are the fewest that do;
      - it is at most 24 characters long;
      - the script's output starts with fifty lines [0.0] for every
        finite nonzero impedance.
      The proofs go through the real value of the integer comparisons
      ([Dtoa.cmp10_2_spec]) and show that 17 digits always suffice
      ([Dtoa.candidate_17]).
    - The hard source in binary64 (C19, C20): for every [exp] that meets
      the C contract, [ez[0]] stays in [[0.0, 1.0]] and is exactly [1.0]
      after iteration 30, as the spec's "source peak" says.
    - Text and values (C21-C23): [repr] is injective (distinct doubles
      have disjoint rounding intervals, [Dtoa.rounds_to_unique]), so the
      text on standard output determines the printed floats bit for bit;
      a run writes at most [25 * maxTime] characters.

    ** Bounds and fuel
    Every loop of the script runs over a [range], modelled as the finite
    list [py_range n], so [py_for] and [time_loop] are structural.  Python
    integers ([SIZE], [maxTime], [qTime], [mm]) are unbounded, so they are
    [Z], and [long_true_divide] divides them exactly before rounding
    once, at any size.  The sign of the argument of [math.exp] is checked
    by computation for the first [10^4] iterations
    ([IEEE.source_args_10000]; the script makes 250), which bounds C19.
    The digit search of [Dtoa] has fuel 17
    (significant digits), and [candidate_17] shows the 17th always
    succeeds.  [strip_zeros] and [pos_digits] have fuel 20, enough for
    significands below [10^17] and exponents below [10^20].  [dec_exp]
    estimates [log10 2] by [78913 / 2^18].  [log_check_range] shows, by
    computation, that the estimate is within one for each of the 2098
    binary exponents of a double (a table for [|L| <= 100], then one
    pass each way carrying [2^L] and [10^E0], so that the kernel checks
    2098 exponents in seconds).

    ** Not modelled
    - The C library's [exp] itself: it is not code of this repository
      and its last bit is not specified, so it is a parameter; the
      binary64 theorems hold for every [exp], or for every [exp] that
      meets the contract [LibmExp].
    - The [OverflowError] that [int / int] raises for [qTime] beyond
      about [10^154] (the model gives [-inf] there), far beyond any
      [maxTime] that terminates in practice.
    - The stream itself: [sys.stdout]'s buffering and encoding.  The
      model is the sequence of characters [print] writes.
    - The values the binary64 program prints once the pulse reaches the
      probe: they depend on the C library's [exp] and on the rounding of
      [x / imp0 * imp0] at each cell, and differ from the undistorted
      pulse of the exact scheme, so no closed form is claimed for them.
    - The state left behind by an iteration that raises: [time_loop]
      returns the state from the start of that iteration.  The printed
      output is the same, because [print] is the last statement of the
      iteration and raises before writing.

    ** Further work
    - A bound on the distance between the binary64 run and the exact
      run needs a rounding-error theory of the primitive operations
      (no such library is installed); the development relates the two
      only through their shared, instance-generic theorems.
    - [Dtoa.rounds_to_nearest] shows the rounding interval is round to
      nearest over the real values of the doubles; relating it to the
      integer rounding of [SpecFloat] would model [float()] itself.
*)

From Stdlib Require Import ZArith Lia.
From stdpp Require Export base list sets.

(** ** Exceptions and the error monad *)

(** The exceptions the program can raise: [IndexError] (list subscript
    or subscript assignment out of range) and [ZeroDivisionError] (float
    division by [0.0]). *)
Inductive PyExc : Type :=
  | IndexError
  | ZeroDivisionError.

Inductive result (A : Type) : Type :=
  | Ok (a : A)
  | Raise (e : PyExc).
Arguments Ok {A} a.
Arguments Raise {A} e.

Definition bind {A B : Type} (m : result A) (k : A -> result B) : result B :=
  match m with
  | Ok a => k a
  | Raise e => Raise e
  end.

Declare Scope py_scope.
Delimit Scope py_scope with py.
Notation "x <- m ;; k" := (bind m (fun x => k))
  (at level 100, m at next level, right associativity) : py_scope.
Open Scope py_scope.

(** ** Partial elementwise update: the state of an in-place loop

    [upd_upto f k l] is [l] with the cells [0 .. k-1] replaced by
    [f m (l !! m)]: the list a loop [for m in range(k): l[m] = f(m, l[m])]
    leaves behind. *)
Definition upd_upto {A : Type} (f : nat -> A -> A) (k : nat) (l : list A) : list A :=
  imap (fun m x => if decide (m < k) then f m x else x) l.

(** ** Lemmas *)

Create HintDb py discriminated.
Create Rewrite HintDb py_len.

Section Lemmas.
Context {A : Type}.

Lemma bind_Ok {B} (a : A) (k : A -> result B) : bind (Ok a) k = k a.
Proof. reflexivity. Qed.

Lemma length_upd_upto f k (l : list A) : length (upd_upto f k l) = length l.
Proof. apply length_imap. Qed.

Lemma lookup_upd_upto f k (l : list A) m :
  upd_upto f k l !! m = (fun x => if decide (m < k) then f m x else x) <$> l !! m.
Proof. apply list_lookup_imap. Qed.

(** Cells at or beyond the bound are untouched. *)
Lemma lookup_upd_upto_ge f k (l : list A) m :
  (k <= m)%nat -> upd_upto f k l !! m = l !! m.
Proof.
  intros Hm. rewrite lookup_upd_upto.
  destruct (l !! m); [| done]. cbn -[decide]. by rewrite decide_False by lia.
Qed.

Lemma lookup_upd_upto_lt f k (l : list A) m :
  (m < k)%nat -> upd_upto f k l !! m = f m <$> l !! m.
Proof.
  intros Hm. rewrite lookup_upd_upto.
  destruct (l !! m); [| done]. cbn -[decide]. by rewrite decide_True by lia.
Qed.

Lemma upd_upto_0 f (l : list A) : upd_upto f 0 l = l.
Proof. apply list_eq. intros m. apply lookup_upd_upto_ge. lia. Qed.

(** One more iteration of the in-place loop: writing cell [k] from its
    current (still original) value extends the updated prefix by one. *)
Lemma upd_upto_S f k (l : list A) x :
  l !! k = Some x -> <[k:=f k x]> (upd_upto f k l) = upd_upto f (S k) l.
Proof.
  intros Hx. apply list_eq. intros m.
  destruct (decide (m = k)) as [-> | Hne].
  - rewrite list_lookup_insert_eq by (rewrite length_upd_upto; eauto using lookup_lt_Some).
    rewrite lookup_upd_upto_lt, Hx by lia. done.
  - rewrite list_lookup_insert_ne by done. rewrite !lookup_upd_upto.
    destruct (l !! m); simpl; [| done].
    repeat case_decide; done || lia.
Qed.

Lemma upd_upto_ge f k (l : list A) :
  (length l <= k)%nat -> upd_upto f k l = upd_upto f (length l) l.
Proof.
  intros Hk. apply list_eq. intros m. rewrite !lookup_upd_upto.
  destruct (l !! m) eqn:E; simpl; [| done].
  apply lookup_lt_Some in E. repeat case_decide; done || lia.
Qed.

End Lemmas.

Section TotalLookup.
Context {A : Type} `{Inhabited A}.

Lemma lookup_total_upd_upto_lt f k (l : list A) m :
  (m < k)%nat -> (m < length l)%nat -> upd_upto f k l !!! m = f m (l !!! m).
Proof.
  intros Hk Hl. rewrite !list_lookup_total_alt, lookup_upd_upto_lt by done.
  by rewrite (list_lookup_lookup_total_lt l m Hl).
Qed.

Lemma lookup_total_upd_upto_out f k (l : list A) m :
  (k <= m \/ length l <= m)%nat -> upd_upto f k l !!! m = l !!! m.
Proof.
  intros [Hk | Hl].
  - by rewrite !list_lookup_total_alt, lookup_upd_upto_ge.
  - rewrite !list_lookup_total_alt, lookup_upd_upto.
    by rewrite (lookup_ge_None_2 l m Hl).
Qed.

Lemma lookup_total_insert_0 (l : list A) x :
  (0 < length l)%nat -> <[0:=x]> l !!! 0 = x.
Proof.
  intros Hl. rewrite list_lookup_total_insert. case_decide; [done | lia].
Qed.

End TotalLookup.


#[export] Hint Rewrite @length_upd_upto @length_insert @length_app : py_len.

(** Length side conditions: normalise the lengths, then arithmetic. *)
Ltac py_lia := autorewrite with py_len in *; lia.
