(* ===== verification/PyList.v ===== *)
(** * Python lists, [range] and [for]

    The fragment of Python's list semantics that [src/fdtd1d.py] uses:
    subscripts with negative indices ([py_index], [py_get]), subscript
    assignment ([py_set]), both raising [IndexError] out of range,
    [[x] * n] ([py_repeat]), [range(n)] ([py_range]) and the [for]
    statement over a range ([py_for]), with the lemmas the stepper
    uses about them. *)

From Stdlib Require Import ZArith Lia.
From S2P Require Import Prelude.

(** ** Python lists *)

(** Position denoted by the subscript [i] of a list of length [n]:
    [0 <= i < n] is position [i], [-n <= i < 0] is position [n + i]. *)
Definition py_index (n : nat) (i : Z) : option nat :=
  if ((0 <=? i) && (i <? Z.of_nat n))%Z then Some (Z.to_nat i)
  else if ((- Z.of_nat n <=? i) && (i <? 0))%Z then Some (Z.to_nat (Z.of_nat n + i))
  else None.

(** [l[i]] *)
Definition py_get {A : Type} (l : list A) (i : Z) : result A :=
  match py_index (length l) i with
  | Some k => match l !! k with Some x => Ok x | None => Raise IndexError end
  | None => Raise IndexError
  end.

(** [l[i] = x]: in place, raising [IndexError] out of range (stdpp's
    insert alone would silently do nothing there). *)
Definition py_set {A : Type} (l : list A) (i : Z) (x : A) : result (list A) :=
  match py_index (length l) i with
  | Some k => Ok (<[k:=x]> l)
  | None => Raise IndexError
  end.

(** [[x] * n] *)
Definition py_repeat {A : Type} (x : A) (n : Z) : list A := replicate (Z.to_nat n) x.

(** [range(n)]: empty when [n <= 0]. *)
Definition py_range (n : Z) : list Z := map Z.of_nat (seq 0 (Z.to_nat n)).

(** [for x in xs: body], the body threading the program state and
    possibly raising. *)
Fixpoint py_for {S : Type} (xs : list Z) (body : Z -> S -> result S) (s : S) : result S :=
  match xs with
  | [] => Ok s
  | x :: xs' => bind (body x s) (py_for xs' body)
  end.

Section Lemmas.
Context {A : Type}.

Lemma py_index_nonneg n i :
  (0 <= i < Z.of_nat n)%Z -> py_index n i = Some (Z.to_nat i).
Proof.
  intros Hi. unfold py_index.
  destruct (Z.leb_spec 0 i), (Z.ltb_spec i (Z.of_nat n)); simpl; [done | lia..].
Qed.

Lemma py_index_neg n i :
  (- Z.of_nat n <= i < 0)%Z -> py_index n i = Some (Z.to_nat (Z.of_nat n + i)).
Proof.
  intros Hi. unfold py_index.
  destruct (Z.leb_spec 0 i); [lia |]. simpl.
  destruct (Z.leb_spec (- Z.of_nat n) i), (Z.ltb_spec i 0); simpl; [done | lia..].
Qed.

Lemma py_index_None n i :
  (i < - Z.of_nat n \/ Z.of_nat n <= i)%Z -> py_index n i = None.
Proof.
  intros Hi. unfold py_index.
  destruct (Z.leb_spec 0 i), (Z.ltb_spec i (Z.of_nat n)),
    (Z.leb_spec (- Z.of_nat n) i), (Z.ltb_spec i 0); simpl; done || lia.
Qed.

Lemma py_get_nonneg (l : list A) i x :
  (0 <= i)%Z -> l !! Z.to_nat i = Some x -> py_get l i = Ok x.
Proof.
  intros Hi Hx. pose proof (lookup_lt_Some _ _ _ Hx).
  unfold py_get. rewrite py_index_nonneg, Hx by lia. done.
Qed.

(** [l[-1]] is the last element. *)
Lemma py_get_minus_one (l : list A) x :
  l !! (length l - 1)%nat = Some x -> py_get l (-1) = Ok x.
Proof.
  intros Hx. pose proof (lookup_lt_Some _ _ _ Hx).
  unfold py_get. rewrite py_index_neg by lia.
  replace (Z.to_nat (Z.of_nat (length l) + -1)) with (length l - 1)%nat by lia.
  by rewrite Hx.
Qed.

Lemma py_get_oob (l : list A) i :
  (Z.of_nat (length l) <= i)%Z -> py_get l i = Raise IndexError.
Proof. intros Hi. unfold py_get. by rewrite py_index_None by lia. Qed.

Lemma py_set_nonneg (l : list A) i x :
  (0 <= i < Z.of_nat (length l))%Z -> py_set l i x = Ok (<[Z.to_nat i:=x]> l).
Proof. intros Hi. unfold py_set. by rewrite py_index_nonneg. Qed.

Lemma py_set_oob (l : list A) i x :
  (Z.of_nat (length l) <= i)%Z -> py_set l i x = Raise IndexError.
Proof. intros Hi. unfold py_set. by rewrite py_index_None by lia. Qed.

Lemma length_py_repeat (x : A) n : length (py_repeat x n) = Z.to_nat n.
Proof. apply length_replicate. Qed.

Lemma lookup_py_repeat (x : A) n m :
  (m < Z.to_nat n)%nat -> py_repeat x n !! m = Some x.
Proof. intros Hm. by apply lookup_replicate_2. Qed.

Lemma py_range_nonpos n : (n <= 0)%Z -> py_range n = [].
Proof. intros Hn. unfold py_range. by replace (Z.to_nat n) with 0%nat by lia. Qed.

Lemma py_range_snoc n : (0 <= n)%Z -> py_range (n + 1) = py_range n ++ [n].
Proof.
  intros Hn. unfold py_range.
  replace (Z.to_nat (n + 1)) with (Z.to_nat n + 1)%nat by lia.
  rewrite seq_app, map_app. simpl. by rewrite Z2Nat.id.
Qed.

Lemma length_py_range n : length (py_range n) = Z.to_nat n.
Proof. unfold py_range. by rewrite length_map, length_seq. Qed.

Lemma py_for_app {S} (xs ys : list Z) (body : Z -> S -> result S) s :
  py_for (xs ++ ys) body s = bind (py_for xs body s) (py_for ys body).
Proof.
  revert s. induction xs as [|x xs IH]; intros s; simpl; [done |].
  destruct (body x s); simpl; [apply IH | done].
Qed.

Lemma py_for_snoc {S} n (body : Z -> S -> result S) s :
  (0 <= n)%Z -> py_for (py_range (n + 1)) body s = bind (py_for (py_range n) body s) (body n).
Proof.
  intros Hn. rewrite py_range_snoc, py_for_app by done.
  destruct (py_for (py_range n) body s); simpl; [| done].
  by destruct (body n a).
Qed.

(** A loop whose body is total on the states satisfying [P], and keeps
    [P], raises nothing. *)
Lemma py_for_total {S} (P : S -> Prop) (xs : list Z) (body : Z -> S -> result S) s :
  P s ->
  (forall x s, x ∈ xs -> P s -> exists s', body x s = Ok s' /\ P s') ->
  exists s', py_for xs body s = Ok s' /\ P s'.
Proof.
  revert s. induction xs as [|x xs IH]; intros s Hs Hbody; simpl; [eauto |].
  destruct (Hbody x s) as (s' & -> & Hs'); [set_solver | done |].
  apply IH; [done |]. intros y t Hy. apply Hbody. set_solver.
Qed.

End Lemmas.

Section TotalLookup.
Context {A : Type} `{Inhabited A}.

Lemma py_get_total (l : list A) i :
  (0 <= i < Z.of_nat (length l))%Z -> py_get l i = Ok (l !!! Z.to_nat i).
Proof.
  intros Hi. apply py_get_nonneg; [lia |].
  apply list_lookup_lookup_total_lt. lia.
Qed.

Lemma py_get_minus_one_total (l : list A) :
  (0 < length l)%nat -> py_get l (-1) = Ok (l !!! (length l - 1)%nat).
Proof.
  intros Hl. apply py_get_minus_one, list_lookup_lookup_total_lt. lia.
Qed.

End TotalLookup.

#[export] Hint Rewrite @length_py_repeat @length_py_range : py_len.
#[export] Hint Resolve py_index_nonneg py_get_nonneg py_set_nonneg : py.

(** ** Round trips of subscript assignment and subscript *)


