(* ===== verification/PyFloat.v ===== *)
(** * The interface between the stepper and its number type

    [src/fdtd1d.py] computes with Python floats: the literal [0.0], the
    binary operators [+ - * /] on floats, [math.exp], and the true
    division [int / int] (line 23, where [-(qTime - 30) * (qTime - 30)]
    is an exact Python integer divided by the integer [100]).  The class
    [PyFloat] names exactly these operations, with the test [y == 0.0]
    that CPython makes before a float division ([py_fdiv]); the stepper
    ([Fdtd.FieldStepper]) is written against it, so that the generic
    theorems hold for each of its instances.  The program's instance is
    [IEEE.prim_pyfloat]: IEEE-754 binary64 (Rocq's primitive floats),
    what CPython computes, with [math.exp] left as a parameter since the
    C library's [exp] is not specified bit for bit.  The theorems about
    the program's values are stated for that instance. *)

From Stdlib Require Import ZArith Lia.
From S2P Require Import Prelude PyList.

Class PyFloat (F : Type) := {
  f0 : F;                     (** the literal [0.0] *)
  fadd : F -> F -> F;         (** [x + y] *)
  fsub : F -> F -> F;         (** [x - y] *)
  fmul : F -> F -> F;         (** [x * y] *)
  fdiv : F -> F -> F;         (** [x / y] for [y <> 0.0] *)
  fis_zero : F -> bool;       (** [y == 0.0] *)
  fexp : F -> F;              (** [math.exp(x)] *)
  ftruediv : Z -> Z -> F      (** [a / b] on Python ints, [b <> 0] (the script divides by [100]) *)
}.

Declare Scope pyfloat_scope.
Delimit Scope pyfloat_scope with pf.
Infix "⊕" := fadd (at level 50, left associativity) : pyfloat_scope.
Infix "⊖" := fsub (at level 50, left associativity) : pyfloat_scope.
Infix "⊗" := fmul (at level 40, left associativity) : pyfloat_scope.
Infix "⊘" := fdiv (at level 40, left associativity) : pyfloat_scope.

(** [x / y] on floats: CPython's [float_div] raises [ZeroDivisionError]
    when [y == 0.0] (either zero) and divides otherwise. *)
Definition py_fdiv {F} `{PyFloat F} (x y : F) : result F :=
  if fis_zero y then Raise ZeroDivisionError else Ok (fdiv x y).

Lemma py_fdiv_ok {F} `{PyFloat F} x y : fis_zero y = false -> py_fdiv x y = Ok (x ⊘ y)%pf.
Proof. intros Hy. unfold py_fdiv. by rewrite Hy. Qed.

Lemma py_fdiv_zero {F} `{PyFloat F} x y : fis_zero y = true -> py_fdiv x y = Raise ZeroDivisionError.
Proof. intros Hy. unfold py_fdiv. by rewrite Hy. Qed.

#[export] Instance pyfloat_inhabited {F} `{PyFloat F} : Inhabited F := populate f0.

(** Every cell of [[0.0] * n] is [0.0] (and so is the default of
    [!!!] beyond its end). *)
Lemma py_repeat_f0 {F} `{PyFloat F} n m : py_repeat f0 n !!! m = f0.
Proof.
  rewrite list_lookup_total_alt.
  destruct (decide (m < Z.to_nat n)%nat).
  - by rewrite lookup_py_repeat.
  - rewrite lookup_ge_None_2; [done |]. rewrite length_py_repeat. lia.
Qed.

(** The facts about [0.0] under an impedance [z] that make a quiet cell
    stay quiet: [0.0 + (0.0 - 0.0) / z = 0.0] and
    [0.0 + (0.0 - 0.0) * z = 0.0].  They hold in IEEE arithmetic for every
    finite nonzero [z] (in particular [377.0]) and fail for infinite [z]
    ([0.0 * inf] is NaN). *)
Class QuietZero {F} `{PyFloat F} (z : F) : Prop := {
  quiet_hy : (f0 ⊕ (f0 ⊖ f0) ⊘ z)%pf = f0;
  quiet_ez : (f0 ⊕ (f0 ⊖ f0) ⊗ z)%pf = f0
}.
