(* ===== verification/Fdtd.v ===== *)
(** * FieldStepper: the time-stepping loop of [src/fdtd1d.py]

    The whole program is this component.  Its state is the two field
    lists [ez], [hy] (lines 6-7) and the lines printed so far; its
    configuration the module constants [SIZE], [imp0], [maxTime]
    (lines 4, 8, 9).  One iteration of the time loop (lines 12-25) is
    [time_step]: the magnetic loop [update_hy] (lines 15-16), the
    electric loop [update_ez] (lines 19-20), the hard source
    [hardwire_source] (line 23) and the probe [print_probe] (line 25).
    [run] is the program.

    Beside the code-level model, [spec_step] states one step the way the
    leapfrog scheme is described: all of [hy] from the old [ez], then all
    of [ez] from the new [hy], then the source.  [time_step_refines] shows
    that the in-place Python loops compute exactly [spec_step]. *)

From Stdlib Require Import ZArith Lia.
From S2P Require Import Prelude PyList PyFloat.

Module FieldStepper.
Section Model.
Context {F : Type} `{PyFloat F}.
Local Open Scope pyfloat_scope.

(** ** Data *)

(** Module-level constants of the script. *)
Record config := mk_config {
  SIZE : Z;        (** [SIZE = 200] *)
  imp0 : F;        (** [imp0 = 377.0] *)
  maxTime : Z      (** [maxTime = 250] *)
}.

(** The global lists and the lines printed so far (oldest first). *)
Record state := mk_state {
  ez : list F;
  hy : list F;
  out : list F
}.

(** Lines 6-7: [ez = [0.0] * SIZE], [hy = [0.0] * SIZE]. *)
Definition init (c : config) : state :=
  mk_state (py_repeat f0 (SIZE c)) (py_repeat f0 (SIZE c)) [].

(** ** Operations *)

(** Line 16: [hy[mm] = hy[mm] + (ez[mm + 1] - ez[mm]) / imp0]; the
    division raises [ZeroDivisionError] when [imp0 == 0.0]. *)
Definition update_hy (c : config) (mm : Z) (s : state) : result state :=
  h <- py_get (hy s) mm ;;
  e1 <- py_get (ez s) (mm + 1) ;;
  e0 <- py_get (ez s) mm ;;
  d <- py_fdiv (e1 ⊖ e0) (imp0 c) ;;
  hy' <- py_set (hy s) mm (h ⊕ d) ;;
  Ok (mk_state (ez s) hy' (out s)).

(** Line 20: [ez[mm] = ez[mm] + (hy[mm] - hy[mm - 1]) * imp0]; for
    [mm = 0] the subscript [-1] reads the last cell of [hy]. *)
Definition update_ez (c : config) (mm : Z) (s : state) : result state :=
  e <- py_get (ez s) mm ;;
  h1 <- py_get (hy s) mm ;;
  h0 <- py_get (hy s) (mm - 1) ;;
  ez' <- py_set (ez s) mm (e ⊕ (h1 ⊖ h0) ⊗ imp0 c) ;;
  Ok (mk_state ez' (hy s) (out s)).

(** The right-hand side of line 23:
    [math.exp(-(qTime - 30) * (qTime - 30) / 100)]. *)
Definition source (qTime : Z) : F :=
  fexp (ftruediv (- (qTime - 30) * (qTime - 30)) 100).

(** Line 23: [ez[0] = ...]. *)
Definition hardwire_source (qTime : Z) (s : state) : result state :=
  ez' <- py_set (ez s) 0 (source qTime) ;;
  Ok (mk_state ez' (hy s) (out s)).

(** Line 25: [print(ez[50])]. *)
Definition print_probe (s : state) : result state :=
  v <- py_get (ez s) 50 ;;
  Ok (mk_state (ez s) (hy s) (out s ++ [v])).

(** Lines 13-25: one iteration of the time loop. *)
Definition time_step (c : config) (qTime : Z) (s : state) : result state :=
  s1 <- py_for (py_range (SIZE c - 1)) (update_hy c) s ;;
  s2 <- py_for (py_range (SIZE c)) (update_ez c) s1 ;;
  s3 <- hardwire_source qTime s2 ;;
  print_probe s3.

(** Line 12: [for qTime in ...]; an exception ends the program.  The
    result is the state at the end, or at the start of the iteration
    that raised (that iteration prints nothing: its only [print] is its
    last statement), with the exception. *)
Fixpoint time_loop (c : config) (qs : list Z) (s : state) : state * option PyExc :=
  match qs with
  | [] => (s, None)
  | q :: qs' =>
      match time_step c q s with
      | Ok s' => time_loop c qs' s'
      | Raise e => (s, Some e)
      end
  end.

(** The program: the printed lines are [out (run c).1], the exit status
    is failure exactly when [(run c).2] is an exception. *)
Definition run (c : config) : state * option PyExc :=
  time_loop c (py_range (maxTime c)) (init c).

(** ** The leapfrog step as the spec describes it *)

(** New value of [hy[m]] for [m < SIZE - 1]. *)
Definition hy_cell (z : F) (ez0 : list F) (m : nat) (h : F) : F :=
  h ⊕ (ez0 !!! S m ⊖ ez0 !!! m) ⊘ z.

(** New value of [ez[m]]; [left] stands for the [hy] value left of cell 0. *)
Definition ez_cell (z : F) (left : F) (hy1 : list F) (m : nat) (e : F) : F :=
  e ⊕ (hy1 !!! m ⊖ match m with 0 => left | S k => hy1 !!! k end) ⊗ z.

(** All of [hy] but its last cell, from the old [ez]. *)
Definition hy_next (z : F) (ez0 hy0 : list F) : list F :=
  upd_upto (hy_cell z ez0) (length hy0 - 1) hy0.

(** All of [ez], from the new [hy], with the left neighbour of cell 0
    given explicitly. *)
Definition ez_next_bc (z left : F) (hy1 ez0 : list F) : list F :=
  upd_upto (ez_cell z left hy1) (length ez0) ez0.

(** The code's boundary: the left neighbour of cell 0 is [hy[-1]], the
    last cell of [hy] (spec section 9: [hy[(mm - 1 + N) % N]]). *)
Definition ez_next (z : F) (hy1 ez0 : list F) : list F :=
  ez_next_bc z (hy1 !!! (length hy1 - 1)) hy1 ez0.

Definition spec_step (c : config) (qTime : Z) (s : state) : state :=
  let hy1 := hy_next (imp0 c) (ez s) (hy s) in
  let ez1 := <[0 := source qTime]> (ez_next (imp0 c) hy1 (ez s)) in
  mk_state ez1 hy1 (out s ++ [ez1 !!! 50]).

(** The program as the spec describes it: [maxTime] leapfrog steps from
    the zero fields. *)
Definition spec_run (c : config) : state :=
  fold_left (fun s q => spec_step c q s) (py_range (maxTime c)) (init c).

(** The same step with any value [left] taken as the [hy] neighbour left
    of cell 0: [hy[-1]] in the code, [0.0] for a "zero" boundary, [hy[0]]
    for a "clamped" one (spec sections 4.1 and 9). *)
Definition spec_step_bc (c : config) (left : F) (qTime : Z) (s : state) : state :=
  let hy1 := hy_next (imp0 c) (ez s) (hy s) in
  let ez1 := <[0 := source qTime]> (ez_next_bc (imp0 c) left hy1 (ez s)) in
  mk_state ez1 hy1 (out s ++ [ez1 !!! 50]).

(** The program with the boundary [left]: [maxTime] such steps. *)
Definition spec_run_bc (c : config) (left : F) : state :=
  fold_left (fun s q => spec_step_bc c left q s) (py_range (maxTime c)) (init c).

(** Well-formed states: both lists have [SIZE] cells. *)
Definition wf (c : config) (s : state) : Prop :=
  length (ez s) = Z.to_nat (SIZE c) /\ length (hy s) = Z.to_nat (SIZE c).


(** ** The loops compute the simultaneous updates *)

Lemma update_hy_ok c s mm :
  fis_zero (imp0 c) = false ->
  length (ez s) = length (hy s) -> (0 <= mm)%Z -> (Z.to_nat mm + 1 < length (hy s))%nat ->
  update_hy c mm s =
  Ok (mk_state (ez s)
        (<[Z.to_nat mm := hy_cell (imp0 c) (ez s) (Z.to_nat mm) (hy s !!! Z.to_nat mm)]> (hy s))
        (out s)).
Proof.
  intros Hz Hlen Hmm Hlt. unfold update_hy.
  rewrite !py_get_total by lia. simpl. rewrite py_fdiv_ok by done. simpl.
  rewrite py_set_nonneg by lia.
  unfold hy_cell. by replace (Z.to_nat (mm + 1)) with (S (Z.to_nat mm)) by lia.
Qed.

Lemma update_ez_ok c s mm :
  (0 < length (hy s))%nat -> (0 <= mm)%Z ->
  (Z.to_nat mm < length (ez s))%nat -> (Z.to_nat mm < length (hy s))%nat ->
  update_ez c mm s =
  Ok (mk_state
        (<[Z.to_nat mm := ez_cell (imp0 c) (hy s !!! (length (hy s) - 1)) (hy s)
                            (Z.to_nat mm) (ez s !!! Z.to_nat mm)]> (ez s))
        (hy s) (out s)).
Proof.
  intros Hhy Hmm Hlt1 Hlt2. unfold update_ez.
  rewrite (py_get_total (ez s)), (py_get_total (hy s) mm) by lia. simpl.
  unfold ez_cell. destruct (Z.to_nat mm) as [|k] eqn:E.
  - replace mm with 0%Z by lia. rewrite py_get_minus_one_total by done. simpl.
    by rewrite py_set_nonneg by lia.
  - rewrite py_get_total by lia. simpl. rewrite py_set_nonneg by lia.
    rewrite E. by replace (Z.to_nat (mm - 1)) with k by lia.
Qed.

Lemma hy_loop_prefix c s n :
  fis_zero (imp0 c) = false ->
  length (ez s) = length (hy s) -> (n <= length (hy s) - 1)%nat ->
  py_for (py_range (Z.of_nat n)) (update_hy c) s =
  Ok (mk_state (ez s) (upd_upto (hy_cell (imp0 c) (ez s)) n (hy s)) (out s)).
Proof.
  intros Hz Hlen. induction n as [|n IH]; intros Hn.
  - rewrite upd_upto_0. by destruct s.
  - rewrite Nat2Z.inj_succ, <- Z.add_1_r, py_for_snoc, IH by lia. simpl.
    rewrite update_hy_ok; simpl; rewrite ?length_upd_upto; [| done | lia..].
    rewrite Nat2Z.id, (list_lookup_total_alt (upd_upto _ _ _)), lookup_upd_upto_ge by lia.
    erewrite upd_upto_S; [done |].
    rewrite list_lookup_lookup_total_lt by lia. done.
Qed.

Lemma ez_loop_prefix c s n :
  length (ez s) = length (hy s) -> (n <= length (ez s))%nat ->
  py_for (py_range (Z.of_nat n)) (update_ez c) s =
  Ok (mk_state (upd_upto (ez_cell (imp0 c) (hy s !!! (length (hy s) - 1)) (hy s)) n (ez s))
        (hy s) (out s)).
Proof.
  intros Hlen. induction n as [|n IH]; intros Hn.
  - rewrite upd_upto_0. by destruct s.
  - rewrite Nat2Z.inj_succ, <- Z.add_1_r, py_for_snoc, IH by lia. simpl.
    rewrite update_ez_ok; simpl; rewrite ?length_upd_upto; [| lia..].
    rewrite Nat2Z.id, (list_lookup_total_alt (upd_upto _ _ _)), lookup_upd_upto_ge by lia.
    erewrite upd_upto_S; [done |].
    rewrite list_lookup_lookup_total_lt by lia. done.
Qed.


Lemma length_hy_next z ez0 hy0 : length (hy_next z ez0 hy0) = length hy0.
Proof. apply length_upd_upto. Qed.

Lemma length_ez_next_bc z left hy1 ez0 : length (ez_next_bc z left hy1 ez0) = length ez0.
Proof. apply length_upd_upto. Qed.

Lemma length_ez_next z hy1 ez0 : length (ez_next z hy1 ez0) = length ez0.
Proof. apply length_upd_upto. Qed.

#[local] Hint Rewrite length_hy_next length_ez_next_bc length_ez_next : py_len.

Lemma wf_mk_state c e h o :
  length e = Z.to_nat (SIZE c) -> length h = Z.to_nat (SIZE c) -> wf c (mk_state e h o).
Proof. by split. Qed.

(** The magnetic loop divides by [imp0] unless it is empty. *)
Definition divides_ok (c : config) : Prop :=
  (SIZE c <= 1)%Z \/ fis_zero (imp0 c) = false.

(** The in-place magnetic loop (lines 15-16) computes [hy_next]: every
    cell but the last from the [ez] of the previous step. *)
Lemma magnetic_loop c s :
  wf c s -> divides_ok c ->
  py_for (py_range (SIZE c - 1)) (update_hy c) s =
  Ok (mk_state (ez s) (hy_next (imp0 c) (ez s) (hy s)) (out s)).
Proof.
  intros [He Hh] Hdiv. unfold hy_next.
  destruct (Z.le_gt_cases (SIZE c) 1).
  - rewrite py_range_nonpos by lia.
    replace (length (hy s) - 1)%nat with 0%nat by lia. rewrite upd_upto_0. by destruct s.
  - replace (SIZE c - 1)%Z with (Z.of_nat (length (hy s) - 1)) by lia.
    apply hy_loop_prefix; [destruct Hdiv; [lia | done] | lia | lia].
Qed.

(** With two cells or more and [imp0 == 0.0], the first magnetic update
    raises. *)
Lemma magnetic_loop_zero c s :
  wf c s -> (1 < SIZE c)%Z -> fis_zero (imp0 c) = true ->
  py_for (py_range (SIZE c - 1)) (update_hy c) s = Raise ZeroDivisionError.
Proof.
  intros [He Hh] HN Hz. unfold py_range.
  destruct (Z.to_nat (SIZE c - 1)) as [|n] eqn:E; [lia |]. simpl.
  unfold update_hy. rewrite !py_get_total by (simpl; lia). simpl.
  by rewrite py_fdiv_zero.
Qed.

(** The in-place electric loop (lines 19-20) computes [ez_next] from
    the [hy] it is given, [hy[-1]] included. *)
Lemma electric_loop c s :
  wf c s ->
  py_for (py_range (SIZE c)) (update_ez c) s =
  Ok (mk_state (ez_next (imp0 c) (hy s) (ez s)) (hy s) (out s)).
Proof.
  intros [He Hh]. unfold ez_next, ez_next_bc.
  destruct (Z.le_gt_cases (SIZE c) 0).
  - rewrite py_range_nonpos by lia. rewrite He.
    replace (Z.to_nat (SIZE c)) with 0%nat by lia. rewrite upd_upto_0. by destruct s.
  - replace (SIZE c) with (Z.of_nat (length (ez s))) by lia.
    apply ez_loop_prefix; lia.
Qed.

(** The state after both loops of one iteration, in order. *)
Lemma time_step_loops c q s :
  wf c s -> divides_ok c ->
  time_step c q s =
  (s3 <- hardwire_source q (mk_state (ez_next (imp0 c) (hy_next (imp0 c) (ez s) (hy s)) (ez s))
                                    (hy_next (imp0 c) (ez s) (hy s)) (out s)) ;;
   print_probe s3).
Proof.
  intros Hwf Hdiv. pose proof Hwf as [He Hh]. unfold time_step.
  rewrite magnetic_loop, bind_Ok by done.
  rewrite electric_loop; [done |].
  apply wf_mk_state; py_lia.
Qed.

(** ** One step: refinement of the leapfrog step, and its errors *)

Lemma time_step_refines c q s :
  wf c s -> (50 < SIZE c)%Z -> fis_zero (imp0 c) = false ->
  time_step c q s = Ok (spec_step c q s).
Proof.
  intros Hwf HN Hz. pose proof Hwf as [He Hh].
  rewrite time_step_loops by (done || by right). unfold hardwire_source, print_probe; simpl.
  rewrite py_set_nonneg by py_lia. rewrite bind_Ok; simpl.
  rewrite py_get_total by py_lia. done.
Qed.

(** With at most 50 cells: [IndexError] at [ez[0] = ...] when the lists
    are empty, otherwise at [print(ez[50])]. *)
Lemma time_step_raises c q s :
  wf c s -> (SIZE c <= 50)%Z -> divides_ok c -> time_step c q s = Raise IndexError.
Proof.
  intros Hwf HN Hdiv. pose proof Hwf as [He Hh].
  rewrite time_step_loops by done. unfold hardwire_source, print_probe; simpl.
  destruct (Z.le_gt_cases (SIZE c) 0).
  - rewrite py_set_oob by py_lia. done.
  - rewrite py_set_nonneg by py_lia. rewrite bind_Ok; simpl.
    rewrite py_get_oob by py_lia. done.
Qed.

(** With two cells or more and [imp0 == 0.0]: [ZeroDivisionError] in
    the first magnetic update. *)
Lemma time_step_zero c q s :
  wf c s -> (1 < SIZE c)%Z -> fis_zero (imp0 c) = true ->
  time_step c q s = Raise ZeroDivisionError.
Proof.
  intros Hwf HN Hz. unfold time_step. by rewrite magnetic_loop_zero.
Qed.

(** C1.  One iteration of the time loop (lines 13-25) on lists of
    [SIZE] cells.  With at least two cells and [imp0 == 0.0] it raises
    [ZeroDivisionError] at its first division.  Otherwise, with at least
    51 cells it raises nothing and computes exactly the leapfrog step
    [spec_step] (all of [hy] but its last cell from the previous [ez],
    then all of [ez] from the new [hy] with [hy[-1]] left of cell 0, then
    [ez[0]] overwritten by the source, then [ez[50]] printed); with at
    most 50 cells it raises [IndexError]. *)
Theorem time_step_correct c q s :
  wf c s ->
  time_step c q s =
  if (1 <? SIZE c)%Z && fis_zero (imp0 c) then Raise ZeroDivisionError
  else if (50 <? SIZE c)%Z then Ok (spec_step c q s) else Raise IndexError.
Proof.
  intros Hwf. destruct (Z.ltb_spec 1 (SIZE c)), (fis_zero (imp0 c)) eqn:Hz; simpl.
  - by apply time_step_zero.
  - destruct (Z.ltb_spec 50 (SIZE c)).
    + by apply time_step_refines.
    + apply time_step_raises; [done | lia | by right].
  - destruct (Z.ltb_spec 50 (SIZE c)); [lia |].
    apply time_step_raises; [done | lia | by left].
  - destruct (Z.ltb_spec 50 (SIZE c)).
    + by apply time_step_refines.
    + apply time_step_raises; [done | lia | by right].
Qed.

Lemma spec_step_wf c q s : wf c s -> wf c (spec_step c q s).
Proof.
  intros [He Hh]. apply wf_mk_state; py_lia.
Qed.

Lemma time_step_Ok_inv c q s s' :
  wf c s -> time_step c q s = Ok s' ->
  (50 < SIZE c)%Z /\ fis_zero (imp0 c) = false /\ s' = spec_step c q s.
Proof.
  intros Hwf Hstep. destruct (fis_zero (imp0 c)) eqn:Hz.
  - destruct (Z.le_gt_cases (SIZE c) 1).
    + rewrite time_step_raises in Hstep by (done || lia || by left). done.
    + by rewrite time_step_zero in Hstep.
  - destruct (Z.le_gt_cases (SIZE c) 50).
    + by rewrite time_step_raises in Hstep by (done || by right).
    + rewrite time_step_refines in Hstep by done. by injection Hstep as <-.
Qed.

Lemma time_step_wf c q s s' : wf c s -> time_step c q s = Ok s' -> wf c s'.
Proof.
  intros Hwf Hstep. apply time_step_Ok_inv in Hstep as (_ & _ & ->); [| done].
  by apply spec_step_wf.
Qed.

Lemma init_wf c : wf c (init c).
Proof. apply wf_mk_state; apply length_py_repeat. Qed.

#[local] Hint Resolve init_wf spec_step_wf time_step_wf : py.

(** ** The time loop as a transition system *)

(** [reachable c q s]: the program reaches the top of iteration
    [qTime = q] (or, for [q = maxTime], the end of the loop) in state [s]. *)
Inductive reachable (c : config) : Z -> state -> Prop :=
  | reach_init : reachable c 0 (init c)
  | reach_step q s s' :
      reachable c q s -> (q < maxTime c)%Z -> time_step c q s = Ok s' ->
      reachable c (q + 1) s'.

Lemma reachable_wf c q s : reachable c q s -> wf c s.
Proof. induction 1; eauto with py. Qed.

#[local] Hint Resolve reachable_wf : py.

Lemma reachable_time c q s : reachable c q s -> (0 <= q)%Z /\ (q = 0 \/ q <= maxTime c)%Z.
Proof. induction 1; lia. Qed.

(** Rule induction with the step replaced by the leapfrog step. *)
Lemma reachable_spec_ind c (P : Z -> state -> Prop) :
  P 0%Z (init c) ->
  (forall q s, reachable c q s -> wf c s -> (0 <= q < maxTime c)%Z -> (50 < SIZE c)%Z ->
     fis_zero (imp0 c) = false -> P q s -> P (q + 1)%Z (spec_step c q s)) ->
  forall q s, reachable c q s -> P q s.
Proof.
  intros Hinit Hstep q s Hr. induction Hr as [|q s s' Hr IH Hq Hts]; [done |].
  pose proof (reachable_wf c q s Hr) as Hwf.
  apply time_step_Ok_inv in Hts as (HN & Hz & ->); [| done].
  pose proof (reachable_time c q s Hr). apply Hstep; auto with lia.
Qed.


(** One line is printed per completed iteration. *)
Lemma reachable_out c q s : reachable c q s -> length (out s) = Z.to_nat q.
Proof.
  induction 1 as [|q s s' Hr IH Hq Hstep]; [done |].
  pose proof (reachable_time c q s Hr).
  apply time_step_Ok_inv in Hstep as (_ & _ & ->); [| eauto with py].
  simpl. rewrite length_app, IH. simpl. lia.
Qed.

(** C11.  Length invariant: in every state the time loop reaches, both
    field lists still have exactly [SIZE] cells, and one value has been
    printed per completed iteration. *)
Theorem reachable_lengths c q s :
  reachable c q s ->
  length (ez s) = Z.to_nat (SIZE c) /\ length (hy s) = Z.to_nat (SIZE c) /\
  length (out s) = Z.to_nat q.
Proof.
  intros Hr. destruct (reachable_wf c q s Hr) as [He Hh].
  split; [done | split; [done |]]. exact (reachable_out c q s Hr).
Qed.

(** Iterations [k, k+1, ..., k+n-1] of the loop all succeed. *)
Lemma time_loop_reach c k n s :
  (50 < SIZE c)%Z -> fis_zero (imp0 c) = false -> reachable c (Z.of_nat k) s ->
  n = 0%nat \/ (Z.of_nat (k + n) <= maxTime c)%Z ->
  exists s', time_loop c (map Z.of_nat (seq k n)) s = (s', None) /\
             reachable c (Z.of_nat (k + n)) s'.
Proof.
  intros HN Hz. revert k s. induction n as [|n IH]; intros k s Hr Hk.
  - exists s. by rewrite Nat.add_0_r.
  - simpl. rewrite time_step_refines by eauto with py.
    destruct (IH (S k) (spec_step c (Z.of_nat k) s)) as (s' & Hrun & Hr');
      [| lia |].
    + rewrite Nat2Z.inj_succ, <- Z.add_1_r.
      apply reach_step with s; [done | lia |].
      apply time_step_refines; eauto with py.
    + exists s'. split; [done |]. by replace (k + S n)%nat with (S k + n)%nat by lia.
Qed.

Lemma run_reach c :
  (50 < SIZE c)%Z -> fis_zero (imp0 c) = false ->
  exists s, run c = (s, None) /\ reachable c (Z.of_nat (Z.to_nat (maxTime c))) s.
Proof.
  intros HN Hz. unfold run, py_range.
  destruct (time_loop_reach c 0 (Z.to_nat (maxTime c)) (init c)) as (s & Hrun & Hr);
    [done | done | apply reach_init | lia |].
  by exists s.
Qed.

(** An exception in iteration 0 ends the program before any output. *)
Lemma run_first_raise c e :
  (0 < maxTime c)%Z -> time_step c 0 (init c) = Raise e -> run c = (init c, Some e).
Proof.
  intros HT Hts. unfold run, py_range.
  destruct (Z.to_nat (maxTime c)) eqn:E; [lia |]. cbn [seq map time_loop].
  change (Z.of_nat 0) with 0%Z. by rewrite Hts.
Qed.

(** The final state of a normal termination is reachable. *)
Lemma run_reachable c s : run c = (s, None) -> exists q, reachable c q s.
Proof.
  intros Hrun. destruct (Z.le_gt_cases (maxTime c) 0).
  { unfold run in Hrun. rewrite py_range_nonpos in Hrun by done.
    injection Hrun as <-. exists 0%Z. apply reach_init. }
  destruct (Z.lt_ge_cases 50 (SIZE c)), (fis_zero (imp0 c)) eqn:Hz.
  2: { destruct (run_reach c) as (s' & Hrun' & Hr); [done | done |].
       rewrite Hrun in Hrun'. injection Hrun' as ->. eauto. }
  all: destruct (time_step c 0 (init c)) eqn:Hts;
    [| by rewrite (run_first_raise c e) in Hrun].
  all: apply time_step_Ok_inv in Hts as (? & ? & _); [lia || congruence | auto with py].
Qed.

(** C2.  With at least 51 cells and [imp0 <> 0.0] the program
    terminates normally after
    [maxTime] iterations (none when [maxTime <= 0]), having printed
    exactly one line per iteration. *)
Theorem run_terminates c :
  (50 < SIZE c)%Z -> fis_zero (imp0 c) = false ->
  exists s, run c = (s, None) /\ length (out s) = Z.to_nat (maxTime c).
Proof.
  intros HN Hz. destruct (run_reach c HN Hz) as (s & Hrun & Hr).
  exists s. split; [done |]. by rewrite (reachable_out c _ s Hr), Nat2Z.id.
Qed.

Lemma time_loop_spec c qs s :
  (50 < SIZE c)%Z -> fis_zero (imp0 c) = false -> wf c s ->
  time_loop c qs s = (fold_left (fun s q => spec_step c q s) qs s, None).
Proof.
  intros HN Hz. revert s. induction qs as [|q qs IH]; intros s Hwf; [done |].
  simpl. rewrite time_step_refines by done. auto with py.
Qed.

(** C10.  Refinement of the whole program: with more than 50 cells and
    [imp0 <> 0.0] the script terminates normally in the state reached by
    [maxTime] leapfrog steps [spec_step] from the zero fields. *)
Theorem run_refines c :
  (50 < SIZE c)%Z -> fis_zero (imp0 c) = false -> run c = (spec_run c, None).
Proof. intros HN Hz. apply time_loop_spec; auto with py. Qed.

(** C3.  With at most 50 cells, at least one iteration, and no division
    by [0.0] (fewer than two cells, or [imp0 <> 0.0]), the program stops
    with [IndexError] in its first iteration, having printed nothing. *)
Theorem run_index_error c :
  (SIZE c <= 50)%Z -> (0 < maxTime c)%Z -> divides_ok c ->
  run c = (init c, Some IndexError).
Proof.
  intros HN HT Hdiv. apply run_first_raise; [done |].
  apply time_step_raises; auto with py.
Qed.

(** C9.  No stability guard, but no NaN either: with at least two cells
    and [imp0 == 0.0], the first magnetic update divides by zero and the
    program stops with [ZeroDivisionError] in its first iteration, having
    printed nothing. *)
Theorem run_zero_impedance c :
  (1 < SIZE c)%Z -> fis_zero (imp0 c) = true -> (0 < maxTime c)%Z ->
  run c = (init c, Some ZeroDivisionError).
Proof.
  intros HN Hz HT. apply run_first_raise; [done |].
  apply time_step_zero; auto with py.
Qed.

(** C8.  When [maxTime <= 0] the loop body never runs: the program ends
    normally and prints nothing, whatever [SIZE] is. *)
Theorem run_no_iterations c :
  (maxTime c <= 0)%Z -> run c = (init c, None).
Proof. intros HT. unfold run. by rewrite py_range_nonpos. Qed.

(** Each successful iteration appends exactly one printed value and
    keeps both lists at [SIZE] cells; an iteration that raises leaves
    the state at its start. *)
Lemma time_loop_inv c qs s s' e :
  wf c s -> time_loop c qs s = (s', e) ->
  wf c s' /\ exists o, out s' = out s ++ o /\ (length o <= length qs)%nat.
Proof.
  revert s. induction qs as [|q qs IH]; intros s Hwf Hloop; simpl in Hloop.
  - injection Hloop as <- _. split; [done |]. exists []. by rewrite app_nil_r.
  - destruct (time_step c q s) as [s1|e1] eqn:Hts.
    + pose proof (time_step_Ok_inv c q s s1 Hwf Hts) as (_ & _ & ->).
      destruct (IH _ (spec_step_wf c q s Hwf) Hloop) as [Hwf' (o & Ho & Hlen)].
      split; [done |]. unfold spec_step in Ho; cbn [out] in Ho.
      eexists. split; [rewrite Ho, <- app_assoc; reflexivity |].
      rewrite length_app. simpl. lia.
    + injection Hloop as <- _. split; [done |]. exists []. split; [by rewrite app_nil_r | simpl; lia].
Qed.

(** A program whose first iteration succeeds has printed that
    iteration's value first, whatever happens later. *)
Lemma run_first_step c s1 :
  (0 < maxTime c)%Z -> time_step c 0 (init c) = Ok s1 ->
  forall s e, run c = (s, e) -> exists o, out s = out s1 ++ o.
Proof.
  intros HT Hts s e Hrun. unfold run, py_range in Hrun.
  destruct (Z.to_nat (maxTime c)) eqn:E; [lia |]. cbn [seq map time_loop] in Hrun.
  change (Z.of_nat 0) with 0%Z in Hrun. rewrite Hts in Hrun.
  destruct (time_loop_inv c _ s1 s e (time_step_wf c 0 _ _ (init_wf c) Hts) Hrun)
    as [_ (o & Ho & _)].
  eauto.
Qed.

(** A run prints at most [maxTime] values. *)
Lemma run_out_length c s e : run c = (s, e) -> (length (out s) <= Z.to_nat (maxTime c))%nat.
Proof.
  intros Hrun. destruct (time_loop_inv c _ _ s e (init_wf c) Hrun) as [_ (o & -> & Hlen)].
  rewrite length_py_range in Hlen. simpl. lia.
Qed.

End Model.

#[export] Hint Rewrite @length_hy_next @length_ez_next_bc @length_ez_next : py_len.
#[export] Hint Resolve init_wf spec_step_wf time_step_wf reachable_wf : py.

(** [reach_ind H] starts a rule induction on [H : reachable c q s] with
    the goal as the invariant and the iteration replaced by [spec_step]. *)
Ltac reach_ind H :=
  match type of H with
  | reachable ?c ?q ?s =>
      pattern q, s; revert H; revert q s; apply reachable_spec_ind; cbv beta
  end.

End FieldStepper.
