(* ===== verification/Causality.v ===== *)
(** * What the time loop guarantees about the fields it evolves

    Invariants of the states the time loop of [src/fdtd1d.py] reaches
    ([Fdtd.FieldStepper.reachable]), proved by rule induction over the
    leapfrog step [spec_step] that each iteration computes:
    - the last [hy] cell is never written and stays [0.0];
    - after an iteration, [ez[0]] holds the source of that iteration;
    - causality: after [q] iterations the fields vanish beyond cell [q]
      (one cell per step), hence the first 50 printed values are [0.0];
    - the [hy[-1]] wrap-around of line 20 has no effect on any state, nor
      on the whole run ([run_boundary_inert]).
    The quiet-cell facts of [PyFloat.QuietZero] are the only assumption on
    the arithmetic; they hold for IEEE doubles at every finite nonzero
    [imp0] ([IEEE.binary64_quiet]). *)

From Stdlib Require Import ZArith Lia.
From S2P Require Import Prelude PyList PyFloat Fdtd.
Import FieldStepper.

Section Causality.
Context {F : Type} `{PyFloat F}.
Local Open Scope pyfloat_scope.

(** ** Shared lemmas *)

Lemma ez_spec_step_0 c q s :
  (0 < length (ez s))%nat -> ez (spec_step c q s) !!! 0 = source q.
Proof.
  intros Hl. simpl. apply lookup_total_insert_0. py_lia.
Qed.

Lemma hy_next_last z e h :
  hy_next z e h !!! (length h - 1) = h !!! (length h - 1).
Proof. apply lookup_total_upd_upto_out. lia. Qed.

(** The cell left of cell 0 is only read by the write to [ez[0]], which
    the source overwrites. *)
Lemma insert_0_ez_next_bc z l1 l2 hy1 ez0 v :
  <[0:=v]> (ez_next_bc z l1 hy1 ez0) = <[0:=v]> (ez_next_bc z l2 hy1 ez0).
Proof. destruct ez0; reflexivity. Qed.

Lemma spec_step_bc_inert c left q s : spec_step_bc c left q s = spec_step c q s.
Proof.
  unfold spec_step, spec_step_bc, ez_next.
  apply (f_equal (fun e => mk_state e _ (out s ++ [e !!! 50]))).
  apply insert_0_ez_next_bc.
Qed.

Lemma spec_run_bc_inert c left : spec_run_bc c left = spec_run c.
Proof.
  unfold spec_run_bc, spec_run. generalize (init c).
  induction (py_range (maxTime c)) as [|q qs IH]; intros s; [done |].
  simpl. by rewrite spec_step_bc_inert.
Qed.

(** ** One step keeps the quiet region, one cell shorter *)

Section Quiet.
Context (z : F) {HQz : QuietZero z}.

Lemma hy_next_quiet q e h :
  (forall m, (q <= m)%nat -> e !!! m = f0) -> (forall m, (q <= S m)%nat -> h !!! m = f0) ->
  forall m, (q <= m)%nat -> hy_next z e h !!! m = f0.
Proof.
  intros He Hh m Hm. unfold hy_next.
  destruct (decide (m < length h - 1)%nat).
  - rewrite lookup_total_upd_upto_lt by lia. unfold hy_cell.
    rewrite Hh, !He by lia. apply quiet_hy.
  - rewrite lookup_total_upd_upto_out by lia. apply Hh. lia.
Qed.

Lemma ez_next_quiet q left h e :
  (forall m, (q <= m)%nat -> e !!! m = f0) -> (forall m, (q <= m)%nat -> h !!! m = f0) ->
  forall m, (S q <= m)%nat -> ez_next_bc z left h e !!! m = f0.
Proof.
  intros He Hh m Hm. unfold ez_next_bc.
  destruct (decide (m < length e)%nat).
  - rewrite lookup_total_upd_upto_lt by lia. unfold ez_cell.
    destruct m as [|k]; [lia |]. rewrite He, !Hh by lia. apply quiet_ez.
  - rewrite lookup_total_upd_upto_out by lia. apply He. lia.
Qed.

End Quiet.

Definition quiet_beyond (q : nat) (s : @state F) : Prop :=
  (forall m, (q <= m)%nat -> ez s !!! m = f0) /\
  (forall m, (q <= S m)%nat -> hy s !!! m = f0).

Lemma spec_step_quiet c q qt s {HQ : QuietZero (imp0 c)} :
  quiet_beyond q s -> quiet_beyond (S q) (spec_step c qt s).
Proof.
  intros [He Hh]. split; simpl.
  - intros m Hm. rewrite list_lookup_total_insert_ne by lia.
    apply (ez_next_quiet _ q); [done | | lia].
    intros k Hk. apply (hy_next_quiet _ q); auto.
  - intros m Hm. apply (hy_next_quiet _ q); auto with lia.
Qed.

Lemma reachable_quiet c q s {HQ : QuietZero (imp0 c)} :
  reachable c q s -> quiet_beyond (Z.to_nat q) s.
Proof.
  intros Hr0. reach_ind Hr0.
  - split; intros; apply py_repeat_f0.
  - intros q s _ _ Hq _ _ Hquiet.
    replace (Z.to_nat (q + 1)) with (S (Z.to_nat q)) by lia.
    by apply spec_step_quiet.
Qed.

(** The printed values of index below 50 are [0.0]. *)
Definition early_out_zero (s : @state F) : Prop :=
  forall j, (j < 50)%nat -> (j < length (out s))%nat -> out s !! j = Some f0.

Lemma reachable_early_out c q s {HQ : QuietZero (imp0 c)} :
  reachable c q s ->
  forall j, (j < 50)%nat -> (j < length (out s))%nat -> out s !! j = Some f0.
Proof.
  intros Hr0. reach_ind Hr0; [intros j ? ?; simpl in *; lia |].
  intros q s Hr _ _ _ _ IH j Hj Hlen. simpl in Hlen; simpl.
  rewrite length_app in Hlen; simpl in Hlen.
  destruct (decide (j < length (out s))%nat).
  - rewrite lookup_app_l by done. auto.
  - rewrite lookup_app_r by lia.
    replace (j - length (out s))%nat with 0%nat by lia. simpl. f_equal.
    pose proof (reachable_out c q s Hr).
    destruct (spec_step_quiet c (Z.to_nat q) q s (reachable_quiet c q s Hr)) as [Hez _].
    apply (Hez 50%nat). lia.
Qed.

(** ** Properties *)

(** C5.  Boundary freeze: the last cell [hy[SIZE-1]], which the magnetic
    loop [range(SIZE-1)] never writes, holds [0.0] in every reachable
    state. *)
Theorem boundary_frozen c q s :
  reachable c q s -> (0 < SIZE c)%Z -> hy s !! (Z.to_nat (SIZE c) - 1)%nat = Some f0.
Proof.
  intros Hr0 HN. reach_ind Hr0.
  - apply lookup_py_repeat. lia.
  - intros q s _ [_ Hh] _ _ _ IH. simpl. unfold hy_next.
    rewrite lookup_upd_upto_ge by lia. done.
Qed.

Lemma reachable_ez_0 c q s :
  reachable c q s -> (0 < q)%Z -> ez s !! 0%nat = Some (source (q - 1)).
Proof.
  intros Hr0. reach_ind Hr0; [lia |].
  intros q s _ [He _] _ HN _ _ _. simpl.
  rewrite list_lookup_insert_eq by py_lia.
  by replace (q + 1 - 1)%Z with q by lia.
Qed.

(** C6.  Hard source: after iteration [qTime], [ez[0]] holds
    [exp(-(qTime-30)^2/100)] whatever the electric update computed
    there. *)
Theorem source_overwrite c q s :
  reachable c q s -> (0 < q)%Z -> ez s !! 0%nat = Some (source (q - 1)).
Proof. exact (reachable_ez_0 c q s). Qed.

(** C7.  The wrap-around read [hy[mm - 1]] at [mm = 0] (line 20) is
    inert: the iteration computes the same state whatever value is taken
    as the neighbour left of cell 0 ([hy[-1]], [0.0], [hy[0]], ...),
    because [ez[0]] is overwritten by the source (line 23) before anything
    reads it. *)
Theorem wraparound_inert c q s (left : F) :
  wf c s -> (50 < SIZE c)%Z -> fis_zero (imp0 c) = false ->
  time_step c q s = Ok (spec_step_bc c left q s).
Proof.
  intros Hwf HN Hz. rewrite time_step_refines by done.
  by rewrite spec_step_bc_inert.
Qed.

(** C13.  The wrap-around is inert for the whole program: with more than
    50 cells and [imp0 <> 0.0] the script ends normally in the state that
    [maxTime] leapfrog steps reach with any value [left] as the neighbour
    left of cell 0; in particular it prints the same values as with a zero
    ([left = 0.0]) or a clamped boundary. *)
Theorem run_boundary_inert c (left : F) :
  (50 < SIZE c)%Z -> fis_zero (imp0 c) = false -> run c = (spec_run_bc c left, None).
Proof.
  intros HN Hz. rewrite spec_run_bc_inert. unfold run, spec_run.
  apply time_loop_spec; auto with py.
Qed.

End Causality.
