(* ===== verification/IEEE.v ===== *)
(** * The script as CPython runs it: IEEE-754 binary64 arithmetic

    [prim_pyfloat] implements [PyFloat] with Rocq's primitive floats,
    which are IEEE-754 binary64 with round-to-nearest-even, as CPython's
    [float] is.  [math.exp] calls the C library's [exp], whose last bit is
    not specified: it stays a parameter [libm_exp] of the instance, and
    every theorem here holds for all of them, or for all that meet the
    contract [LibmExp] of the C standard.  Python's [int / int] is
    CPython's [long_true_divide]: the exact quotient of the two integers
    rounded once to binary64 ([long_true_divide], through [SpecFloat]'s
    [SFdiv] on the exact integers), whatever their size.

    [fdtd1d] is the configuration of the script ([SIZE = 200],
    [imp0 = 377.0], [maxTime = 250]).  CPython's test before a float
    division, [y == 0.0], is IEEE equality [PrimFloat.eqb y 0.0], true for
    both zeros.  [binary64_quiet] derives [QuietZero] for every finite
    nonzero impedance from the [FloatAxioms] specifications of [div],
    [mul] and [add]; an infinite impedance yields NaN instead.
    The section [Source] shows, for every [exp] that meets [LibmExp],
    that the hard source stays in [[0.0, 1.0]] and peaks at exactly
    [1.0] after iteration 30.  [exp_approx] is a stand-in for the C
    library's [exp] (a Taylor polynomial, clamped to the contract), used
    only to run the model on concrete inputs. *)

From Stdlib Require Import ZArith Lia Floats Uint63.
From S2P Require Import Prelude PyList PyFloat Fdtd Causality.
Import FieldStepper.

(** A Python [int] as an exact, not yet rounded, binary value
    [+-n * 2^0]. *)
Definition int_sf (n : Z) : spec_float :=
  match n with
  | Z0 => S754_zero false
  | Zpos p => S754_finite false p 0
  | Zneg p => S754_finite true p 0
  end.

(** [a / b] on Python ints, CPython's [long_true_divide]
    (Objects/longobject.c): the quotient [a / b] rounded once to the
    nearest double, ties to even; a zero quotient is [-0.0] when exactly
    one operand is negative.  The fast path [(double)a / (double)b] for
    [|a|, |b| <= 2^53] and the exact path for larger integers both give
    this value.  A quotient beyond the largest double is an infinity here
    where CPython raises [OverflowError]. *)
Definition long_true_divide (a b : Z) : float :=
  SF2Prim (SpecFloat.SFdiv 53 1024 (int_sf a) (int_sf b)).

(** A finite float that is not [0.0] (nor [-0.0]) is a finite nonzero
    binary64 number [(-1)^s * m * 2^e]. *)
Lemma finite_nonzero_spec z :
  PrimFloat.is_finite z = true -> (z =? 0)%float = false ->
  exists s m e, Prim2SF z = S754_finite s m e.
Proof.
  unfold PrimFloat.is_finite, PrimFloat.is_nan, PrimFloat.is_infinity.
  rewrite !FloatAxioms.eqb_spec, abs_spec.
  change (Prim2SF 0.0) with (S754_zero false).
  change (Prim2SF infinity) with (S754_infinity false).
  destruct (Prim2SF z) as [[] | [] | | s m e]; simpl; try discriminate; eauto.
Qed.

Section Binary64.
Variable libm_exp : float -> float.

#[local] Instance prim_pyfloat : PyFloat float := {
  f0 := 0.0%float;
  fadd := PrimFloat.add;
  fsub := PrimFloat.sub;
  fmul := PrimFloat.mul;
  fdiv := PrimFloat.div;
  fis_zero y := PrimFloat.eqb y 0.0%float;
  fexp := libm_exp;
  ftruediv := long_true_divide
}.

(** Lines 4, 8, 9 of the script. *)
Definition fdtd1d : config := mk_config 200 377.0%float 250.

(** [0.0 + (0.0 - 0.0) / 377.0] and [0.0 + (0.0 - 0.0) * 377.0] are
    [+0.0] in binary64. *)
Lemma quiet_377 : QuietZero 377.0%float.
Proof. split; reflexivity. Qed.

(** For every finite nonzero [z]: [(0.0 - 0.0) / z] and [(0.0 - 0.0) * z]
    are signed zeros, and [0.0 + +-0.0] is [+0.0] under round to nearest. *)
Lemma binary64_quiet z :
  PrimFloat.is_finite z = true -> (z =? 0)%float = false -> QuietZero z.
Proof.
  intros Hf Hz. destruct (finite_nonzero_spec z Hf Hz) as (s & m & e & E).
  change (0.0 - 0.0)%float with 0.0%float.
  split; apply Prim2SF_inj; rewrite FloatAxioms.add_spec; [rewrite FloatAxioms.div_spec | rewrite FloatAxioms.mul_spec];
    rewrite E; change (Prim2SF 0) with (S754_zero false); by destruct s.
Qed.

(** C4.  Causality in binary64: for every impedance that is a finite
    float other than [0.0], and whatever the C library's [exp], after [q]
    iterations every [ez] cell of index at least [q] and every [hy] cell
    of index at least [q - 1] holds exactly [0.0]: the hard source at cell
    0 reaches at most one more cell per iteration.  (The condition on
    [imp0] is needed: with [imp0 = inf] the cells past 0 are NaN after one
    iteration, C14.) *)
Theorem binary64_light_cone c q s :
  PrimFloat.is_finite (imp0 c) = true -> (imp0 c =? 0)%float = false -> reachable c q s ->
  (forall m, (Z.to_nat q <= m)%nat -> ez s !!! m = 0.0%float) /\
  (forall m, (Z.to_nat q <= S m)%nat -> hy s !!! m = 0.0%float).
Proof. intros Hf Hz Hr. exact (reachable_quiet (HQ := binary64_quiet _ Hf Hz) c q s Hr). Qed.

(** With [imp0 = inf] the first magnetic update leaves [hy] at [0.0]:
    [(0.0 - 0.0) / inf = 0.0]. *)
Lemma hy_next_zeros_inf n m :
  hy_next infinity (py_repeat 0.0%float n) (py_repeat 0.0%float n) !!! m = 0.0%float.
Proof.
  unfold hy_next. destruct (decide (m < length (py_repeat 0.0%float n) - 1)%nat).
  - rewrite lookup_total_upd_upto_lt by lia. unfold hy_cell.
    change 0.0%float with (@f0 _ (prim_pyfloat)). rewrite !py_repeat_f0. reflexivity.
  - rewrite lookup_total_upd_upto_out by lia. apply (py_repeat_f0 (H := prim_pyfloat)).
Qed.

(** C14.  No stability guard for an infinite impedance: with more than 50
    cells, at least one iteration and [imp0 = inf], the program runs to
    completion without an exception, and the first value it prints is NaN
    ([0.0 + (0.0 - 0.0) * inf]): the IEEE special value propagates into
    the output instead of being detected. *)
Theorem infinite_impedance_nan c :
  (50 < SIZE c)%Z -> (0 < maxTime c)%Z -> imp0 c = infinity ->
  exists s, run c = (s, None) /\
            exists v, out s !! 0%nat = Some v /\ PrimFloat.is_nan v = true.
Proof.
  intros HN HT Hinf.
  assert (Hz : fis_zero (imp0 c) = false) by (rewrite Hinf; reflexivity).
  destruct (run_reach c HN Hz) as (s & Hrun & _). exists s. split; [done |].
  pose proof (time_step_refines c 0 (init c) (init_wf c) HN Hz) as Hts.
  destruct (run_first_step c _ HT Hts s None Hrun) as [o ->].
  eexists. split; [reflexivity |].
  unfold spec_step, ez_next, ez_next_bc. cbn [ez hy init]. rewrite Hinf.
  rewrite list_lookup_total_insert_ne by lia.
  rewrite lookup_total_upd_upto_lt by (rewrite length_py_repeat; lia).
  unfold ez_cell. rewrite !hy_next_zeros_inf.
  change 0.0%float with (@f0 _ (prim_pyfloat)). rewrite py_repeat_f0. reflexivity.
Qed.

(** C12.  Every usable configuration in binary64: with more than 50
    cells and an impedance that is a finite float other than [0.0], the
    program terminates normally, prints [maxTime] values, and the first 50
    of them are exactly [0.0], whatever the C library's [exp]. *)
Theorem binary64_early_silence c :
  (50 < SIZE c)%Z -> PrimFloat.is_finite (imp0 c) = true -> (imp0 c =? 0)%float = false ->
  exists s, run c = (s, None) /\ length (out s) = Z.to_nat (maxTime c) /\
            forall j, (j < 50)%nat -> (j < length (out s))%nat -> out s !! j = Some 0.0%float.
Proof.
  intros HN Hf Hz. assert (Hz' : fis_zero (imp0 c) = false) by exact Hz.
  destruct (run_reach c HN Hz') as (s & Hrun & Hr).
  exists s. split; [done |]. split; [by rewrite (reachable_out _ _ _ Hr), Nat2Z.id |].
  exact (reachable_early_out (HQ := binary64_quiet _ Hf Hz) c _ s Hr).
Qed.

End Binary64.

(** ** The C library's [exp] by its contract

    The C standard (Annex F.10.3.1) fixes [exp(+-0) = 1] and
    [exp(-inf) = +0]; glibc documents its [exp] as faithfully rounded
    (error below one unit in the last place), so for [x <= 0], where
    [e^x] lies in [(0, 1]], the result is a double of [[0, 1]] (both ends
    are doubles).  [LibmExp] states these two facts; the theorems of the
    section [Source] hold for every [exp] that meets them. *)
Class LibmExp (exp : float -> float) : Prop := {
  libm_exp_zero : exp 0%float = 1%float /\ exp (-0)%float = 1%float;
  libm_exp_unit : forall x, (x <=? 0)%float = true -> (0 <=? exp x)%float = true /\ (exp x <=? 1)%float = true
}.

(** The argument of [math.exp] on line 23,
    [-(qTime - 30) * (qTime - 30) / 100], is [<= 0] in binary64 for each
    [qTime] of [range(n)] from [q]: checked once by computation. *)
Fixpoint source_args_nonpos (n : nat) (q : Z) : bool :=
  match n with
  | O => true
  | S n' => (long_true_divide (- (q - 30) * (q - 30)) 100 <=? 0)%float &&
            source_args_nonpos n' (q + 1)
  end.

Lemma source_args_nonpos_spec n q0 q :
  source_args_nonpos n q0 = true -> (q0 <= q < q0 + Z.of_nat n)%Z ->
  (long_true_divide (- (q - 30) * (q - 30)) 100 <=? 0)%float = true.
Proof.
  revert q0. induction n as [|n IH]; intros q0 Hs Hq; [lia |].
  cbn [source_args_nonpos] in Hs. apply andb_prop in Hs as [Hh Ht].
  destruct (Z.eq_dec q q0) as [-> | Hne]; [exact Hh |]. apply (IH (q0 + 1)%Z Ht). lia.
Qed.

Local Set Warnings "-abstract-large-number".
Lemma source_args_10000 : source_args_nonpos 10000 0 = true.
Proof. vm_compute. reflexivity. Qed.

Section Source.
Variable libm_exp : float -> float.
Context `{!LibmExp libm_exp}.
#[local] Instance binary64_src : PyFloat float := prim_pyfloat libm_exp.

(** C19.  The hard source stays in the unit interval: in binary64, for
    every [exp] that meets its C contract, after each of the first ten
    thousand iterations [ez[0]] holds a float [v] with
    [0.0 <= v <= 1.0]. *)
Theorem source_unit_interval c q s :
  reachable c q s -> (0 < q <= 10000)%Z ->
  exists v, ez s !! 0%nat = Some v /\ (0 <=? v)%float = true /\ (v <=? 1)%float = true.
Proof.
  intros Hr Hq. exists (source (q - 1)). split; [exact (reachable_ez_0 c q s Hr ltac:(lia)) |].
  change (source (q - 1)) with
    (libm_exp (long_true_divide (- (q - 1 - 30) * (q - 1 - 30)) 100)).
  apply libm_exp_unit. apply (source_args_nonpos_spec 10000 0); [exact source_args_10000 |].
  replace (Z.of_nat 10000) with 10000%Z by reflexivity. lia.
Qed.

(** C20.  The pulse peaks at exactly [1.0]: after iteration
    [qTime = 30], [ez[0]] is [math.exp(0 / 100) = math.exp(0.0) = 1.0]. *)
Theorem source_peak c s : reachable c 31 s -> ez s !! 0%nat = Some 1%float.
Proof.
  intros Hr. rewrite (reachable_ez_0 c 31 s Hr ltac:(lia)).
  unfold source. cbn [fexp ftruediv binary64_src prim_pyfloat].
  replace (long_true_divide _ _) with 0%float by (vm_compute; reflexivity).
  f_equal. apply libm_exp_zero.
Qed.

End Source.

(** ** A stand-in for [math.exp] to run the model

    [exp(x) = (exp(x / 1024))^1024], the inner exponential by its Taylor
    polynomial of degree 12. *)
Fixpoint taylor_exp (n : nat) (r term acc k : float) : float :=
  match n with
  | O => acc
  | S n' => let term' := (term * r / k)%float in taylor_exp n' r term' (acc + term')%float (k + 1)%float
  end.

Fixpoint square_n (n : nat) (x : float) : float :=
  match n with O => x | S n' => square_n n' (x * x)%float end.

(** Clamped to [[0, 1]] for [x <= 0], as the C library's [exp] is
    ([LibmExp]). *)
Definition exp_approx (x : float) : float :=
  let y := square_n 10 (taylor_exp 12 (x / 1024)%float 1%float 1%float 1%float) in
  if (x <=? 0)%float then
    (if (0 <=? y)%float && (y <=? 1)%float then y else if (1 <? y)%float then 1%float else 0%float)
  else y.

#[export] Instance libm_exp_approx : LibmExp exp_approx.
Proof.
  split; [split; vm_compute; reflexivity |].
  intros x Hx. unfold exp_approx. rewrite Hx.
  set (y := square_n 10 _).
  destruct (0 <=? y)%float eqn:H0, (y <=? 1)%float eqn:H1; cbn [andb]; [split; assumption | ..];
    destruct (1 <? y)%float; split; reflexivity.
Qed.

#[local] Existing Instance prim_pyfloat.

(** ** The properties at concrete inputs *)

Definition demo_ops : PyFloat float := prim_pyfloat exp_approx.
#[local] Existing Instance demo_ops.

(** 60 cells, three iterations. *)
Definition c_demo : config := mk_config 60 377.0%float 3.
(** The spec's error scenario: 40 cells, 10 iterations. *)
Definition c_small : config := mk_config 40 377.0%float 10.
(** 40 cells and no iteration. *)
Definition c_none : config := mk_config 40 377.0%float 0.
(** Zero impedance. *)
Definition c_zero : config := mk_config 60 0.0%float 1.
(** Infinite impedance. *)
Definition c_inf : config := mk_config 60 infinity 2.

Definition s_demo1 : state := spec_step c_demo 0 (init c_demo).

Lemma wf_demo : wf c_demo (init c_demo).
Proof. split; reflexivity. Qed.

Lemma reach_demo1 : reachable c_demo 1 s_demo1.
Proof.
  apply (reach_step c_demo 0 (init c_demo)); [apply reach_init | reflexivity |].
  vm_compute. reflexivity.
Qed.

Lemma time_step_correct_witness :
  wf c_demo (init c_demo) /\
  time_step c_demo 0 (init c_demo) =
  if (1 <? SIZE c_demo)%Z && fis_zero (imp0 c_demo) then Raise ZeroDivisionError
  else if (50 <? SIZE c_demo)%Z then Ok (spec_step c_demo 0 (init c_demo)) else Raise IndexError.
Proof.
  assert (Hwf : wf c_demo (init c_demo)) by (split; reflexivity).
  split; [exact Hwf | exact (time_step_correct c_demo 0 (init c_demo) Hwf)].
Defined.

Lemma run_terminates_witness :
  (50 < SIZE c_demo)%Z /\ fis_zero (imp0 c_demo) = false /\
  exists s, run c_demo = (s, None) /\ length (out s) = Z.to_nat (maxTime c_demo).
Proof.
  assert (HN : (50 < SIZE c_demo)%Z) by (vm_compute; reflexivity).
  assert (Hz : fis_zero (imp0 c_demo) = false) by reflexivity.
  split; [exact HN | split; [exact Hz | exact (run_terminates c_demo HN Hz)]].
Defined.

Lemma run_index_error_witness :
  (SIZE c_small <= 50)%Z /\ (0 < maxTime c_small)%Z /\ divides_ok c_small /\
  run c_small = (init c_small, Some IndexError).
Proof.
  assert (HN : (SIZE c_small <= 50)%Z) by (vm_compute; discriminate).
  assert (HT : (0 < maxTime c_small)%Z) by (vm_compute; reflexivity).
  assert (Hdiv : divides_ok c_small) by (right; reflexivity).
  split; [exact HN | split; [exact HT | split; [exact Hdiv |]]].
  exact (run_index_error c_small HN HT Hdiv).
Defined.

Lemma run_zero_impedance_witness :
  (1 < SIZE c_zero)%Z /\ fis_zero (imp0 c_zero) = true /\ (0 < maxTime c_zero)%Z /\
  run c_zero = (init c_zero, Some ZeroDivisionError).
Proof.
  assert (HN : (1 < SIZE c_zero)%Z) by (vm_compute; reflexivity).
  assert (Hz : fis_zero (imp0 c_zero) = true) by reflexivity.
  assert (HT : (0 < maxTime c_zero)%Z) by (vm_compute; reflexivity).
  split; [exact HN | split; [exact Hz | split; [exact HT |]]].
  exact (run_zero_impedance c_zero HN Hz HT).
Defined.

Lemma binary64_light_cone_witness :
  PrimFloat.is_finite (imp0 c_demo) = true /\ (imp0 c_demo =? 0)%float = false /\
  reachable c_demo 1 s_demo1 /\ ez s_demo1 !!! 1 = 0.0%float /\ hy s_demo1 !!! 0 = 0.0%float.
Proof.
  assert (Hf : PrimFloat.is_finite (imp0 c_demo) = true) by reflexivity.
  assert (Hz : (imp0 c_demo =? 0)%float = false) by reflexivity.
  pose proof (binary64_light_cone exp_approx c_demo 1 s_demo1 Hf Hz reach_demo1) as [Hez Hhy].
  split; [exact Hf | split; [exact Hz | split; [exact reach_demo1 |]]].
  split; [apply Hez; vm_compute; lia | apply Hhy; vm_compute; lia].
Defined.

Lemma boundary_frozen_witness :
  reachable c_demo 1 s_demo1 /\ (0 < SIZE c_demo)%Z /\
  hy s_demo1 !! (Z.to_nat (SIZE c_demo) - 1)%nat = Some 0.0%float.
Proof.
  assert (HN : (0 < SIZE c_demo)%Z) by (vm_compute; reflexivity).
  split; [exact reach_demo1 | split; [exact HN |]].
  exact (boundary_frozen c_demo 1 s_demo1 reach_demo1 HN).
Defined.

Lemma source_overwrite_witness :
  reachable c_demo 1 s_demo1 /\ ez s_demo1 !! 0%nat = Some (source (1 - 1)).
Proof.
  split; [exact reach_demo1 |].
  apply (source_overwrite c_demo 1 s_demo1 reach_demo1). lia.
Defined.

Lemma wraparound_inert_witness :
  wf c_demo (init c_demo) /\ (50 < SIZE c_demo)%Z /\ fis_zero (imp0 c_demo) = false /\
  time_step c_demo 0 (init c_demo) = Ok (spec_step_bc c_demo 0.0%float 0 (init c_demo)).
Proof.
  assert (HN : (50 < SIZE c_demo)%Z) by (vm_compute; reflexivity).
  assert (Hz : fis_zero (imp0 c_demo) = false) by reflexivity.
  split; [exact wf_demo | split; [exact HN | split; [exact Hz |]]].
  exact (wraparound_inert c_demo 0 (init c_demo) 0.0%float wf_demo HN Hz).
Defined.

Lemma run_no_iterations_witness :
  (maxTime c_none <= 0)%Z /\ run c_none = (init c_none, None).
Proof.
  assert (HT : (maxTime c_none <= 0)%Z) by (vm_compute; discriminate).
  split; [exact HT | exact (run_no_iterations c_none HT)].
Defined.

Lemma run_refines_witness :
  (50 < SIZE c_demo)%Z /\ fis_zero (imp0 c_demo) = false /\
  run c_demo = (spec_run c_demo, None).
Proof.
  assert (HN : (50 < SIZE c_demo)%Z) by (vm_compute; reflexivity).
  assert (Hz : fis_zero (imp0 c_demo) = false) by reflexivity.
  split; [exact HN | split; [exact Hz | exact (run_refines c_demo HN Hz)]].
Defined.

Lemma reachable_lengths_witness :
  reachable c_demo 1 s_demo1 /\
  length (ez s_demo1) = Z.to_nat (SIZE c_demo) /\ length (hy s_demo1) = Z.to_nat (SIZE c_demo) /\
  length (out s_demo1) = Z.to_nat 1.
Proof. split; [exact reach_demo1 | exact (reachable_lengths c_demo 1 s_demo1 reach_demo1)]. Defined.

Lemma binary64_early_silence_witness :
  (50 < SIZE c_demo)%Z /\ PrimFloat.is_finite (imp0 c_demo) = true /\
  (imp0 c_demo =? 0)%float = false /\
  exists s, run c_demo = (s, None) /\ length (out s) = Z.to_nat (maxTime c_demo) /\
            forall j, (j < 50)%nat -> (j < length (out s))%nat -> out s !! j = Some 0.0%float.
Proof.
  assert (HN : (50 < SIZE c_demo)%Z) by (vm_compute; reflexivity).
  assert (Hf : PrimFloat.is_finite (imp0 c_demo) = true) by reflexivity.
  assert (Hz : (imp0 c_demo =? 0)%float = false) by reflexivity.
  split; [exact HN | split; [exact Hf | split; [exact Hz |]]].
  exact (binary64_early_silence exp_approx c_demo HN Hf Hz).
Defined.

Lemma run_boundary_inert_witness :
  (50 < SIZE c_demo)%Z /\ fis_zero (imp0 c_demo) = false /\
  run c_demo = (spec_run_bc c_demo 0.0%float, None).
Proof.
  assert (HN : (50 < SIZE c_demo)%Z) by (vm_compute; reflexivity).
  assert (Hz : fis_zero (imp0 c_demo) = false) by reflexivity.
  split; [exact HN | split; [exact Hz | exact (run_boundary_inert c_demo 0.0%float HN Hz)]].
Defined.

Lemma infinite_impedance_nan_witness :
  (50 < SIZE c_inf)%Z /\ (0 < maxTime c_inf)%Z /\ imp0 c_inf = infinity /\
  exists s, run c_inf = (s, None) /\
            exists v, out s !! 0%nat = Some v /\ PrimFloat.is_nan v = true.
Proof.
  assert (HN : (50 < SIZE c_inf)%Z) by (vm_compute; reflexivity).
  assert (HT : (0 < maxTime c_inf)%Z) by (vm_compute; reflexivity).
  assert (Hinf : imp0 c_inf = infinity) by reflexivity.
  split; [exact HN | split; [exact HT | split; [exact Hinf |]]].
  exact (infinite_impedance_nan exp_approx c_inf HN HT Hinf).
Defined.

(** 51 cells, 31 iterations: the last one is [qTime = 30]. *)
Definition c_31 : config := mk_config 51 377.0%float 31.

Lemma source_unit_interval_witness :
  reachable c_demo 1 s_demo1 /\ (0 < 1 <= 10000)%Z /\
  exists v, ez s_demo1 !! 0%nat = Some v /\ (0 <=? v)%float = true /\ (v <=? 1)%float = true.
Proof.
  split; [exact reach_demo1 | split; [lia |]].
  exact (source_unit_interval exp_approx c_demo 1 s_demo1 reach_demo1 ltac:(lia)).
Defined.

Lemma source_peak_witness : exists s, reachable c_31 31 s /\ ez s !! 0%nat = Some 1%float.
Proof.
  destruct (run_reach c_31) as (s & _ & Hr); [reflexivity | reflexivity |].
  exists s. split; [exact Hr | exact (source_peak exp_approx c_31 s Hr)].
Defined.
