(* ===== verification/Dtoa.v ===== *)
(** * CPython's shortest float-to-decimal conversion ([_Py_dg_dtoa], mode 0)

    [print(ez[50])] (line 25 of [src/fdtd1d.py]) writes [repr(x)], which
    CPython builds in two steps: David Gay's [_Py_dg_dtoa] in mode 0
    (Python/dtoa.c) returns the shortest string of decimal digits that
    reads back as [x] (round to nearest, ties to even) and the position of
    its decimal point; [format_float_short] (Python/pystrtod.c, file
    [Repr]) lays them out.  This file models the first step on the exact
    value [x = m * 2^e] of a finite nonzero double ([Prim2SF] gives [m] and
    [e]), with integer arithmetic only, as dtoa itself does:
    - [rounds_to d q m e] is dtoa's acceptance test: [d * 10^q] lies in
      the rounding interval of [x], the half gaps to its neighbours,
      closed when [m] is even (the [mlo]/[mhi] comparisons of the digit
      loop, [narrow_below] the power-of-two case [spec_case]);
    - [dec_exp] is dtoa's decimal exponent [k]: [10^k <= x < 10^(k+1)];
    - [candidate m e k] tries the two [k]-digit neighbours of [x] (the
      truncated digits and one more unit in the last place), keeping the
      nearer when both read back, the even last digit on a tie;
    - [shortest_from] tries [k = 1, 2, ..., 17] and [strip_zeros] removes
      trailing zeros, so [dtoa_core m e = (t, q)] means the digits of [t]
      with [x ~ t * 10^q].
    The theorems: 17 digits always suffice ([candidate_17]), so the search
    never falls through; the result reads back as [x] ([dtoa_core_rounds]);
    no decimal with fewer significant digits does ([dtoa_core_shortest]).
    "Reads back" is IEEE round to nearest, ties to even: a double above
    [x] is at least the next one ([binary64_succ]), a double below at most
    the previous one ([binary64_pred], with the narrow gap below a power
    of two), so a decimal that [rounds_to] accepts is nearer to [x] than
    to any other finite double, or tied and [m] even
    ([rounds_to_nearest], [rounds_to_near_self]); the intervals of two
    distinct doubles are disjoint ([rounds_to_unique]), where they touch
    one of the two significands being odd ([rounds_to_gap]).
    The real-number semantics [dval] and [bval] of the integer comparisons
    ([cmp10_2_spec]) carries the proofs; [log_check_range] checks, by
    computation, the [log10 2] estimate of [dec_exp] over every binary
    exponent of a double: a table near zero ([log_check_mid]) and, beyond
    it, two passes that carry the powers of 2 and 10 from one exponent to
    the next ([scan_up], [scan_down]). *)

From Stdlib Require Import ZArith Lia Reals Lra List Floats.
Local Open Scope R_scope.
Local Open Scope bool_scope.

(** ** Definitions *)

(** [d * 10^q] compared with [v * 2^f], both sides multiplied by the
    powers that make them integers (dtoa compares big integers the same
    way).  The power of two comes first, which makes each product linear
    in the size of the numbers. *)
Definition cmp10_2 (d q v f : Z) : comparison :=
  Z.compare (2 ^ Z.max (- f) 0 * (d * 10 ^ Z.max q 0)) (2 ^ Z.max f 0 * (v * 10 ^ Z.max (- q) 0)).

(** The values the comparisons are about: the decimal [d * 10^q] and
    the binary [v * 2^f]. *)
Definition dval (d q : Z) : R := IZR d * powerRZ 10 q.

Definition bval (v f : Z) : R := IZR v * powerRZ 2 f.

(** [floor(m * 2^e / 10^q)]: the digits of [x] down to the place [10^q]. *)
Definition floor_div10 (m e q : Z) : Z :=
  (m * 2 ^ Z.max e 0 * 10 ^ Z.max (- q) 0) / (2 ^ Z.max (- e) 0 * 10 ^ Z.max q 0).

(** The exponent of the subnormal doubles, [SpecFloat.emin 53 1024]. *)
Definition emin : Z := (-1074)%Z.

(** The gap below [x] is half the gap above exactly when [x] is a power
    of two above the smallest normal double (dtoa's [spec_case]). *)
Definition narrow_below (m e : Z) : bool := (m =? 2 ^ 52)%Z && (emin <? e)%Z.

(** The lower half gap of [x] in units of [2^(e-2)]; the upper one is [2]. *)
Definition gap_below (m e : Z) : Z := if narrow_below m e then 1 else 2.

(** [d * 10^q] reads back as [m * 2^e] under round to nearest, ties to
    even: it lies strictly inside the rounding interval
    [((4m - gap_below) * 2^(e-2), (4m + 2) * 2^(e-2))], or on its bounds
    when [m] is even. *)
Definition rounds_to (d q m e : Z) : bool :=
  match cmp10_2 d q (4 * m - gap_below m e) (e - 2) with Gt => true | Eq => Z.even m | Lt => false end &&
  match cmp10_2 d q (4 * m + 2) (e - 2) with Lt => true | Eq => Z.even m | Gt => false end.

(** [D] lies between [lo] and [hi], the bounds included when [closed]. *)
Definition within (lo hi D : R) (closed : bool) : Prop :=
  (lo < D \/ (lo = D /\ closed = true)) /\ (D < hi \/ (D = hi /\ closed = true)).

(** [floor(L * log10 2)] by the fixed-point constant [78913 / 2^18]. *)
Definition log10_2_floor (L : Z) : Z := (L * 78913 / 262144)%Z.

(** The estimate is within one of the decimal exponent of [2^L]:
    [10^E0 <= 2^L] and [2^(L+1) <= 10^(E0+2)]. *)
Definition log_check (L : Z) : bool :=
  let E0 := log10_2_floor L in
  match cmp10_2 1 E0 1 L with Gt => false | _ => true end &&
  match cmp10_2 1 (E0 + 2) 1 (L + 1) with Lt => false | _ => true end.

(** The same check far from zero, in one pass that carries the powers
    instead of recomputing them: upward from [L] with [A = 2^L] and
    [T = 10^E0], downward with [B = 2^-L] and [U = 10^-E0]. *)
Fixpoint scan_up (n : nat) (L A E T : Z) : bool :=
  match n with
  | O => true
  | S n' =>
      let E' := log10_2_floor (L + 1) in
      ((T <=? A) && (2 * A <=? 100 * T) && ((E' =? E) || (E' =? E + 1)) &&
       scan_up n' (L + 1) (2 * A) E' (if E' =? E then T else 10 * T))%Z
  end.

Fixpoint scan_down (n : nat) (L B E U : Z) : bool :=
  match n with
  | O => true
  | S n' =>
      let E' := log10_2_floor (L - 1) in
      ((B <=? U) && (2 * U <=? 100 * B) && ((E' =? E) || (E' =? E - 1)) &&
       scan_down n' (L - 1) (2 * B) E' (if E' =? E then U else 10 * U))%Z
  end.

(** dtoa's [k]: the decimal exponent of [x = m * 2^e], the estimate
    corrected by one comparison. *)
Definition dec_exp (m e : Z) : Z :=
  let E0 := log10_2_floor (Z.log2 m + e) in
  match cmp10_2 1 (E0 + 1) m e with Gt => E0 | _ => (E0 + 1)%Z end.

(** [m * 2^e] is a finite nonzero double in [SpecFloat]'s canonical form. *)
Record binary64_finite (m e : Z) : Prop := {
  bf_m_pos : (1 <= m)%Z;
  bf_m_lt : (m < 2 ^ 53)%Z;
  bf_e_lo : (emin <= e)%Z;
  bf_e_hi : (e <= 971)%Z;
  bf_normal : (emin < e)%Z -> (2 ^ 52 <= m)%Z
}.

(** Digit position [k] of dtoa's loop: [x] is between [t * 10^q] and
    [(t + 1) * 10^q]; keep the one that reads back as [x], the nearer if
    both do, the even one on a tie ([dig & 1] bumps up). *)
Definition candidate (m e k : Z) : option (Z * Z) :=
  let q := (dec_exp m e - k + 1)%Z in
  let t := floor_div10 m e q in
  let lo_ok := rounds_to t q m e in
  let hi_ok := rounds_to (t + 1) q m e in
  if lo_ok && hi_ok then
    match cmp10_2 (2 * t + 1) q m (e + 1) with
    | Gt => Some (t, q)
    | Lt => Some ((t + 1)%Z, q)
    | Eq => if Z.even t then Some (t, q) else Some ((t + 1)%Z, q)
    end
  else if lo_ok then Some (t, q)
  else if hi_ok then Some ((t + 1)%Z, q)
  else None.

(** Try [k, k + 1, ...] significant digits, at most [fuel] times. *)
Fixpoint shortest_from (m e k : Z) (fuel : nat) : option (Z * Z) :=
  match fuel with
  | O => None
  | S f => match candidate m e k with Some r => Some r | None => shortest_from m e (k + 1) f end
  end.

(** dtoa suppresses trailing zeros: [t * 10^q] with [t mod 10 <> 0]. *)
Fixpoint strip_zeros (fuel : nat) (t q : Z) : Z * Z :=
  match fuel with
  | O => (t, q)
  | S f => if (0 <? t)%Z && (t mod 10 =? 0)%Z then strip_zeros f (t / 10) (q + 1) else (t, q)
  end.

(** [_Py_dg_dtoa(x, 0, 0, ...)] for [x = m * 2^e]: the shortest digits
    [t] and their scale [q].  The fallback after 17 digits is never
    taken ([candidate_17]). *)
Definition dtoa_core (m e : Z) : Z * Z :=
  let '(t, q) := match shortest_from m e 1 17 with
                 | Some r => r
                 | None => (floor_div10 m e (dec_exp m e - 16), (dec_exp m e - 16)%Z)
                 end in
  strip_zeros 20 t q.

(** ** Real-number semantics of the integer comparisons *)

Lemma IZR_pow b n : (0 <= n)%Z -> IZR (b ^ n) = powerRZ (IZR b) n.
Proof.
  intros Hn. destruct n as [|p|p]; [reflexivity | apply Zpower_pos_powerRZ | lia].
Qed.

Lemma powerRZ_max r z : r <> 0 -> powerRZ r z * powerRZ r (Z.max (- z) 0) = powerRZ r (Z.max z 0).
Proof. intros Hr. rewrite <- powerRZ_add by assumption. f_equal. lia. Qed.

Lemma cmp10_2_spec d q v f :
  CompareSpec (dval d q = bval v f) (dval d q < bval v f) (bval v f < dval d q) (cmp10_2 d q v f).
Proof.
  set (K := powerRZ 10 (Z.max (- q) 0) * powerRZ 2 (Z.max (- f) 0)).
  assert (HK : 0 < K) by (apply Rmult_lt_0_compat; apply powerRZ_lt; lra).
  assert (Hl : dval d q * K = IZR (2 ^ Z.max (- f) 0 * (d * 10 ^ Z.max q 0))).
  { unfold dval, K. rewrite !mult_IZR, !IZR_pow by lia.
    rewrite <- (powerRZ_max 10 q) by lra. ring. }
  assert (Hr : bval v f * K = IZR (2 ^ Z.max f 0 * (v * 10 ^ Z.max (- q) 0))).
  { unfold bval, K. rewrite !mult_IZR, !IZR_pow by lia.
    rewrite <- (powerRZ_max 2 f) by lra. ring. }
  unfold cmp10_2. destruct (Z.compare_spec (2 ^ Z.max (- f) 0 * (d * 10 ^ Z.max q 0))
                                          (2 ^ Z.max f 0 * (v * 10 ^ Z.max (- q) 0))) as [E|E|E];
    constructor.
  - apply (Rmult_eq_reg_r K); [| lra]. rewrite Hl, Hr. now rewrite E.
  - apply (Rmult_lt_reg_r K); [assumption |]. rewrite Hl, Hr. now apply IZR_lt.
  - apply (Rmult_lt_reg_r K); [assumption |]. rewrite Hl, Hr. now apply IZR_lt.
Qed.

Lemma cmp10_2_le d q v f : cmp10_2 d q v f <> Gt <-> dval d q <= bval v f.
Proof. destruct (cmp10_2_spec d q v f); split; intros; try lra; congruence. Qed.

Lemma cmp10_2_Lt d q v f : cmp10_2 d q v f = Lt <-> dval d q < bval v f.
Proof. destruct (cmp10_2_spec d q v f); split; intros; try lra; congruence. Qed.

Lemma cmp10_2_Gt d q v f : cmp10_2 d q v f = Gt <-> bval v f < dval d q.
Proof. destruct (cmp10_2_spec d q v f); split; intros; try lra; congruence. Qed.

Lemma floor_div10_spec m e q :
  dval (floor_div10 m e q) q <= bval m e < dval (floor_div10 m e q + 1) q.
Proof.
  set (A := (m * 2 ^ Z.max e 0 * 10 ^ Z.max (- q) 0)%Z).
  set (B := (2 ^ Z.max (- e) 0 * 10 ^ Z.max q 0)%Z).
  assert (HB : (0 < B)%Z) by (subst B; apply Z.mul_pos_pos; apply Z.pow_pos_nonneg; lia).
  pose proof (Z.mul_div_le A B HB). pose proof (Z.mul_succ_div_gt A B HB).
  assert (E1 : forall t, (2 ^ Z.max (- e) 0 * (t * 10 ^ Z.max q 0) = B * t)%Z) by (intros; unfold B; ring).
  assert (E2 : (2 ^ Z.max e 0 * (m * 10 ^ Z.max (- q) 0) = A)%Z) by (unfold A; ring).
  unfold floor_div10. fold A B. split.
  - apply cmp10_2_le. unfold cmp10_2. apply Z.compare_le_iff. rewrite E1, E2. exact H.
  - apply cmp10_2_Gt. unfold cmp10_2. apply Z.compare_gt_iff. rewrite E1, E2. lia.
Qed.

Lemma within_convex lo hi D1 D2 D3 c :
  within lo hi D1 c -> within lo hi D3 c -> D1 <= D2 <= D3 -> within lo hi D2 c.
Proof.
  unfold within. intros [Hl1 _] [_ Hh3] [H12 H23]. split.
  - destruct (Rlt_or_le lo D2); [now left |]. right.
    destruct Hl1 as [? | [? ?]]; [lra |]. split; [lra | assumption].
  - destruct (Rlt_or_le D2 hi); [now left |]. right.
    destruct Hh3 as [? | [? ?]]; [lra |]. split; [lra | assumption].
Qed.

Lemma bval_shift v f : bval v f = bval (4 * v) (f - 2).
Proof.
  unfold bval. rewrite mult_IZR.
  replace f with ((f - 2) + 2)%Z at 1 by lia. rewrite powerRZ_add by lra. simpl. lra.
Qed.

Lemma bval_lt v w f : (v < w)%Z -> bval v f < bval w f.
Proof. intros H. unfold bval. apply Rmult_lt_compat_r; [apply powerRZ_lt; lra | now apply IZR_lt]. Qed.

Lemma rounds_to_spec d q m e :
  rounds_to d q m e = true <->
  within (bval (4 * m - gap_below m e) (e - 2)) (bval (4 * m + 2) (e - 2)) (dval d q) (Z.even m).
Proof.
  assert (Hlh : bval (4 * m - gap_below m e) (e - 2) < bval (4 * m + 2) (e - 2))
    by (apply bval_lt; unfold gap_below; destruct (narrow_below m e); lia).
  unfold rounds_to, within.
  destruct (cmp10_2_spec d q (4 * m - gap_below m e) (e - 2)),
           (cmp10_2_spec d q (4 * m + 2) (e - 2)), (Z.even m); cbn [andb];
    split.
  all: try (intros Hb; try discriminate; split; first [left; lra | right; split; [lra | reflexivity]]).
  all: intros [[?|[? ?]] [?|[? ?]]]; first [reflexivity | lra | discriminate].
Qed.

(** [m * 2^e] itself lies strictly inside its rounding interval. *)

Lemma within_self m e :
  bval (4 * m - gap_below m e) (e - 2) < bval m e < bval (4 * m + 2) (e - 2).
Proof.
  rewrite (bval_shift m e). unfold gap_below.
  split; apply bval_lt; destruct (narrow_below m e); lia.
Qed.

(** ** The decimal exponent *)

Lemma log_check_mid :
  forallb log_check (map (fun n => Z.of_nat n - 100)%Z (seq 0 201)) = true.
Proof. vm_compute. reflexivity. Qed.

Lemma log_check_all :
  scan_up 924 100 (2 ^ 100) (log10_2_floor 100) (10 ^ log10_2_floor 100) = true /\
  scan_down 975 (-100) (2 ^ 100) (log10_2_floor (-100)) (10 ^ (- log10_2_floor (-100))) = true.
Proof. split; vm_compute; reflexivity. Qed.

Ltac compare_cases :=
  repeat match goal with |- context [Z.compare ?a ?b] => destruct (Z.compare_spec a b) end;
  first [reflexivity | lia].

Lemma log_check_up L :
  (100 <= L)%Z -> (10 ^ log10_2_floor L <= 2 ^ L)%Z ->
  (2 * 2 ^ L <= 100 * 10 ^ log10_2_floor L)%Z -> log_check L = true.
Proof.
  unfold log_check, cmp10_2. set (E := log10_2_floor L). intros HL H1 H2.
  assert (HE : (0 <= E)%Z) by (apply Z.div_pos; lia).
  rewrite (Z.max_r (- L)), (Z.max_l L), (Z.max_l E), (Z.max_r (- E)), (Z.max_r (- (L + 1))),
    (Z.max_l (L + 1)), (Z.max_l (E + 2)), (Z.max_r (- (E + 2))), !Z.pow_0_r by lia.
  rewrite (Z.pow_add_r 2 L 1), (Z.pow_add_r 10 E 2) by lia. compare_cases.
Qed.

Lemma log_check_down L :
  (L <= -100)%Z -> (2 ^ (- L) <= 10 ^ (- log10_2_floor L))%Z ->
  (2 * 10 ^ (- log10_2_floor L) <= 100 * 2 ^ (- L))%Z -> log_check L = true.
Proof.
  unfold log_check, cmp10_2. set (E := log10_2_floor L). intros HL H1 H2.
  assert (HE : (E <= -31)%Z).
  { pose proof (Z.mul_div_le (L * 78913) 262144 ltac:(lia)). unfold E, log10_2_floor. lia. }
  rewrite (Z.max_l (- L)), (Z.max_r L), (Z.max_r E), (Z.max_l (- E)), (Z.max_l (- (L + 1))),
    (Z.max_r (L + 1)), (Z.max_r (E + 2)), (Z.max_l (- (E + 2))), !Z.pow_0_r by lia.
  replace (- L)%Z with (- (L + 1) + 1)%Z in * by lia.
  replace (- E)%Z with (- (E + 2) + 2)%Z in * by lia.
  rewrite !Z.pow_add_r in * by lia. compare_cases.
Qed.

Lemma scan_up_spec n : forall L E,
  (100 <= L)%Z -> E = log10_2_floor L -> scan_up n L (2 ^ L) E (10 ^ E) = true ->
  forall i, (i < n)%nat -> log_check (L + Z.of_nat i) = true.
Proof.
  induction n as [|n IH]; intros L E HL HE Hs i Hi; [lia |].
  assert (HE0 : (0 <= E)%Z) by (subst E; apply Z.div_pos; lia).
  cbn [scan_up] in Hs. rewrite !Bool.andb_true_iff, !Z.leb_le, Bool.orb_true_iff, !Z.eqb_eq in Hs.
  destruct Hs as [[[H1 H2] H3] H4]. destruct i as [|i].
  - rewrite Z.add_0_r. subst E. now apply log_check_up.
  - replace (L + Z.of_nat (S i))%Z with (L + 1 + Z.of_nat i)%Z by lia.
    apply (IH (L + 1)%Z (log10_2_floor (L + 1))); [lia | reflexivity | | lia].
    rewrite (Z.pow_add_r 2 L 1), Z.pow_1_r, Z.mul_comm by lia.
    destruct H3 as [H3 | H3]; rewrite H3 in H4 |- *.
    + now rewrite Z.eqb_refl in H4.
    + rewrite (proj2 (Z.eqb_neq (E + 1) E)) in H4 by lia.
      now replace (10 ^ (E + 1))%Z with (10 * 10 ^ E)%Z by (rewrite Z.pow_add_r by lia; ring).
Qed.

Lemma scan_down_spec n : forall L E,
  (L <= -100)%Z -> E = log10_2_floor L -> scan_down n L (2 ^ (- L)) E (10 ^ (- E)) = true ->
  forall i, (i < n)%nat -> log_check (L - Z.of_nat i) = true.
Proof.
  induction n as [|n IH]; intros L E HL HE Hs i Hi; [lia |].
  assert (HE0 : (E <= 0)%Z).
  { pose proof (Z.mul_div_le (L * 78913) 262144 ltac:(lia)). subst E. unfold log10_2_floor. lia. }
  cbn [scan_down] in Hs. rewrite !Bool.andb_true_iff, !Z.leb_le, Bool.orb_true_iff, !Z.eqb_eq in Hs.
  destruct Hs as [[[H1 H2] H3] H4]. destruct i as [|i].
  - rewrite Z.sub_0_r. subst E. now apply log_check_down.
  - replace (L - Z.of_nat (S i))%Z with (L - 1 - Z.of_nat i)%Z by lia.
    apply (IH (L - 1)%Z (log10_2_floor (L - 1))); [lia | reflexivity | | lia].
    replace (- (L - 1))%Z with (- L + 1)%Z by lia.
    rewrite (Z.pow_add_r 2 (- L) 1), Z.pow_1_r, Z.mul_comm by lia.
    destruct H3 as [H3 | H3]; rewrite H3 in H4 |- *.
    + now rewrite Z.eqb_refl in H4.
    + rewrite (proj2 (Z.eqb_neq (E - 1) E)) in H4 by lia.
      now replace (10 ^ (- (E - 1)))%Z with (10 * 10 ^ (- E))%Z
        by (replace (- (E - 1))%Z with (- E + 1)%Z by lia; rewrite Z.pow_add_r by lia; ring).
Qed.

Lemma log_check_range L : (-1074 <= L <= 1023)%Z -> log_check L = true.
Proof.
  intros HL. destruct log_check_all as [Hup Hdown].
  destruct (Z.le_gt_cases L (-100)) as [Hn | Hn]; [| destruct (Z.le_gt_cases L 100) as [Hp | Hp]].
  - replace L with (-100 - Z.of_nat (Z.to_nat (-100 - L)))%Z by lia.
    apply (scan_down_spec 975 (-100) _ ltac:(lia) eq_refl Hdown). lia.
  - pose proof log_check_mid as Hall. rewrite forallb_forall in Hall. apply Hall.
    apply in_map_iff. exists (Z.to_nat (L + 100)). split; [lia |]. apply in_seq. lia.
  - replace L with (100 + Z.of_nat (Z.to_nat (L - 100)))%Z by lia.
    apply (scan_up_spec 924 100 _ ltac:(lia) eq_refl Hup). lia.
Qed.

Lemma bval_le v w f : (v <= w)%Z -> bval v f <= bval w f.
Proof. intros H. unfold bval. apply Rmult_le_compat_r; [apply powerRZ_le; lra | now apply IZR_le]. Qed.

Lemma bval_pow2 k f : (0 <= k)%Z -> bval (2 ^ k) f = bval 1 (k + f).
Proof. intros Hk. unfold bval. rewrite IZR_pow, powerRZ_add by (lia || lra). simpl. lra. Qed.

(** [2^L <= m * 2^e < 2^(L+1)] for [L = log2 m + e]. *)

Lemma bval_log2 m e :
  (1 <= m)%Z -> bval 1 (Z.log2 m + e) <= bval m e < bval 1 (Z.log2 m + e + 1).
Proof.
  intros Hm. destruct (Z.log2_spec m) as [Hlo Hhi]; [lia |].
  pose proof (Z.log2_nonneg m). split.
  - rewrite <- bval_pow2 by lia. now apply bval_le.
  - replace (Z.log2 m + e + 1)%Z with (Z.succ (Z.log2 m) + e)%Z by lia.
    rewrite <- bval_pow2 by lia. now apply bval_lt.
Qed.

(** [10^E <= m * 2^e < 10^(E+1)]. *)

Lemma dec_exp_spec m e :
  (1 <= m)%Z -> (-1074 <= Z.log2 m + e <= 1023)%Z ->
  dval 1 (dec_exp m e) <= bval m e < dval 1 (dec_exp m e + 1).
Proof.
  intros Hm HL. pose proof (log_check_range _ HL) as Hc. unfold log_check in Hc.
  pose proof (bval_log2 m e Hm) as [Hx1 Hx2].
  set (E0 := log10_2_floor (Z.log2 m + e)) in *.
  destruct (cmp10_2 1 E0 1 (Z.log2 m + e)) eqn:C1; [| | discriminate];
  destruct (cmp10_2 1 (E0 + 2) 1 (Z.log2 m + e + 1)) eqn:C2; try discriminate;
  assert (H1 : dval 1 E0 <= bval 1 (Z.log2 m + e)) by (apply cmp10_2_le; congruence);
  assert (H2 : bval 1 (Z.log2 m + e + 1) <= dval 1 (E0 + 2))
    by (destruct (cmp10_2_spec 1 (E0 + 2) 1 (Z.log2 m + e + 1)); try lra; discriminate);
  unfold dec_exp; fold E0;
  destruct (cmp10_2_spec 1 (E0 + 1) m e); try split; try lra.
  all: replace (E0 + 1 + 1)%Z with (E0 + 2)%Z by lia; lra.
Qed.

(** ** Finite binary64 numbers *)

Lemma digits2_pos_log2 p : Zpos (SpecFloat.digits2_pos p) = (Z.log2 (Zpos p) + 1)%Z.
Proof.
  assert (Hs : forall p, SpecFloat.digits2_pos p = Pos.size p) by (induction p0; simpl; congruence).
  rewrite Hs. destruct p; simpl; lia.
Qed.

Lemma valid_binary64_finite s m e :
  SpecFloat.valid_binary 53 1024 (S754_finite s m e) = true -> binary64_finite (Zpos m) e.
Proof.
  unfold SpecFloat.valid_binary, SpecFloat.bounded, SpecFloat.canonical_mantissa, SpecFloat.fexp, SpecFloat.emin.
  rewrite Bool.andb_true_iff, Z.eqb_eq, Z.leb_le, digits2_pos_log2. intros [Hc He].
  destruct (Z.log2_spec (Zpos m)) as [Hlo Hhi]; [lia |]. pose proof (Z.log2_nonneg (Zpos m)).
  assert (Hl : (Z.log2 (Zpos m) <= 52)%Z) by lia.
  constructor; unfold emin; try lia.
  - eapply Z.lt_le_trans; [exact Hhi | apply Z.pow_le_mono_r; lia].
  - intros Hn. assert (Z.log2 (Zpos m) = 52)%Z as <- by lia. exact Hlo.
Qed.

(** ** Digit generation *)

Lemma candidate_sound m e k d q :
  candidate m e k = Some (d, q) -> rounds_to d q m e = true.
Proof.
  unfold candidate.
  destruct (rounds_to (floor_div10 m e _) _ m e) eqn:Hlo,
           (rounds_to (floor_div10 m e _ + 1) _ m e) eqn:Hhi; cbn [andb];
    try destruct (cmp10_2 _ _ m (e + 1)); try destruct (Z.even _);
    intros Hc; inversion Hc; subst; assumption.
Qed.

Lemma candidate_None m e k :
  candidate m e k = None ->
  rounds_to (floor_div10 m e (dec_exp m e - k + 1)) (dec_exp m e - k + 1) m e = false /\
  rounds_to (floor_div10 m e (dec_exp m e - k + 1) + 1) (dec_exp m e - k + 1) m e = false.
Proof.
  unfold candidate.
  destruct (rounds_to (floor_div10 m e _) _ m e),
           (rounds_to (floor_div10 m e _ + 1) _ m e); cbn [andb];
    try destruct (cmp10_2 _ _ m (e + 1)); try destruct (Z.even _); intros Hc;
    try discriminate; split; reflexivity.
Qed.

Lemma log2_range m e : binary64_finite m e -> (-1074 <= Z.log2 m + e <= 1023)%Z.
Proof.
  intros [Hm Hlt Hlo Hhi _]. pose proof (Z.log2_nonneg m).
  assert (Z.log2 m < 53)%Z by (apply Z.log2_lt_pow2; lia). unfold emin in *. lia.
Qed.

Lemma dval_split d q k : (0 <= k)%Z -> dval d (q + k) = dval d q * IZR (10 ^ k).
Proof. intros Hk. unfold dval. rewrite IZR_pow, powerRZ_add by (lia || lra). simpl. ring. Qed.

(** Seventeen significant digits always suffice: the nearer of the two
    17-digit neighbours of [x] lies strictly inside its rounding
    interval, because [10^(E-16) / 2] is less than the half gap. *)

Lemma candidate_17 m e : binary64_finite m e -> candidate m e 17 <> None.
Proof.
  intros Hb Hc. apply candidate_None in Hc as [Hlo Hhi].
  set (q := (dec_exp m e - 17 + 1)%Z) in *. set (t := floor_div10 m e q) in *.
  pose proof (dec_exp_spec m e (bf_m_pos _ _ Hb) (log2_range m e Hb)) as [HE _].
  pose proof (floor_div10_spec m e q) as [Hf1 Hf2]. fold t in Hf1, Hf2.
  replace (dec_exp m e) with (q + 16)%Z in HE by (unfold q; lia).
  rewrite dval_split in HE by lia.
  rewrite (bval_shift m e) in *. pose proof (within_self m e) as [Hs1 Hs2].
  rewrite (bval_shift m e) in Hs1, Hs2.
  assert (HP : 0 < powerRZ 10 q) by (apply powerRZ_lt; lra).
  assert (HB : 0 < powerRZ 2 (e - 2)) by (apply powerRZ_lt; lra).
  assert (Hgap : dval 1 q < 2 * (bval (4 * m) (e - 2) - bval (4 * m - gap_below m e) (e - 2))).
  { unfold dval, bval in *. rewrite !minus_IZR, !mult_IZR in *.
    change (IZR (10 ^ 16)) with 10000000000000000 in HE.
    unfold gap_below in *. destruct (narrow_below m e) eqn:Hn.
    - unfold narrow_below in Hn. apply andb_prop in Hn as [Hm _]. apply Z.eqb_eq in Hm.
      rewrite Hm in HE |- *. change (IZR (2 ^ 52)) with 4503599627370496 in *. lra.
    - assert (IZR m <= 9007199254740991) by (apply IZR_le; pose proof (bf_m_lt _ _ Hb); lia).
      assert (IZR m * powerRZ 2 (e - 2) <= 9007199254740991 * powerRZ 2 (e - 2)) by nra. lra. }
  assert (Hhg : bval (4 * m) (e - 2) - bval (4 * m - gap_below m e) (e - 2) <= bval (4 * m + 2) (e - 2) - bval (4 * m) (e - 2)).
  { unfold bval. rewrite !plus_IZR, !minus_IZR, !mult_IZR. unfold gap_below.
    destruct (narrow_below m e); simpl; nra. }
  assert (Ht1 : dval (t + 1) q = dval t q + dval 1 q) by (unfold dval; rewrite plus_IZR; ring).
  destruct (Rle_or_lt (bval (4 * m) (e - 2) - dval t q) (dval 1 q / 2)).
  - assert (Hw : within (bval (4 * m - gap_below m e) (e - 2)) (bval (4 * m + 2) (e - 2)) (dval t q) (Z.even m))
      by (split; left; lra).
    apply rounds_to_spec in Hw. congruence.
  - assert (Hw : within (bval (4 * m - gap_below m e) (e - 2)) (bval (4 * m + 2) (e - 2)) (dval (t + 1) q) (Z.even m))
      by (split; left; lra).
    apply rounds_to_spec in Hw. congruence.
Qed.

Lemma dval_shift_exp d p q : (q <= p)%Z -> dval d p = dval (d * 10 ^ (p - q)) q.
Proof.
  intros Hpq. replace p with (q + (p - q))%Z at 1 by lia.
  rewrite dval_split by lia. unfold dval. rewrite mult_IZR. ring.
Qed.

Lemma dval_pow10 E q k : (E - q = k)%Z -> (0 <= k)%Z -> dval 1 E = dval (10 ^ k) q.
Proof. intros <- Hk. rewrite (dval_shift_exp 1 E q) by lia. f_equal. ring. Qed.

Lemma powerRZ10_le a b : (a <= b)%Z -> powerRZ 10 a <= powerRZ 10 b.
Proof.
  intros Hab. replace b with (a + (b - a))%Z by lia. rewrite powerRZ_add by lra.
  rewrite <- (IZR_pow 10 (b - a)) by lia. pose proof (powerRZ_lt 10 a).
  assert (1 <= IZR (10 ^ (b - a))) by (apply IZR_le; pose proof (Z.pow_pos_nonneg 10 (b - a)); lia).
  nra.
Qed.

Lemma powerRZ10_lt a b : (a < b)%Z -> powerRZ 10 a < powerRZ 10 b.
Proof.
  intros Hab. replace b with (a + (b - a))%Z by lia. rewrite powerRZ_add by lra.
  rewrite <- (IZR_pow 10 (b - a)) by lia. pose proof (powerRZ_lt 10 a).
  assert (10 <= IZR (10 ^ (b - a))).
  { apply IZR_le. replace (b - a)%Z with (Z.succ (b - a - 1)) by lia.
    rewrite Z.pow_succ_r by lia. pose proof (Z.pow_pos_nonneg 10 (b - a - 1)). lia. }
  nra.
Qed.

Lemma dval_le d d' q : (d <= d')%Z -> dval d q <= dval d' q.
Proof. intros H. unfold dval. apply Rmult_le_compat_r; [apply powerRZ_le; lra | now apply IZR_le]. Qed.

(** The floor [t] of [x / 10^q] bounds every multiple of [10^q]. *)

Lemma floor_div10_below m e q u :
  dval u q <= bval m e -> (u <= floor_div10 m e q)%Z.
Proof.
  intros Hu. pose proof (floor_div10_spec m e q) as [_ H2].
  assert (HP : 0 < powerRZ 10 q) by (apply powerRZ_lt; lra).
  unfold dval in *. assert (IZR u < IZR (floor_div10 m e q + 1)).
  { apply (Rmult_lt_reg_r (powerRZ 10 q)); lra. }
  apply lt_IZR in H. lia.
Qed.

Lemma floor_div10_above m e q u :
  bval m e < dval u q -> (floor_div10 m e q + 1 <= u)%Z.
Proof.
  intros Hu. pose proof (floor_div10_spec m e q) as [H1 _].
  assert (HP : 0 < powerRZ 10 q) by (apply powerRZ_lt; lra).
  unfold dval in *. assert (IZR (floor_div10 m e q) < IZR u).
  { apply (Rmult_lt_reg_r (powerRZ 10 q)); lra. }
  apply lt_IZR in H. lia.
Qed.

(** A decimal with at most [k] significant digits at or above [10^E]
    is a multiple of [10^(E-k+1)]. *)

Lemma short_decimal_exp d p E k :
  (0 < d < 10 ^ k)%Z -> (0 <= k)%Z -> dval 1 E <= dval d p -> (E - k + 1 <= p)%Z.
Proof.
  intros Hd Hk HE. destruct (Z.le_gt_cases (E - k + 1) p) as [| Hp]; [assumption | exfalso].
  assert (Hle : powerRZ 10 p <= powerRZ 10 (E - k)) by (apply powerRZ10_le; lia).
  assert (Hdk : IZR d + 1 <= IZR (10 ^ k)) by (rewrite <- plus_IZR; apply IZR_le; lia).
  pose proof (powerRZ_lt 10 p). pose proof (powerRZ_lt 10 (E - k)).
  assert (IZR d > 0) by (apply IZR_lt; lia).
  unfold dval in HE. replace E with ((E - k) + k)%Z in HE by lia.
  rewrite powerRZ_add, <- (IZR_pow 10 k) in HE by (lia || lra).
  assert (IZR d * powerRZ 10 p <= IZR d * powerRZ 10 (E - k)) by (apply Rmult_le_compat_l; lra).
  assert (IZR d * powerRZ 10 (E - k) < IZR (10 ^ k) * powerRZ 10 (E - k))
    by (apply Rmult_lt_compat_r; lra).
  lra.
Qed.

(** No decimal with at most [k] significant digits rounds to [x] when
    neither [k]-digit neighbour does. *)

Lemma candidate_None_short m e k d p :
  binary64_finite m e -> (1 <= k)%Z -> candidate m e k = None ->
  (0 < d < 10 ^ k)%Z -> rounds_to d p m e = false.
Proof.
  intros Hb Hk Hc Hd. apply candidate_None in Hc as [Hlo Hhi].
  destruct (rounds_to d p m e) eqn:Hr; [exfalso | reflexivity].
  set (q := (dec_exp m e - k + 1)%Z) in *. set (t := floor_div10 m e q) in *.
  pose proof (dec_exp_spec m e (bf_m_pos _ _ Hb) (log2_range m e Hb)) as [HE _].
  pose proof (floor_div10_spec m e q) as [Hf1 Hf2]. fold t in Hf1, Hf2.
  pose proof (within_self m e) as [Hs1 Hs2].
  assert (Hx : within (bval (4 * m - gap_below m e) (e - 2)) (bval (4 * m + 2) (e - 2)) (bval m e) (Z.even m))
    by (split; left; lra).
  apply rounds_to_spec in Hr.
  assert (HEq : dval 1 (dec_exp m e) = dval (10 ^ (k - 1)) q)
    by (apply dval_pow10; unfold q; lia).
  destruct (Rle_or_lt (dval d p) (bval m e)) as [Hdx | Hdx].
  - assert (Htd : dval d p <= dval t q).
    { destruct (Rle_or_lt (dval 1 (dec_exp m e)) (dval d p)) as [Hge | Hlt].
      - pose proof (short_decimal_exp d p _ k Hd ltac:(lia) Hge) as Hpq. fold q in Hpq.
        rewrite (dval_shift_exp d p q Hpq) in *.
        apply floor_div10_below in Hdx. unfold dval. apply Rmult_le_compat_r;
          [apply powerRZ_le; lra | apply IZR_le; exact Hdx].
      - assert (Ht : (10 ^ (k - 1) <= t)%Z) by (apply floor_div10_below; lra).
        assert (dval (10 ^ (k - 1)) q <= dval t q)
          by (unfold dval; apply Rmult_le_compat_r; [apply powerRZ_le; lra | apply IZR_le; exact Ht]).
        lra. }
    pose proof (within_convex _ _ _ (dval t q) _ _ Hr Hx (conj Htd Hf1)) as Hw.
    apply rounds_to_spec in Hw. congruence.
  - assert (Hge : dval 1 (dec_exp m e) <= dval d p) by lra.
    pose proof (short_decimal_exp d p _ k Hd ltac:(lia) Hge) as Hpq. fold q in Hpq.
    rewrite (dval_shift_exp d p q Hpq) in *.
    apply floor_div10_above in Hdx. fold t in Hdx.
    assert (Htd : dval (t + 1) q <= dval (d * 10 ^ (p - q)) q)
      by (unfold dval; apply Rmult_le_compat_r; [apply powerRZ_le; lra | apply IZR_le; exact Hdx]).
    pose proof (within_convex _ _ (bval m e) (dval (t + 1) q) _ _ Hx Hr (conj (Rlt_le _ _ Hf2) Htd)) as Hw.
    apply rounds_to_spec in Hw. congruence.
Qed.

Lemma shortest_from_spec m e k n r :
  shortest_from m e k n = Some r ->
  exists j, (k <= j < k + Z.of_nat n)%Z /\ candidate m e j = Some r /\
            forall i, (k <= i < j)%Z -> candidate m e i = None.
Proof.
  revert k. induction n as [|n IH]; intros k H; [discriminate |]. simpl in H.
  destruct (candidate m e k) eqn:Hc.
  - injection H as <-. exists k. split; [lia |]. split; [exact Hc | intros; lia].
  - destruct (IH _ H) as (j & Hj & Hcj & Hlt). exists j. split; [lia |]. split; [exact Hcj |].
    intros i Hi. destruct (Z.eq_dec i k) as [-> | Hne]; [exact Hc | apply Hlt; lia].
Qed.

Lemma shortest_from_reaches m e k n :
  candidate m e (k + Z.of_nat n) <> None -> shortest_from m e k (S n) <> None.
Proof.
  revert k. induction n as [|n IH]; intros k H; simpl.
  - rewrite Z.add_0_r in H. destruct (candidate m e k); [discriminate | exact H].
  - destruct (candidate m e k); [discriminate |]. apply (IH (k + 1)%Z).
    replace (k + 1 + Z.of_nat n)%Z with (k + Z.of_nat (S n))%Z by lia. exact H.
Qed.

Lemma strip_zeros_spec n t q :
  (0 < t < 10 ^ Z.of_nat n)%Z ->
  let '(t', q') := strip_zeros n t q in
  dval t' q' = dval t q /\ (0 < t' <= t)%Z /\ (t' mod 10 <> 0)%Z.
Proof.
  revert t q. induction n as [|n IH]; intros t q Ht; [simpl in Ht; lia |]. simpl.
  destruct (Z.ltb_spec 0 t); [| lia]. destruct (Z.eqb_spec (t mod 10) 0) as [H0 | H0]; cbn [andb].
  - assert (Ht' : (0 < t / 10 < 10 ^ Z.of_nat n)%Z).
    { rewrite Nat2Z.inj_succ, Z.pow_succ_r in Ht by lia. pose proof (Z.div_mod t 10 ltac:(lia)). lia. }
    specialize (IH (t / 10)%Z (q + 1)%Z Ht'). destruct (strip_zeros n (t / 10) (q + 1)) as [t' q'].
    pose proof (Z.div_mod t 10 ltac:(lia)).
    destruct IH as (Hv & Hp & Hm). split; [| split; [lia | exact Hm]].
    rewrite Hv, dval_split by lia. unfold dval.
    assert (E : IZR t = IZR (t / 10) * IZR (10 ^ 1)) by (rewrite <- mult_IZR; f_equal; lia).
    rewrite E. ring.
  - split; [reflexivity | split; [lia | exact H0]].
Qed.

Lemma rounds_to_dval d q d' q' m e :
  dval d q = dval d' q' -> rounds_to d q m e = rounds_to d' q' m e.
Proof.
  intros Hv. destruct (rounds_to d' q' m e) eqn:H'.
  - apply rounds_to_spec. rewrite Hv. now apply rounds_to_spec.
  - destruct (rounds_to d q m e) eqn:H; [| reflexivity].
    apply rounds_to_spec in H. rewrite Hv in H. apply rounds_to_spec in H. congruence.
Qed.

(** The [j]-digit neighbours of [x] lie in [[10^(j-1), 10^j]]. *)

Lemma candidate_range m e j d q :
  binary64_finite m e -> (1 <= j)%Z -> candidate m e j = Some (d, q) ->
  (10 ^ (j - 1) <= d <= 10 ^ j)%Z /\ q = (dec_exp m e - j + 1)%Z.
Proof.
  intros Hb Hj Hc.
  pose proof (dec_exp_spec m e (bf_m_pos _ _ Hb) (log2_range m e Hb)) as [HE1 HE2].
  set (q0 := (dec_exp m e - j + 1)%Z).
  assert (H1 : (10 ^ (j - 1) <= floor_div10 m e q0)%Z).
  { apply floor_div10_below. rewrite <- (dval_pow10 (dec_exp m e)) by (unfold q0; lia). exact HE1. }
  assert (H2 : (floor_div10 m e q0 < 10 ^ j)%Z).
  { destruct (Z.lt_ge_cases (floor_div10 m e q0) (10 ^ j)) as [| Hge]; [assumption | exfalso].
    rewrite (dval_pow10 (dec_exp m e + 1) q0 j) in HE2 by (unfold q0; lia).
    pose proof (floor_div10_spec m e q0) as [Hf _].
    assert (dval (10 ^ j) q0 <= dval (floor_div10 m e q0) q0)
      by (unfold dval; apply Rmult_le_compat_r; [apply powerRZ_le; lra | apply IZR_le; exact Hge]).
    lra. }
  pose proof (Z.pow_pos_nonneg 10 (j - 1)).
  unfold candidate in Hc. fold q0 in Hc.
  destruct (rounds_to (floor_div10 m e q0) q0 m e), (rounds_to (floor_div10 m e q0 + 1) q0 m e);
    cbn [andb] in Hc; try destruct (cmp10_2 _ _ m (e + 1)); try destruct (Z.even _);
    inversion Hc; subst; (split; [lia | reflexivity]).
Qed.

Lemma dtoa_core_found m e :
  binary64_finite m e ->
  exists j, (1 <= j <= 17)%Z /\ (forall i, (1 <= i < j)%Z -> candidate m e i = None) /\
    let '(t, q) := dtoa_core m e in
    (0 < t < 10 ^ j)%Z /\ (t mod 10 <> 0)%Z /\ rounds_to t q m e = true /\
    dval 1 (dec_exp m e) <= dval t q <= dval 1 (dec_exp m e + 1).
Proof.
  intros Hb. unfold dtoa_core.
  destruct (shortest_from m e 1 17) as [[d q]|] eqn:Hs;
    [| exfalso; revert Hs; apply (shortest_from_reaches m e 1 16); apply candidate_17, Hb].
  destruct (shortest_from_spec _ _ _ _ _ Hs) as (j & Hj & Hc & Hlt).
  exists j. split; [lia |]. split; [exact Hlt |].
  pose proof (candidate_range m e j d q Hb ltac:(lia) Hc) as [Hd Hq].
  assert (Hd20 : (0 < d < 10 ^ Z.of_nat 20)%Z).
  { pose proof (Z.pow_pos_nonneg 10 (j - 1)).
    split; [lia |]. eapply Z.le_lt_trans; [apply Hd |]. apply Z.pow_lt_mono_r; lia. }
  pose proof (strip_zeros_spec 20 d q Hd20) as Hsp.
  destruct (strip_zeros 20 d q) as [t' q']. destruct Hsp as (Hv & Ht & Hm).
  split; [| split; [exact Hm | split]].
  - split; [lia |]. destruct (Z.eq_dec t' (10 ^ j)) as [Heq | Hne]; [| lia].
    exfalso. apply Hm. rewrite Heq. replace j with (Z.succ (j - 1)) by lia.
    rewrite Z.pow_succ_r by lia. rewrite Z.mul_comm. apply Z_mod_mult.
  - rewrite (rounds_to_dval _ _ d q m e Hv). exact (candidate_sound _ _ _ _ _ Hc).
  - rewrite Hv, (dval_pow10 (dec_exp m e) q (j - 1)), (dval_pow10 (dec_exp m e + 1) q j) by lia.
    split; apply dval_le; lia.
Qed.

(** The digits are correct: they read back as [x]. *)

Lemma dtoa_core_rounds m e :
  binary64_finite m e ->
  let '(t, q) := dtoa_core m e in (0 < t < 10 ^ 17)%Z /\ rounds_to t q m e = true.
Proof.
  intros Hb. destruct (dtoa_core_found m e Hb) as (j & Hj & _ & H).
  destruct (dtoa_core m e) as [t q]. destruct H as (Ht & _ & Hr & _). split; [| exact Hr].
  split; [lia |]. eapply Z.lt_le_trans; [apply Ht | apply Z.pow_le_mono_r; lia].
Qed.

(** The digits are the shortest: a decimal with [k] significant digits
    that reads back as [x] bounds the significand by [10^k]. *)

Lemma dtoa_core_shortest m e d p k :
  binary64_finite m e -> (0 < d < 10 ^ k)%Z -> rounds_to d p m e = true ->
  (fst (dtoa_core m e) < 10 ^ k)%Z.
Proof.
  intros Hb Hd Hr. destruct (dtoa_core_found m e Hb) as (j & Hj & Hlt & H).
  destruct (dtoa_core m e) as [t q]. destruct H as (Ht & _ & _). simpl.
  assert (Hk : (1 <= k)%Z).
  { destruct (Z.lt_ge_cases k 1) as [Hk |]; [| assumption].
    destruct (Z.lt_ge_cases k 0); [rewrite Z.pow_neg_r in Hd by lia; lia |].
    assert (k = 0)%Z as -> by lia. simpl in Hd. lia. }
  destruct (Z.lt_ge_cases k j) as [Hkj | Hkj].
  - rewrite (candidate_None_short m e k d p Hb Hk (Hlt k ltac:(lia)) Hd) in Hr. discriminate.
  - eapply Z.lt_le_trans; [apply Ht | apply Z.pow_le_mono_r; lia].
Qed.

(** ** Round to nearest

    [rounds_to] is the rounding interval of dtoa; the lemmas below show
    it is IEEE round to nearest, ties to even, over the finite doubles:
    a double above [x] is at least the next one up, [(m+1) * 2^e], and a
    double below [x] is at most the next one down, [2 * gap_below] units
    of [2^(e-2)] below [x]. *)

Lemma bval_mul_pow2 v k f : (0 <= k)%Z -> bval (v * 2 ^ k) f = bval v (k + f).
Proof. intros Hk. unfold bval. rewrite mult_IZR, IZR_pow, powerRZ_add by (lia || lra). simpl. lra. Qed.

Lemma bval_lt_inv v w f : bval v f < bval w f -> (v < w)%Z.
Proof. intros H. destruct (Z.lt_ge_cases v w) as [| Hge]; [assumption |]. apply bval_le with (f := f) in Hge. lra. Qed.

(** Both numbers at the smaller of the two exponents. *)
Lemma bval_common e m' e' :
  (e <= e')%Z -> bval m' e' = bval (m' * 2 ^ (e' - e)) e.
Proof. intros He. rewrite bval_mul_pow2 by lia. f_equal. lia. Qed.

Lemma bval_inj v w f : bval v f = bval w f -> v = w.
Proof.
  intros H. destruct (Z.lt_total v w) as [Hl | [Hl | Hl]]; [| exact Hl |];
    apply (bval_lt _ _ f) in Hl; lra.
Qed.

Lemma pow2_ge_2 k : (1 <= k)%Z -> (2 <= 2 ^ k)%Z.
Proof.
  intros Hk. replace k with (1 + (k - 1))%Z by lia.
  rewrite Z.pow_add_r by lia. pose proof (Z.pow_pos_nonneg 2 (k - 1)). lia.
Qed.

(** Of two finite doubles the larger has the larger (or the same)
    exponent: a normal significand is at least [2^52]. *)
Lemma binary64_exp_le m e m' e' :
  binary64_finite m e -> binary64_finite m' e' -> bval m e < bval m' e' -> (e <= e')%Z.
Proof.
  intros [Hm1 Hm2 He1 He2 Hn] [Hm1' Hm2' He1' He2' Hn'] Hlt.
  destruct (Z.le_gt_cases e e') as [He | He]; [exact He | exfalso].
  rewrite (bval_common e' m e) in Hlt by lia. apply bval_lt_inv in Hlt.
  pose proof (pow2_ge_2 (e - e') ltac:(lia)). pose proof (Hn ltac:(lia)). nia.
Qed.

Lemma binary64_succ m e m' e' :
  binary64_finite m e -> binary64_finite m' e' ->
  bval m e < bval m' e' -> bval (m + 1) e <= bval m' e'.
Proof.
  intros Hx Hy Hlt. pose proof (binary64_exp_le m e m' e' Hx Hy Hlt) as He.
  rewrite (bval_common e m' e') in * by exact He. apply bval_le.
  apply bval_lt_inv in Hlt. lia.
Qed.

Lemma binary64_pred m e m' e' :
  binary64_finite m e -> binary64_finite m' e' ->
  bval m' e' < bval m e -> bval m' e' <= bval (4 * m - 2 * gap_below m e) (e - 2).
Proof.
  intros [Hm1 Hm2 He1 He2 Hn] [Hm1' Hm2' He1' He2' Hn'] Hlt.
  assert (Hg : (1 <= gap_below m e <= 2)%Z) by (unfold gap_below; destruct (narrow_below m e); lia).
  destruct (Z.le_gt_cases e e') as [He | He].
  - rewrite (bval_common e m' e') in * by exact He. apply bval_lt_inv in Hlt.
    rewrite (bval_shift _ e). apply bval_le. lia.
  - pose proof (pow2_ge_2 (e - e') ltac:(lia)) as Hp.
    assert (H2 : (4 * m' <= 2 * (4 * m - 2 * gap_below m e))%Z).
    { pose proof (Hn ltac:(lia)). unfold gap_below, narrow_below, emin in *.
      destruct (Z.eqb_spec m (2 ^ 52)), (Z.ltb_spec (-1074) e); cbn [andb]; lia. }
    rewrite (bval_common (e' - 2) (4 * m - 2 * gap_below m e) (e - 2)) by lia.
    rewrite (bval_shift m' e'). apply bval_le.
    replace (e - 2 - (e' - 2))%Z with (e - e')%Z by lia. nia.
Qed.

Lemma bval_quarter m e k : bval (4 * m + k) (e - 2) = bval m e + IZR k * bval 1 (e - 2).
Proof. rewrite (bval_shift m e). unfold bval. rewrite plus_IZR. lra. Qed.

(** The real-number core: [D] inside the interval of [x], whose half gaps
    are [g * u] below and [2 * u] above, and [y] a whole gap away. *)
Lemma within_nearest lo hi D x y u g c :
  within lo hi D c -> lo = x - g * u -> hi = x + 2 * u -> 0 < u -> 1 <= g <= 2 ->
  y <= x - 2 * g * u \/ x + 4 * u <= y ->
  Rabs (D - x) < Rabs (D - y) \/ (Rabs (D - x) = Rabs (D - y) /\ c = true).
Proof.
  intros [Hl Hh] -> -> Hu Hg Hy.
  destruct (Req_dec (Rabs (D - x)) (Rabs (D - y))) as [E | E]; [right; split; [exact E |] | left].
  - destruct Hl as [Hl | [_ Hc]]; [| exact Hc]. destruct Hh as [Hh | [_ Hc]]; [| exact Hc].
    exfalso. revert E. destruct Hy; split_Rabs; nra.
  - enough (Rabs (D - x) <= Rabs (D - y)) by lra.
    destruct Hl as [Hl | [Hl _]], Hh as [Hh | [Hh _]], Hy; split_Rabs; nra.
Qed.

(** A decimal [d * 10^q] that [rounds_to] accepts for a finite double
    [x = m * 2^e] is nearer to [x] than to any other positive finite
    double, or exactly as near and [m] is even. *)
Lemma rounds_to_nearest d q m e m' e' :
  binary64_finite m e -> binary64_finite m' e' -> rounds_to d q m e = true ->
  bval m' e' <> bval m e ->
  Rabs (dval d q - bval m e) < Rabs (dval d q - bval m' e') \/
  (Rabs (dval d q - bval m e) = Rabs (dval d q - bval m' e') /\ Z.even m = true).
Proof.
  intros Hx Hy Hr Hne. apply rounds_to_spec in Hr.
  eapply (within_nearest _ _ _ _ _ (bval 1 (e - 2)) (IZR (gap_below m e))); [exact Hr | | | | |].
  - replace (4 * m - gap_below m e)%Z with (4 * m + - gap_below m e)%Z by lia.
    rewrite bval_quarter, opp_IZR. ring.
  - now rewrite bval_quarter.
  - unfold bval. pose proof (powerRZ_lt 2 (e - 2)). lra.
  - unfold gap_below. destruct (narrow_below m e); split; simpl; lra.
  - destruct (Rtotal_order (bval m' e') (bval m e)) as [Hlt | [Heq | Hgt]]; [left | contradiction | right].
    + eapply Rle_trans; [exact (binary64_pred m e m' e' Hx Hy Hlt) |].
      replace (4 * m - 2 * gap_below m e)%Z with (4 * m + - (2 * gap_below m e))%Z by lia.
      rewrite bval_quarter, opp_IZR, mult_IZR. apply Req_le. ring.
    + eapply Rle_trans; [| exact (binary64_succ m e m' e' Hx Hy Hgt)].
      rewrite (bval_shift (m + 1) e), Z.mul_add_distr_l, Z.mul_1_r, bval_quarter. lra.
Qed.

(** ... and nearer to [x] than to zero, hence than to any double of the
    other sign. *)
Lemma rounds_to_near_self d q m e :
  binary64_finite m e -> rounds_to d q m e = true -> Rabs (dval d q - bval m e) < dval d q.
Proof.
  intros [Hm1 _ _ _ _] Hr. apply rounds_to_spec in Hr. rewrite (bval_shift m e) in *.
  unfold bval in *. set (u := powerRZ 2 (e - 2)) in *.
  assert (Hu : 0 < u) by (apply powerRZ_lt; lra).
  rewrite !minus_IZR, !plus_IZR, !mult_IZR in *.
  assert (Hm : 1 <= IZR m) by (apply IZR_le; lia).
  assert (Hg : 1 <= IZR (gap_below m e) <= 2)
    by (unfold gap_below; destruct (narrow_below m e); split; simpl; lra).
  destruct Hr as [[Hl | [Hl Hc]] _]; [split_Rabs; nra |].
  destruct (Z.eq_dec m 1) as [-> | Hm2]; [discriminate |].
  assert (2 <= IZR m) by (apply IZR_le; lia). split_Rabs; nra.
Qed.

(** ** Distinct doubles, disjoint intervals *)

Lemma binary64_canonical_le m e m' e' :
  binary64_finite m e -> binary64_finite m' e' -> (e <= e')%Z ->
  bval m e = bval m' e' -> m = m' /\ e = e'.
Proof.
  intros [Hm1 Hm2 He1 He2 Hn] [Hm1' Hm2' He1' He2' Hn'] He Hv.
  rewrite (bval_common e m' e') in Hv by exact He. apply bval_inj in Hv.
  destruct (Z.eq_dec e e') as [<- | Hne].
  - rewrite Z.sub_diag, Z.pow_0_r, Z.mul_1_r in Hv. now split.
  - exfalso. pose proof (pow2_ge_2 (e' - e) ltac:(lia)). pose proof (Hn' ltac:(lia)). nia.
Qed.

(** A finite double has one significand and one exponent. *)
Lemma binary64_canonical m e m' e' :
  binary64_finite m e -> binary64_finite m' e' -> bval m e = bval m' e' -> m = m' /\ e = e'.
Proof.
  intros Hx Hy Hv. destruct (Z.le_gt_cases e e') as [He | He].
  - exact (binary64_canonical_le m e m' e' Hx Hy He Hv).
  - destruct (binary64_canonical_le m' e' m e Hy Hx ltac:(lia) (eq_sym Hv)). now split.
Qed.

(** For [x < y], in units of [2^(e-2)]: the upper end [4m + 2] of the
    interval of [x] is at most the lower end of the interval of [y], and
    when they meet one of the two significands is odd ([y] the next
    double, or [x = (2^53 - 1) * 2^e] below the power of two [y]). *)
Lemma rounds_to_gap m e m' e' :
  binary64_finite m e -> binary64_finite m' e' -> bval m e < bval m' e' ->
  (4 * m + 2 <= (4 * m' - gap_below m' e') * 2 ^ (e' - e))%Z /\
  ((4 * m + 2 = (4 * m' - gap_below m' e') * 2 ^ (e' - e))%Z -> Z.even m = false \/ Z.even m' = false).
Proof.
  intros Hx Hy Hlt. pose proof (binary64_exp_le m e m' e' Hx Hy Hlt) as He.
  rewrite (bval_common e m' e') in Hlt by exact He. apply bval_lt_inv in Hlt.
  destruct Hx as [Hm1 Hm2 He1 He2 Hn], Hy as [Hm1' Hm2' He1' He2' Hn'].
  unfold gap_below, narrow_below, emin in *.
  destruct (Z.eq_dec e e') as [<- | Hne].
  - rewrite Z.sub_diag, Z.pow_0_r, Z.mul_1_r in *.
    destruct (Z.eqb_spec m' (2 ^ 52)), (Z.ltb_spec (-1074) e); cbn [andb];
      try (pose proof (Hn ltac:(lia)); lia).
    all: split; [lia | intros Heq; assert (m' = Z.succ m) as -> by lia].
    all: rewrite Z.even_succ, <- Z.negb_even; destruct (Z.even m); [right | left]; reflexivity.
  - pose proof (pow2_ge_2 (e' - e) ltac:(lia)) as Hp. pose proof (Hn' ltac:(lia)).
    destruct (Z.eqb_spec m' (2 ^ 52)) as [-> | Hm], (Z.ltb_spec (-1074) e'); cbn [andb]; try lia.
    + split; [nia |]. intros Heq. assert (2 ^ (e' - e) = 2)%Z by nia.
      assert (m = 2 ^ 53 - 1)%Z as -> by nia. left. reflexivity.
    + split; [nia |]. intros Heq. exfalso. nia.
Qed.

Lemma rounds_to_lt_absurd d q m e m' e' :
  binary64_finite m e -> binary64_finite m' e' -> bval m e < bval m' e' ->
  rounds_to d q m e = true -> rounds_to d q m' e' = true -> False.
Proof.
  intros Hx Hy Hlt R1 R2. pose proof (binary64_exp_le m e m' e' Hx Hy Hlt) as He.
  destruct (rounds_to_gap m e m' e' Hx Hy Hlt) as [Hle Hodd].
  apply rounds_to_spec in R1 as [_ Hh], R2 as [Hl _].
  rewrite (bval_common (e - 2) (4 * m' - gap_below m' e') (e' - 2)) in Hl by lia.
  replace (e' - 2 - (e - 2))%Z with (e' - e)%Z in Hl by lia.
  apply (bval_le _ _ (e - 2)) in Hle.
  destruct Hh as [Hh | [Hh Hc]], Hl as [Hl | [Hl Hc']]; try lra.
  assert (Hv : bval (4 * m + 2) (e - 2) = bval ((4 * m' - gap_below m' e') * 2 ^ (e' - e)) (e - 2)) by lra.
  apply bval_inj in Hv. destruct (Hodd Hv); congruence.
Qed.

(** Two finite doubles that accept the same decimal are the same
    double: the rounding intervals of distinct doubles are disjoint. *)
Lemma rounds_to_unique d q m e m' e' :
  binary64_finite m e -> binary64_finite m' e' ->
  rounds_to d q m e = true -> rounds_to d q m' e' = true -> m = m' /\ e = e'.
Proof.
  intros Hx Hy R1 R2. destruct (Rtotal_order (bval m e) (bval m' e')) as [Hlt | [Heq | Hgt]].
  - destruct (rounds_to_lt_absurd d q m e m' e' Hx Hy Hlt R1 R2).
  - exact (binary64_canonical m e m' e' Hx Hy Heq).
  - destruct (rounds_to_lt_absurd d q m' e' m e Hy Hx Hgt R2 R1).
Qed.
