(* ===== verification/Repr.v ===== *)
(** * [repr(float)]: the text [print] writes

    CPython's [float_repr] is [PyOS_double_to_string(x, 'r', 0,
    Py_DTSF_ADD_DOT_0, NULL)] (Objects/floatobject.c), which calls
    [format_float_short] (Python/pystrtod.c): the digits and decimal point
    position of [_Py_dg_dtoa] in mode 0 ([Dtoa.dtoa_core], here
    [py_dg_dtoa]) laid out in positional notation when
    [-4 < decpt <= 16], with [".0"] added to an integer, and in exponent
    notation [d.ddde+XX] (sign and at least two exponent digits,
    ["%+.02d"]) otherwise; ["inf"], ["-inf"] and ["nan"] (never signed)
    for the special values.  [float_repr_text] is that text as a list of
    characters, [float_repr] as a string.

    [parse_float_text] reads such a text back as the decimal
    [(sign, N, p)] it denotes, [N * 10^p], as Python's [float()] does
    before rounding.  The theorems: the text of every finite double
    denotes a decimal nearer to that double than to any other finite
    double, or tied with the even one, so that [float()] reads it back as
    that double ([float_repr_round_trip], through [repr_reads_back] and
    [Dtoa.rounds_to_nearest]); two floats with the same text are the same
    float ([float_repr_injective]); it is at most 24
    characters long ([float_repr_length]), the bound CPython sizes its
    buffer by; its digits are the shortest that read back
    ([float_repr_shortest]).  The four layouts of [format_float_short] are
    [format_exp], [format_small], [format_mid] and [format_big]. *)

From Stdlib Require Import ZArith Lia Reals Lra List Floats Ascii.
From Stdlib Require String.
From S2P Require Import Dtoa.
Import ListNotations.
Local Open Scope Z_scope.
Local Open Scope bool_scope.

(** ** Definitions *)

(** The character of the decimal digit [d], and back. *)
Definition digit_char (d : Z) : ascii := ascii_of_nat (48 + Z.to_nat d).

Definition digit_val (c : ascii) : Z := Z.of_nat (nat_of_ascii c) - 48.

Definition is_digit (c : ascii) : bool := (48 <=? nat_of_ascii c)%nat && (nat_of_ascii c <=? 57)%nat.

(** The number a string of decimal digits denotes. *)
Definition digits_value (l : list ascii) : Z := fold_left (fun a c => a * 10 + digit_val c) l 0.

(** The decimal digits of [n >= 0], most significant first (dtoa's
    digit string; [fuel] bounds their number). *)
Fixpoint pos_digits (fuel : nat) (n : Z) : list ascii :=
  match fuel with
  | O => []
  | S f => if n <? 10 then [digit_char n] else pos_digits f (n / 10) ++ [digit_char (n mod 10)]
  end.

(** [memset(p, '0', n)]. *)
Definition zeros (n : Z) : list ascii := repeat "0"%char (Z.to_nat n).

(** [if (sign == 1) *p++ = '-';] *)
Definition sign_text (sign : bool) : list ascii := if sign then ["-"%char] else [].

(** [sprintf(p, "%+.02d", exp)]: a sign, then at least two digits. *)
Definition exp_text (x : Z) : list ascii :=
  (if x <? 0 then "-"%char else "+"%char) ::
  (if Z.abs x <? 10 then "0"%char :: pos_digits 20 (Z.abs x) else pos_digits 20 (Z.abs x)).

(** [format_float_short(d, 'r', 0, ..., add_dot_0_if_integer = 1, ...)]
    on the digits and decimal point of a finite double, statement by
    statement: the exponent decision of case ['r'], the virtual slice
    [vdigits_start .. vdigits_end], the left zero padding, the digits with
    the decimal point, the right zero padding, the deletion of a trailing
    ['.'] and the exponent. *)
Definition format_float_short (sign : bool) (digits : list ascii) (decpt : Z) : list ascii :=
  let digits_len := Z.of_nat (List.length digits) in
  let use_exp := (decpt <=? -4) || (16 <? decpt) in
  let exp := decpt - 1 in
  let decpt := if use_exp then 1 else decpt in
  let vdigits_start := if decpt <=? 0 then decpt - 1 else 0 in
  let vdigits_end := if negb use_exp then Z.max digits_len (decpt + 1) else Z.max digits_len decpt in
  let left := if decpt <=? 0 then zeros (decpt - vdigits_start) ++ ["."%char] ++ zeros (0 - decpt)
              else zeros (0 - vdigits_start) in
  let mid := if (0 <? decpt) && (decpt <=? digits_len)
             then firstn (Z.to_nat decpt) digits ++ ["."%char] ++ skipn (Z.to_nat decpt) digits
             else digits in
  let right := if digits_len <? decpt
               then zeros (decpt - digits_len) ++ ["."%char] ++ zeros (vdigits_end - decpt)
               else zeros (vdigits_end - digits_len) in
  let body := sign_text sign ++ left ++ mid ++ right in
  let body := match rev body with
              | c :: r => if Ascii.eqb c "."%char then rev r else body
              | [] => body
              end in
  body ++ (if use_exp then "e"%char :: exp_text exp else []).

(** The text before the first [c], and the text after it if there is one. *)
Fixpoint split_on (c : ascii) (l : list ascii) : list ascii * option (list ascii) :=
  match l with
  | [] => ([], None)
  | x :: r => if Ascii.eqb x c then ([], Some r) else let '(a, b) := split_on c r in (x :: a, b)
  end.

(** A nonempty string of digits; an exponent with an optional sign. *)
Definition parse_uint (l : list ascii) : option Z :=
  if (0 <? List.length l)%nat && forallb is_digit l then Some (digits_value l) else None.

Definition parse_exp (l : list ascii) : option Z :=
  match l with
  | c :: r => if Ascii.eqb c "+"%char then parse_uint r
              else if Ascii.eqb c "-"%char then option_map Z.opp (parse_uint r)
              else parse_uint l
  | [] => None
  end.

(** A leading ['-']. *)
Definition strip_sign (l : list ascii) : bool * list ascii :=
  match l with
  | c :: r => if Ascii.eqb c "-"%char then (true, r) else (false, l)
  | [] => (false, l)
  end.

(** The decimal [(sign, N, p)] a text [[-]digits[.digits][e[+-]digits]] denotes: [N * 10^p]. *)

Definition parse_float_text (s : list ascii) : option (bool * Z * Z) :=
  let '(neg, s1) := strip_sign s in
  let '(mant, ex) := split_on "e"%char s1 in
  let '(ip, fp) := split_on "."%char mant in
  let fr := match fp with Some f => f | None => [] end in
  match (match ex with None => Some 0 | Some t => parse_exp t end) with
  | Some x => if (0 <? List.length ip)%nat && forallb is_digit ip && forallb is_digit fr
              then Some (neg, digits_value (ip ++ fr), x - Z.of_nat (List.length fr)) else None
  | None => None
  end.

(** [c] does not occur in [l]. *)
Definition no_char (c : ascii) (l : list ascii) : bool := forallb (fun x => negb (Ascii.eqb x c)) l.

(** The characters [repr] of a float can contain. *)
Definition repr_char (c : ascii) : bool :=
  is_digit c || existsb (Ascii.eqb c) ["-"; "+"; "."; "e"; "i"; "n"; "f"; "a"]%char.

(** A text [[-]ip[.fp][e ex]]. *)

Definition assemble (s : bool) (ip : list ascii) (fp ex : option (list ascii)) : list ascii :=
  sign_text s ++ ip ++ (match fp with Some f => "."%char :: f | None => [] end) ++
  (match ex with Some t => "e"%char :: t | None => [] end).

(** [_Py_dg_dtoa(x, 0, 0, &decpt, &sign, &end)] for [x = m * 2^e]: the
    digit string and [decpt], with [x ~ 0.digits * 10^decpt]. *)
Definition py_dg_dtoa (m e : Z) : list ascii * Z :=
  let '(t, q) := dtoa_core m e in
  let ds := pos_digits 20 t in
  (ds, q + Z.of_nat (List.length ds)).

(** [repr(x)]: zeros are ["0.0"] and ["-0.0"] (dtoa returns ["0"] with
    [decpt = 1] and the sign bit), infinities and NaN are named. *)
Definition float_repr_text (x : float) : list ascii :=
  match Prim2SF x with
  | S754_zero s => format_float_short s ["0"%char] 1
  | S754_infinity s => sign_text s ++ ["i"%char; "n"%char; "f"%char]
  | S754_nan => ["n"%char; "a"%char; "n"%char]
  | S754_finite s m e => let '(ds, decpt) := py_dg_dtoa (Zpos m) e in format_float_short s ds decpt
  end.

Definition float_repr (x : float) : String.string := String.string_of_list_ascii (float_repr_text x).

(** The sign bit of a double, and whether the decimal [N * 10^p] reads
    back as it: [0] for a zero, [rounds_to] for a finite nonzero double. *)
Definition sf_sign (f : spec_float) : bool :=
  match f with S754_zero s | S754_infinity s | S754_finite s _ _ => s | S754_nan => false end.

Definition reads_back (N p : Z) (f : spec_float) : bool :=
  match f with
  | S754_zero _ => N =? 0
  | S754_finite _ m e => rounds_to N p (Zpos m) e
  | _ => false
  end.

(** The real value of a signed magnitude, of a finite double, and whether
    the significand of a double is even (the tie-breaking rule). *)
Definition signed (s : bool) (r : R) : R := if s then (- r)%R else r.

Definition sf_value (f : spec_float) : R :=
  match f with S754_finite s m e => signed s (bval (Zpos m) e) | _ => 0%R end.

Definition sf_even (f : spec_float) : bool :=
  match f with S754_finite _ m _ => Z.even (Zpos m) | _ => true end.

(** ** Decimal digits as characters *)

Lemma nat_of_digit_char d : 0 <= d < 10 -> nat_of_ascii (digit_char d) = (48 + Z.to_nat d)%nat.
Proof. intros Hd. unfold digit_char. apply nat_ascii_embedding. lia. Qed.

Lemma digit_val_char d : 0 <= d < 10 -> digit_val (digit_char d) = d.
Proof. intros Hd. unfold digit_val. rewrite nat_of_digit_char by lia. lia. Qed.

Lemma is_digit_char d : 0 <= d < 10 -> is_digit (digit_char d) = true.
Proof.
  intros Hd. unfold is_digit. rewrite nat_of_digit_char by lia.
  apply andb_true_intro; split; apply Nat.leb_le; lia.
Qed.

Lemma fold_digits_acc l a :
  fold_left (fun a c => a * 10 + digit_val c) l a = a * 10 ^ Z.of_nat (length l) + digits_value l.
Proof.
  revert a. induction l as [|c l IH]; intros a; [unfold digits_value; simpl; lia |].
  cbn [fold_left]. rewrite IH. unfold digits_value at 2. cbn [fold_left]. rewrite IH.
  cbn [List.length]. rewrite Nat2Z.inj_succ, Z.pow_succ_r by lia. ring.
Qed.

Lemma digits_value_app l1 l2 :
  digits_value (l1 ++ l2) = digits_value l1 * 10 ^ Z.of_nat (length l2) + digits_value l2.
Proof. unfold digits_value at 1. rewrite fold_left_app. apply fold_digits_acc. Qed.

Lemma digits_value_zeros n : digits_value (zeros n) = 0.
Proof.
  unfold zeros. induction (Z.to_nat n) as [|k IH]; [reflexivity |].
  change (repeat "0"%char (S k)) with ([ "0"%char ] ++ repeat "0"%char k).
  rewrite digits_value_app, IH. reflexivity.
Qed.

Lemma length_zeros n : length (zeros n) = Z.to_nat n.
Proof. apply repeat_length. Qed.

Lemma zeros_digits n : forallb is_digit (zeros n) = true.
Proof. unfold zeros. induction (Z.to_nat n); [reflexivity | exact IHn0]. Qed.

Lemma pos_digits_spec f n :
  (1 <= f)%nat -> 0 <= n < 10 ^ Z.of_nat f ->
  digits_value (pos_digits f n) = n /\ forallb is_digit (pos_digits f n) = true /\
  (1 <= length (pos_digits f n))%nat /\ n < 10 ^ Z.of_nat (length (pos_digits f n)) /\
  (1 <= n -> 10 ^ (Z.of_nat (length (pos_digits f n)) - 1) <= n).
Proof.
  revert n. induction f as [|f IH]; intros n Hf Hn; [lia |].
  cbn [pos_digits]. destruct (Z.ltb_spec n 10).
  - unfold digits_value. cbn [fold_left forallb List.length].
    rewrite Bool.andb_true_r, is_digit_char, digit_val_char by lia. repeat split; lia.
  - pose proof (Z.div_mod n 10 ltac:(lia)). pose proof (Z.mod_pos_bound n 10 ltac:(lia)).
    assert (Hf' : (1 <= f)%nat).
    { destruct f; [simpl in Hn; lia | lia]. }
    assert (Hq : 0 <= n / 10 < 10 ^ Z.of_nat f).
    { rewrite Nat2Z.inj_succ, Z.pow_succ_r in Hn by lia. lia. }
    destruct (IH _ Hf' Hq) as (Hv & Hd & Hl & Hlt & Hge).
    assert (1 <= n / 10) by (apply Z.div_le_lower_bound; lia).
    specialize (Hge H2).
    set (L := Z.of_nat (length (pos_digits f (n / 10)))) in *.
    rewrite digits_value_app, forallb_app, Hv, Hd, length_app.
    unfold digits_value at 1. cbn [fold_left forallb List.length].
    rewrite is_digit_char, digit_val_char by lia.
    rewrite Nat2Z.inj_add. fold L. change (Z.of_nat 1) with 1.
    replace (L + 1 - 1) with L by lia. rewrite Z.pow_add_r by lia.
    assert (HL : 10 ^ L = 10 ^ (L - 1) * 10)
      by (rewrite Z.mul_comm, <- Z.pow_succ_r by lia; f_equal; lia).
    rewrite HL in *. change (10 ^ 1) with 10. repeat split; lia.
Qed.

(** ** Lemmas on the text *)

Lemma split_on_app c a b : no_char c a = true -> split_on c (a ++ c :: b) = (a, Some b).
Proof.
  induction a as [|x a IH]; simpl; intros H.
  - now rewrite Ascii.eqb_refl.
  - apply andb_prop in H as [Hx Ha]. apply Bool.negb_true_iff in Hx. rewrite Hx, IH by exact Ha. reflexivity.
Qed.

Lemma split_on_none c a : no_char c a = true -> split_on c a = (a, None).
Proof.
  induction a as [|x a IH]; simpl; intros H; [reflexivity |].
  apply andb_prop in H as [Hx Ha]. apply Bool.negb_true_iff in Hx. rewrite Hx, IH by exact Ha. reflexivity.
Qed.

Lemma no_char_app c a b : no_char c (a ++ b) = no_char c a && no_char c b.
Proof. apply forallb_app. Qed.

Lemma no_char_digits c a : is_digit c = false -> forallb is_digit a = true -> no_char c a = true.
Proof.
  intros Hc. induction a as [|x a IH]; simpl; intros H; [reflexivity |].
  apply andb_prop in H as [Hx Ha]. rewrite IH by exact Ha.
  destruct (Ascii.eqb_spec x c) as [-> | _]; [congruence | reflexivity].
Qed.

Lemma forallb_firstn {A} (f : A -> bool) n l : forallb f l = true -> forallb f (firstn n l) = true.
Proof. rewrite <- (firstn_skipn n l) at 1. rewrite forallb_app. now intros [? ?]%andb_prop. Qed.

Lemma forallb_skipn {A} (f : A -> bool) n l : forallb f l = true -> forallb f (skipn n l) = true.
Proof. rewrite <- (firstn_skipn n l) at 1. rewrite forallb_app. now intros [? ?]%andb_prop. Qed.

(** Removing a trailing ["."] leaves a text ending in a digit alone. *)

Lemma drop_dot_digits l r :
  r <> [] -> forallb is_digit r = true ->
  match rev (l ++ r) with c :: t => if Ascii.eqb c "."%char then rev t else l ++ r | [] => l ++ r end = l ++ r.
Proof.
  intros Hr Hd. destruct (exists_last Hr) as (r' & c & ->).
  rewrite forallb_app in Hd. apply andb_prop in Hd as [_ Hc]. simpl in Hc.
  rewrite app_assoc, rev_app_distr. simpl.
  destruct (Ascii.eqb_spec c "."%char) as [-> | _]; [discriminate | reflexivity].
Qed.

Lemma drop_dot_dot l :
  match rev (l ++ ["."%char]) with c :: t => if Ascii.eqb c "."%char then rev t else l ++ ["."%char] | [] => l ++ ["."%char] end = l.
Proof. rewrite rev_app_distr. simpl. apply rev_involutive. Qed.

Ltac zbool :=
  match goal with
  | |- context [Z.leb ?a ?b] => destruct (Z.leb_spec a b)
  | |- context [Z.ltb ?a ?b] => destruct (Z.ltb_spec a b)
  end.

Lemma zeros_0 n : n <= 0 -> zeros n = [].
Proof. intros Hn. unfold zeros. now replace (Z.to_nat n) with 0%nat by lia. Qed.

Section Cases.

Variables (s : bool) (ds : list ascii) (decpt : Z).

Hypothesis Hds : forallb is_digit ds = true.

Hypothesis Hlen : (1 <= List.length ds)%nat.

Lemma format_exp :
  decpt <= -4 \/ 16 < decpt ->
  format_float_short s ds decpt =
  sign_text s ++ firstn 1 ds ++ (if (List.length ds =? 1)%nat then [] else "."%char :: skipn 1 ds) ++
  "e"%char :: exp_text (decpt - 1).
Proof.
  intros Hd. unfold format_float_short. cbv zeta.
  replace ((decpt <=? -4) || (16 <? decpt)) with true
    by (symmetry; apply Bool.orb_true_iff; destruct Hd; [left; apply Z.leb_le | right; apply Z.ltb_lt]; lia).
  cbn [negb]. rewrite (Z.max_l _ 1) by lia.
  repeat (zbool; try lia); cbn [andb].
  rewrite (zeros_0 (0 - 0)), (zeros_0 (_ - _)) by lia. rewrite !app_nil_l, !app_nil_r.
  change (Z.to_nat 1) with 1%nat.
  rewrite (app_assoc (firstn 1 ds)), app_assoc.
  destruct (Nat.eqb_spec (List.length ds) 1) as [Hl1 | Hl1].
  - assert (skipn 1 ds = []) as -> by (apply length_zero_iff_nil; rewrite length_skipn; lia).
    rewrite app_nil_r, app_assoc, drop_dot_dot. now rewrite <- app_assoc.
  - rewrite drop_dot_digits.
    + now rewrite <- !app_assoc.
    + intros Hn. apply (f_equal (@List.length ascii)) in Hn. rewrite length_skipn in Hn. simpl in Hn. lia.
    + now apply forallb_skipn.
Qed.

Lemma nonempty_of_length {A} (l : list A) : (1 <= List.length l)%nat -> l <> [].
Proof. destruct l; simpl; [lia | discriminate]. Qed.

Lemma zeros_1 n : n = 1 -> zeros n = ["0"%char].
Proof. intros ->. reflexivity. Qed.

Lemma use_exp_false : -4 < decpt <= 16 -> (decpt <=? -4) || (16 <? decpt) = false.
Proof. intros Hd. apply Bool.orb_false_iff. split; [apply Z.leb_gt | apply Z.ltb_ge]; lia. Qed.

Lemma format_small :
  -4 < decpt <= 0 ->
  format_float_short s ds decpt = sign_text s ++ "0"%char :: "."%char :: zeros (- decpt) ++ ds.
Proof.
  intros Hd. unfold format_float_short. cbv zeta. rewrite use_exp_false by lia. cbn [negb].
  rewrite (Z.max_l _ (decpt + 1)) by lia.
  repeat (zbool; try lia); cbn [andb].
  rewrite (zeros_1 (decpt - (decpt - 1))),
    (zeros_0 (Z.of_nat (List.length ds) - Z.of_nat (List.length ds))) by lia.
  rewrite !app_nil_r. replace (0 - decpt) with (- decpt) by lia.
  rewrite (app_assoc (sign_text s)).
  rewrite drop_dot_digits by (assumption || now apply nonempty_of_length).
  now rewrite <- !app_assoc.
Qed.

Lemma format_mid :
  0 < decpt <= Z.of_nat (List.length ds) -> decpt <= 16 ->
  format_float_short s ds decpt =
  sign_text s ++ firstn (Z.to_nat decpt) ds ++ "."%char :: skipn (Z.to_nat decpt) ds ++
  zeros (Z.max (Z.of_nat (List.length ds)) (decpt + 1) - Z.of_nat (List.length ds)).
Proof.
  intros Hd H16. unfold format_float_short. cbv zeta. rewrite use_exp_false by lia. cbn [negb].
  repeat (zbool; try lia); cbn [andb].
  rewrite (zeros_0 (0 - 0)) by lia. rewrite ?app_nil_l, ?app_nil_r, <- ?app_assoc.
  set (Z0 := zeros _).
  replace (sign_text s ++ firstn (Z.to_nat decpt) ds ++ ["."%char] ++ skipn (Z.to_nat decpt) ds ++ Z0)
    with ((sign_text s ++ firstn (Z.to_nat decpt) ds ++ ["."%char]) ++ (skipn (Z.to_nat decpt) ds ++ Z0))
    by (now rewrite <- !app_assoc).
  rewrite drop_dot_digits.
  - now rewrite <- !app_assoc.
  - intros Hn. apply (f_equal (@List.length ascii)) in Hn.
    rewrite length_app, length_skipn in Hn. unfold Z0 in Hn. rewrite length_zeros in Hn. simpl in Hn. lia.
  - rewrite forallb_app, forallb_skipn by assumption. apply zeros_digits.
Qed.

Lemma format_big :
  Z.of_nat (List.length ds) < decpt <= 16 ->
  format_float_short s ds decpt =
  sign_text s ++ ds ++ zeros (decpt - Z.of_nat (List.length ds)) ++ ["."%char; "0"%char].
Proof.
  intros Hd. unfold format_float_short. cbv zeta. rewrite use_exp_false by lia. cbn [negb].
  rewrite (Z.max_r _ (decpt + 1)) by lia.
  repeat (zbool; try lia); cbn [andb].
  rewrite (zeros_0 (0 - 0)), (zeros_1 (decpt + 1 - decpt)) by lia. rewrite ?app_nil_l, ?app_nil_r, <- ?app_assoc.
  replace (sign_text s ++ ds ++ zeros (decpt - Z.of_nat (List.length ds)) ++ ["."%char] ++ ["0"%char])
    with ((sign_text s ++ ds ++ zeros (decpt - Z.of_nat (List.length ds)) ++ ["."%char]) ++ ["0"%char])
    by (now rewrite <- !app_assoc).
  rewrite drop_dot_digits by (reflexivity || discriminate).
  now rewrite <- !app_assoc.
Qed.

(** The four layouts, as a case analysis on [decpt]. *)
Lemma format_cases (P : list ascii -> Prop) :
  (decpt <= -4 \/ 16 < decpt ->
   P (sign_text s ++ firstn 1 ds ++ (if (List.length ds =? 1)%nat then [] else "."%char :: skipn 1 ds) ++
      "e"%char :: exp_text (decpt - 1))) ->
  (-4 < decpt <= 0 -> P (sign_text s ++ "0"%char :: "."%char :: zeros (- decpt) ++ ds)) ->
  (0 < decpt <= Z.of_nat (List.length ds) -> decpt <= 16 ->
   P (sign_text s ++ firstn (Z.to_nat decpt) ds ++ "."%char :: skipn (Z.to_nat decpt) ds ++
      zeros (Z.max (Z.of_nat (List.length ds)) (decpt + 1) - Z.of_nat (List.length ds)))) ->
  (Z.of_nat (List.length ds) < decpt <= 16 ->
   P (sign_text s ++ ds ++ zeros (decpt - Z.of_nat (List.length ds)) ++ ["."%char; "0"%char])) ->
  P (format_float_short s ds decpt).
Proof.
  intros Pe Ps Pm Pb.
  destruct (Z.leb_spec decpt (-4)) as [H4 | H4]; [| destruct (Z.ltb_spec 16 decpt) as [H16 | H16]].
  1, 2: rewrite format_exp by lia; apply Pe; lia.
  destruct (Z.leb_spec decpt 0); [rewrite format_small by lia; apply Ps; lia |].
  destruct (Z.leb_spec decpt (Z.of_nat (List.length ds))).
  - rewrite format_mid by lia. apply Pm; lia.
  - rewrite format_big by lia. apply Pb; lia.
Qed.

End Cases.

Lemma strip_sign_digit s c r : is_digit c = true -> strip_sign (sign_text s ++ c :: r) = (s, c :: r).
Proof.
  intros Hc. destruct s; [reflexivity |]. simpl.
  destruct (Ascii.eqb_spec c "-"%char) as [-> | _]; [discriminate | reflexivity].
Qed.

Lemma parse_assemble s ip fp ex x :
  (1 <= List.length ip)%nat -> forallb is_digit ip = true ->
  forallb is_digit (match fp with Some f => f | None => [] end) = true ->
  match ex with Some t => parse_exp t | None => Some 0 end = Some x ->
  parse_float_text (assemble s ip fp ex) =
  Some (s, digits_value (ip ++ match fp with Some f => f | None => [] end),
        x - Z.of_nat (List.length (match fp with Some f => f | None => [] end))).
Proof.
  intros Hl Hip Hfp Hex. unfold assemble, parse_float_text.
  destruct ip as [|c ip']; [simpl in Hl; lia |].
  assert (Hc : is_digit c = true) by (simpl in Hip; now apply andb_prop in Hip as [? _]).
  cbn [app]. rewrite strip_sign_digit by exact Hc.
  assert (Hm : no_char "e"%char ((c :: ip') ++ match fp with Some f => "."%char :: f | None => [] end) = true).
  { rewrite no_char_app, no_char_digits by (reflexivity || exact Hip).
    destruct fp as [f|]; [| reflexivity]. simpl. now apply no_char_digits. }
  assert (Hi : no_char "."%char (c :: ip') = true) by (now apply no_char_digits).
  replace (c :: ip' ++ (match fp with Some f => "."%char :: f | None => [] end) ++
           (match ex with Some t => "e"%char :: t | None => [] end))
    with (((c :: ip') ++ match fp with Some f => "."%char :: f | None => [] end) ++
           (match ex with Some t => "e"%char :: t | None => [] end))
    by (now rewrite <- app_assoc).
  destruct ex as [t|].
  - rewrite split_on_app by exact Hm.
    destruct fp as [f|]; [rewrite split_on_app by exact Hi | rewrite app_nil_r, split_on_none by exact Hi];
      rewrite Hex; cbn [List.length Nat.ltb Nat.leb andb]; rewrite Hip;
      simpl in Hfp |- *; rewrite ?Hfp; reflexivity.
  - rewrite app_nil_r, split_on_none by exact Hm.
    injection Hex as <-.
    destruct fp as [f|]; [rewrite split_on_app by exact Hi | rewrite app_nil_r, split_on_none by exact Hi];
      cbn [List.length Nat.ltb Nat.leb andb]; rewrite Hip;
      simpl in Hfp |- *; rewrite ?Hfp; reflexivity.
Qed.

Lemma digits_value_cons0 l : digits_value ("0"%char :: l) = digits_value l.
Proof. change ("0"%char :: l) with (["0"%char] ++ l). rewrite digits_value_app. reflexivity. Qed.

Lemma is_digit_0 : is_digit "0"%char = true.
Proof. reflexivity. Qed.

Lemma digit_val_0 : digit_val "0"%char = 0.
Proof. reflexivity. Qed.

Lemma parse_exp_text x : Z.abs x < 10 ^ 20 -> parse_exp (exp_text x) = Some x.
Proof.
  intros Hx. destruct (pos_digits_spec 20 (Z.abs x) ltac:(lia) ltac:(split; [lia | exact Hx]))
    as (Hv & Hd & Hl & _).
  unfold exp_text, parse_exp, parse_uint. set (D := pos_digits 20 (Z.abs x)) in *.
  assert (HlD : (0 <? List.length D)%nat = true) by (apply Nat.ltb_lt; lia).
  destruct (Z.ltb_spec x 0); cbn [Ascii.eqb Bool.eqb andb];
  destruct (Z.ltb_spec (Z.abs x) 10); cbn [List.length forallb is_digit nat_of_ascii];
    rewrite ?digits_value_cons0, ?Hd, ?HlD, ?Hv, ?is_digit_0; cbn [Nat.ltb Nat.leb andb option_map];
    f_equal; lia.
Qed.

Lemma parse_format s ds decpt :
  forallb is_digit ds = true -> (1 <= List.length ds)%nat -> Z.abs (decpt - 1) < 10 ^ 20 ->
  exists N p, parse_float_text (format_float_short s ds decpt) = Some (s, N, p) /\
              dval N p = dval (digits_value ds) (decpt - Z.of_nat (List.length ds)).
Proof.
  intros Hds Hl Hx. set (dl := Z.of_nat (List.length ds)).
  destruct (Z.leb_spec decpt (-4)) as [H4 | H4]; [| destruct (Z.ltb_spec 16 decpt) as [H16 | H16]].
  1,2: assert (Hf : format_float_short s ds decpt =
           assemble s (firstn 1 ds) (if (List.length ds =? 1)%nat then None else Some (skipn 1 ds))
             (Some (exp_text (decpt - 1))))
         by (rewrite format_exp by (assumption || lia); unfold assemble;
             destruct (List.length ds =? 1)%nat; reflexivity).
  1,2: rewrite Hf; rewrite parse_assemble with (x := decpt - 1);
         [| rewrite length_firstn; lia | now apply forallb_firstn
          | destruct (_ =? 1)%nat; [reflexivity | now apply forallb_skipn]
          | now apply parse_exp_text];
       do 2 eexists; split; [reflexivity |];
       destruct (Nat.eqb_spec (List.length ds) 1) as [E | E];
       [ rewrite (firstn_all2 (n := 1)), app_nil_r by lia;
         f_equal; cbn [List.length]; unfold dl; lia
       | rewrite firstn_skipn, length_skipn; f_equal; unfold dl; lia ].
  destruct (Z.leb_spec decpt 0) as [H0 | H0].
  - rewrite format_small by (assumption || lia).
    replace (sign_text s ++ "0"%char :: "."%char :: zeros (- decpt) ++ ds)
      with (assemble s ["0"%char] (Some (zeros (- decpt) ++ ds)) None)
      by (unfold assemble; now rewrite app_nil_r).
    rewrite parse_assemble with (x := 0) by
      (reflexivity || (simpl; lia) || (rewrite forallb_app, zeros_digits; exact Hds)).
    do 2 eexists; split; [reflexivity |].
    rewrite !digits_value_app, digits_value_zeros. change (digits_value ["0"%char]) with 0.
    rewrite length_app, length_zeros. f_equal; unfold dl; lia.
  - destruct (Z.leb_spec decpt dl) as [Hm | Hm].
    + rewrite format_mid by (assumption || lia). fold dl.
      set (z := Z.max dl (decpt + 1) - dl).
      replace (sign_text s ++ firstn (Z.to_nat decpt) ds ++ "."%char :: skipn (Z.to_nat decpt) ds ++ zeros z)
        with (assemble s (firstn (Z.to_nat decpt) ds) (Some (skipn (Z.to_nat decpt) ds ++ zeros z)) None)
        by (unfold assemble; now rewrite app_nil_r).
      rewrite parse_assemble with (x := 0);
        [| rewrite length_firstn; lia | now apply forallb_firstn
         | rewrite forallb_app, zeros_digits, forallb_skipn by exact Hds; reflexivity | reflexivity].
      do 2 eexists; split; [reflexivity |].
      rewrite app_assoc, firstn_skipn, digits_value_app, digits_value_zeros, Z.add_0_r.
      rewrite length_app, length_skipn, length_zeros.
      rewrite (dval_shift_exp _ (decpt - dl) (0 - Z.of_nat (List.length ds - Z.to_nat decpt + Z.to_nat z)))
        by (unfold z, dl in *; lia).
      do 3 f_equal. unfold z, dl in *; lia.
    + rewrite format_big by (unfold dl in *; lia). fold dl.
      replace (sign_text s ++ ds ++ zeros (decpt - dl) ++ ["."%char; "0"%char])
        with (assemble s (ds ++ zeros (decpt - dl)) (Some ["0"%char]) None)
        by (unfold assemble; rewrite <- !app_assoc; now rewrite app_nil_r).
      rewrite parse_assemble with (x := 0);
        [| rewrite length_app; lia | rewrite forallb_app, zeros_digits, Hds; reflexivity
         | reflexivity | reflexivity].
      do 2 eexists; split; [reflexivity |].
      rewrite <- app_assoc, digits_value_app, digits_value_app, digits_value_zeros, length_app, length_zeros.
      cbn [List.length digits_value fold_left]. rewrite digit_val_0.
      rewrite (dval_shift_exp _ (decpt - dl) (0 - Z.of_nat 1)) by lia.
      f_equal. replace (decpt - dl - (0 - Z.of_nat 1)) with (Z.of_nat (Z.to_nat (decpt - dl) + 1)) by lia.
      ring.
Qed.

(** ** [repr(float)] *)

Lemma E0_range L : (-1074 <= L <= 1023)%Z -> (-324 <= log10_2_floor L <= 307)%Z.
Proof. unfold log10_2_floor. intros. Z.div_mod_to_equations. lia. Qed.

Lemma dec_exp_range m e : binary64_finite m e -> (-324 <= dec_exp m e <= 308)%Z.
Proof.
  intros Hb. pose proof (E0_range _ (log2_range m e Hb)). unfold dec_exp.
  destruct (cmp10_2 _ _ m e); lia.
Qed.

Lemma powerRZ10_lt_inv a b : (powerRZ 10 a < powerRZ 10 b)%R -> (a < b)%Z.
Proof.
  intros H. destruct (Z.lt_ge_cases a b) as [| Hba]; [assumption |].
  apply powerRZ10_le in Hba. lra.
Qed.

(** The digits and decimal point position [_Py_dg_dtoa] returns. *)

Lemma py_dg_dtoa_spec m e :
  binary64_finite m e ->
  let '(ds, decpt) := py_dg_dtoa m e in
  forallb is_digit ds = true /\ (1 <= List.length ds <= 17)%nat /\
  rounds_to (digits_value ds) (decpt - Z.of_nat (List.length ds)) m e = true /\
  (dec_exp m e + 1 <= decpt <= dec_exp m e + 2)%Z.
Proof.
  intros Hb. destruct (dtoa_core_found m e Hb) as (j & Hj & _ & H).
  unfold py_dg_dtoa. destruct (dtoa_core m e) as [t q]. destruct H as (Ht & _ & Hr & Hlo & Hhi).
  assert (Ht17 : t < 10 ^ 17) by (eapply Z.lt_le_trans; [apply Ht | apply Z.pow_le_mono_r; lia]).
  destruct (pos_digits_spec 20 t ltac:(lia) ltac:(split; [lia | eapply Z.lt_trans; [exact Ht17 | reflexivity]]))
    as (Hv & Hd & Hl & Hlt & Hge).
  set (ds := pos_digits 20 t) in *. set (L := Z.of_nat (List.length ds)) in *.
  specialize (Hge ltac:(lia)).
  assert (HL : L - 1 < 17) by (apply (Z.pow_lt_mono_r_iff 10); lia).
  split; [exact Hd |]. split; [unfold L in *; lia |].
  split; [rewrite Hv; replace (q + L - L) with q by lia; exact Hr |].
  assert (H1 : (dval 1 (q + L - 1) <= dval t q)%R)
    by (rewrite (dval_pow10 _ q (L - 1)) by lia; now apply dval_le).
  assert (H2 : (dval t q < dval 1 (q + L))%R)
    by (rewrite (dval_pow10 _ q L) by lia; unfold dval; apply Rmult_lt_compat_r;
        [apply powerRZ_lt; lra | now apply IZR_lt]).
  unfold dval in *. rewrite !Rmult_1_l in *.
  split.
  - enough (dec_exp m e < q + L) by lia. apply powerRZ10_lt_inv. lra.
  - destruct (Z.le_gt_cases (q + L) (dec_exp m e + 2)) as [| Hgt]; [assumption |].
    pose proof (powerRZ10_lt (dec_exp m e + 1) (q + L - 1) ltac:(lia)). lra.
Qed.

Lemma finite_cases x :
  PrimFloat.is_finite x = true ->
  (exists s, Prim2SF x = S754_zero s) \/ (exists s m e, Prim2SF x = S754_finite s m e).
Proof.
  unfold PrimFloat.is_finite, PrimFloat.is_nan, PrimFloat.is_infinity.
  rewrite !FloatAxioms.eqb_spec, FloatAxioms.abs_spec.
  change (Prim2SF infinity) with (S754_infinity false).
  destruct (Prim2SF x) as [s | [] | | s m e]; simpl; try discriminate; eauto.
Qed.

Lemma prim_binary64_finite x s m e : Prim2SF x = S754_finite s m e -> binary64_finite (Zpos m) e.
Proof. intros H. apply (valid_binary64_finite s). rewrite <- H. apply FloatAxioms.Prim2SF_valid. Qed.

Lemma repr_finite_text x s m e :
  Prim2SF x = S754_finite s m e ->
  float_repr_text x = format_float_short s (fst (py_dg_dtoa (Zpos m) e)) (snd (py_dg_dtoa (Zpos m) e)).
Proof. intros H. unfold float_repr_text. rewrite H. now destruct (py_dg_dtoa (Zpos m) e). Qed.

(** The text [repr(x)] of a finite double denotes a decimal with the
    sign of [x] that [reads_back] as [x]. *)
Lemma repr_reads_back x :
  PrimFloat.is_finite x = true ->
  exists N p, parse_float_text (String.list_ascii_of_string (float_repr x)) = Some (sf_sign (Prim2SF x), N, p) /\
              reads_back N p (Prim2SF x) = true.
Proof.
  intros Hf. unfold float_repr. rewrite String.list_ascii_of_string_of_list_ascii.
  destruct (finite_cases x Hf) as [[s Hx] | (s & m & e & Hx)].
  - unfold float_repr_text. rewrite Hx. cbn [sf_sign reads_back].
    destruct (parse_format s ["0"%char] 1 eq_refl ltac:(simpl; lia) ltac:(simpl; lia)) as (N & p & Hp & Hv).
    exists N, p. split; [exact Hp |]. apply Z.eqb_eq.
    unfold dval in Hv. change (digits_value ["0"%char]) with 0 in Hv. rewrite Rmult_0_l in Hv.
    apply Rmult_integral in Hv as [Hv | Hv]; [now apply eq_IZR in Hv |].
    exfalso. revert Hv. apply powerRZ_NOR. lra.
  - rewrite (repr_finite_text x s m e Hx). rewrite Hx. cbn [sf_sign reads_back].
    pose proof (prim_binary64_finite x s m e Hx) as Hb.
    pose proof (py_dg_dtoa_spec _ _ Hb) as Hs. pose proof (dec_exp_range _ _ Hb).
    destruct (py_dg_dtoa (Zpos m) e) as [ds decpt]. destruct Hs as (Hd & Hl & Hr & Hdp). cbn [fst snd].
    destruct (parse_format s ds decpt Hd ltac:(lia) ltac:(eapply Z.le_lt_trans; [| apply (Z.pow_lt_mono_r 10 3 20); lia]; cbn; lia))
      as (N & p & Hp & Hv).
    exists N, p. split; [exact Hp |]. now rewrite (rounds_to_dval _ _ _ _ _ _ Hv).
Qed.

Lemma signed_dist s a b : Rabs (signed s a - signed s b) = Rabs (a - b).
Proof. destruct s; cbn [signed]; [| reflexivity]. rewrite <- Rabs_Ropp. f_equal. ring. Qed.

Lemma signed_dist_opp s a b :
  (0 <= a)%R -> (0 <= b)%R -> Rabs (signed s a - signed (negb s) b) = (a + b)%R.
Proof.
  intros Ha Hb. destruct s; cbn [signed negb];
    [rewrite <- Rabs_Ropp; replace (- (- a - b))%R with (a + b)%R by ring |
     replace (a - - b)%R with (a + b)%R by ring]; apply Rabs_pos_eq; lra.
Qed.

Lemma bval_pos m e : (0 < bval (Zpos m) e)%R.
Proof. unfold bval. apply Rmult_lt_0_compat; [apply IZR_lt; lia | apply powerRZ_lt; lra]. Qed.

(** C15.  Round trip of [repr]: for every finite double [x] (zeros
    included), the text [repr(x)] denotes a decimal [N * 10^p] with the
    sign of [x] which is nearer to [x] than to any other finite double,
    or exactly as near and [x] has the even significand: under round to
    nearest, ties to even, [float(repr(x)) == x]. *)
Theorem float_repr_round_trip x :
  PrimFloat.is_finite x = true ->
  exists s N p, parse_float_text (String.list_ascii_of_string (float_repr x)) = Some (s, N, p) /\
  forall y, PrimFloat.is_finite y = true -> sf_value (Prim2SF y) <> sf_value (Prim2SF x) ->
    (Rabs (signed s (dval N p) - sf_value (Prim2SF x)) < Rabs (signed s (dval N p) - sf_value (Prim2SF y)) \/
     Rabs (signed s (dval N p) - sf_value (Prim2SF x)) = Rabs (signed s (dval N p) - sf_value (Prim2SF y)) /\
     sf_even (Prim2SF x) = true)%R.
Proof.
  intros Hf. destruct (repr_reads_back x Hf) as (N & p & Hp & Hr).
  exists (sf_sign (Prim2SF x)), N, p. split; [exact Hp |]. intros y Hfy Hne.
  destruct (finite_cases x Hf) as [[s Hx] | (s & m & e & Hx)]; rewrite Hx in *; cbn [sf_sign reads_back sf_value sf_even] in *.
  - left. apply Z.eqb_eq in Hr as ->. unfold dval. rewrite Rmult_0_l.
    replace (signed s 0) with 0%R by (destruct s; cbn; ring).
    rewrite Rminus_0_r, Rabs_R0, Rminus_0_l, Rabs_Ropp. now apply Rabs_pos_lt.
  - pose proof (prim_binary64_finite x s m e Hx) as Hb.
    pose proof (rounds_to_near_self _ _ _ _ Hb Hr) as Hn. pose proof (Rabs_pos (dval N p - bval (Zpos m) e)).
    destruct (finite_cases y Hfy) as [[s' Hy] | (s' & m' & e' & Hy)]; rewrite Hy in *; cbn [sf_value] in *.
    + left. rewrite signed_dist, Rminus_0_r. destruct s; cbn [signed]; [rewrite Rabs_Ropp |]; rewrite (Rabs_pos_eq (dval N p)); lra.
    + pose proof (bval_pos m' e').
      destruct (Bool.bool_dec s' s) as [-> | Hs].
      * rewrite !signed_dist. apply rounds_to_nearest; [exact Hb | exact (prim_binary64_finite y s m' e' Hy) | exact Hr |].
        intros E. apply Hne. now rewrite E.
      * replace s' with (negb s) by (destruct s, s'; cbn; congruence).
        left. rewrite !signed_dist, signed_dist_opp; lra.
Qed.

(** A nonzero double does not accept the decimal zero. *)
Lemma rounds_to_zero_false p m e : binary64_finite m e -> rounds_to 0 p m e = false.
Proof.
  intros Hb. destruct (rounds_to 0 p m e) eqn:Hr; [exfalso | reflexivity].
  pose proof (rounds_to_near_self 0 p m e Hb Hr) as H.
  unfold dval in H. rewrite Rmult_0_l in H. pose proof (Rabs_pos (0 - bval m e)). lra.
Qed.

Lemma nonfinite_cases x :
  PrimFloat.is_finite x = false -> (exists s, Prim2SF x = S754_infinity s) \/ Prim2SF x = S754_nan.
Proof.
  unfold PrimFloat.is_finite, PrimFloat.is_nan, PrimFloat.is_infinity.
  rewrite !FloatAxioms.eqb_spec, FloatAxioms.abs_spec.
  change (Prim2SF infinity) with (S754_infinity false).
  destruct (Prim2SF x) as [s | [] | | s m e]; simpl; try discriminate; eauto.
  unfold SFeqb, SFcompare. destruct s; rewrite Z.compare_refl, Pos.compare_cont_refl; discriminate.
Qed.

(** ["inf"], ["-inf"] and ["nan"] are not decimals. *)
Lemma repr_parse_nonfinite x :
  PrimFloat.is_finite x = false -> parse_float_text (float_repr_text x) = None.
Proof.
  intros Hf. unfold float_repr_text.
  destruct (nonfinite_cases x Hf) as [[[] ->] | ->]; reflexivity.
Qed.

Lemma repr_parse_finite x :
  PrimFloat.is_finite x = true -> exists N p, parse_float_text (float_repr_text x) = Some (sf_sign (Prim2SF x), N, p) /\
                                              reads_back N p (Prim2SF x) = true.
Proof.
  intros Hf. destruct (repr_reads_back x Hf) as (N & p & Hp & Hr). exists N, p.
  unfold float_repr in Hp. rewrite String.list_ascii_of_string_of_list_ascii in Hp. now split.
Qed.

Lemma float_repr_text_inj x y : float_repr_text x = float_repr_text y -> x = y.
Proof.
  intros E. apply FloatAxioms.Prim2SF_inj.
  destruct (PrimFloat.is_finite x) eqn:Hfx, (PrimFloat.is_finite y) eqn:Hfy.
  - destruct (repr_parse_finite x Hfx) as (N & p & Px & Rx), (repr_parse_finite y Hfy) as (N' & p' & Py & Ry).
    rewrite E, Py in Px. injection Px as Hs <- <-.
    destruct (finite_cases x Hfx) as [[s Hx] | (s & m & e & Hx)], (finite_cases y Hfy) as [[s' Hy] | (s' & m' & e' & Hy)];
      rewrite Hx, Hy in *; cbn [sf_sign reads_back] in *; subst s'.
    + reflexivity.
    + apply Z.eqb_eq in Rx as ->. now rewrite (rounds_to_zero_false _ _ _ (prim_binary64_finite y s m' e' Hy)) in Ry.
    + apply Z.eqb_eq in Ry as ->. now rewrite (rounds_to_zero_false _ _ _ (prim_binary64_finite x s m e Hx)) in Rx.
    + destruct (rounds_to_unique _ _ _ _ _ _ (prim_binary64_finite x s m e Hx) (prim_binary64_finite y s m' e' Hy) Rx Ry)
        as [Hm ->].
      injection Hm as ->. reflexivity.
  - destruct (repr_parse_finite x Hfx) as (N & p & Px & _). now rewrite E, repr_parse_nonfinite in Px.
  - destruct (repr_parse_finite y Hfy) as (N & p & Py & _). now rewrite <- E, repr_parse_nonfinite in Py.
  - unfold float_repr_text in E.
    destruct (nonfinite_cases x Hfx) as [[s Hx] | Hx], (nonfinite_cases y Hfy) as [[s' Hy] | Hy];
      rewrite Hx, Hy in *; [destruct s, s' | destruct s | destruct s' | ]; easy.
Qed.

(** C21.  [repr] is injective: two floats that print the same text are
    the same float.  For finite doubles this is the disjointness of the
    rounding intervals ([Dtoa.rounds_to_unique]); [0.0] and [-0.0] print
    differently, and ["inf"], ["-inf"] and ["nan"] (there is one NaN in
    the model, as [float('nan')] has one text) are not decimals. *)
Theorem float_repr_injective x y : float_repr x = float_repr y -> x = y.
Proof.
  intros E. apply float_repr_text_inj.
  rewrite <- (String.list_ascii_of_string_of_list_ascii (float_repr_text x)),
    <- (String.list_ascii_of_string_of_list_ascii (float_repr_text y)).
  unfold float_repr in E. now rewrite E.
Qed.

Lemma string_length_of_list l : String.length (String.string_of_list_ascii l) = List.length l.
Proof. induction l as [|c l IH]; simpl; congruence. Qed.

Lemma length_sign_text s : (List.length (sign_text s) <= 1)%nat.
Proof. destruct s; simpl; lia. Qed.

Lemma pos_digits_small n : 0 <= n < 10 -> pos_digits 20 n = [digit_char n].
Proof. intros Hn. cbn [pos_digits]. destruct (Z.ltb_spec n 10); [reflexivity | lia]. Qed.

Lemma length_exp_text x : Z.abs x < 1000 -> (List.length (exp_text x) <= 4)%nat.
Proof.
  intros Hx. unfold exp_text. cbn [List.length].
  destruct (Z.ltb_spec (Z.abs x) 10).
  - rewrite pos_digits_small by lia. simpl. lia.
  - destruct (pos_digits_spec 20 (Z.abs x) ltac:(lia) ltac:(split; [lia | eapply Z.lt_trans; [exact Hx | reflexivity]]))
      as (_ & _ & _ & _ & Hge).
    specialize (Hge ltac:(lia)).
    assert (Z.of_nat (List.length (pos_digits 20 (Z.abs x))) - 1 < 3)
      by (apply (Z.pow_lt_mono_r_iff 10); lia).
    lia.
Qed.

Lemma repr_char_digits l : forallb is_digit l = true -> forallb repr_char l = true.
Proof. rewrite !forallb_forall. intros H c Hc. unfold repr_char. now rewrite H. Qed.

Lemma pos_digits_digits f n : 0 <= n -> forallb is_digit (pos_digits f n) = true.
Proof.
  revert n. induction f as [|f IH]; intros n Hn; cbn [pos_digits]; [reflexivity |].
  destruct (Z.ltb_spec n 10).
  - cbn [forallb]. now rewrite is_digit_char by lia.
  - rewrite forallb_app, IH by (apply Z.div_pos; lia). cbn [forallb].
    now rewrite is_digit_char by (apply Z.mod_pos_bound; lia).
Qed.

Lemma exp_text_chars x : forallb repr_char (exp_text x) = true.
Proof.
  unfold exp_text. cbn [forallb]. apply andb_true_intro. split; [now destruct (x <? 0) |].
  apply repr_char_digits. destruct (Z.abs x <? 10); cbn [forallb]; [rewrite is_digit_0; cbn [andb] |];
    apply pos_digits_digits; lia.
Qed.

Lemma sign_text_chars s : forallb repr_char (sign_text s) = true.
Proof. now destruct s. Qed.

(** Every character of [repr(x)] is a digit, a sign, a point, an [e] or
    a letter of [inf] and [nan]. *)
Lemma float_repr_text_chars x : forallb repr_char (float_repr_text x) = true.
Proof.
  unfold float_repr_text. destruct (Prim2SF x) as [s | s | | s m e] eqn:Hx; [now destruct s .. | reflexivity |].
  pose proof (prim_binary64_finite x s m e Hx) as Hb. pose proof (py_dg_dtoa_spec _ _ Hb) as Hs.
  destruct (py_dg_dtoa (Zpos m) e) as [ds decpt]. destruct Hs as (Hd & Hl & _ & _).
  pose proof (repr_char_digits _ (forallb_firstn _ 1 _ Hd)).
  pose proof (repr_char_digits _ (forallb_skipn _ 1 _ Hd)).
  pose proof (repr_char_digits _ (forallb_firstn _ (Z.to_nat decpt) _ Hd)).
  pose proof (repr_char_digits _ (forallb_skipn _ (Z.to_nat decpt) _ Hd)).
  pose proof (repr_char_digits _ Hd).
  assert (Hz : forall n, forallb repr_char (zeros n) = true) by (intros; apply repr_char_digits, zeros_digits).
  apply (format_cases s ds decpt Hd ltac:(lia)); intros;
    rewrite !forallb_app, sign_text_chars; cbn [forallb andb];
    rewrite ?forallb_app, ?Hz; cbn [andb]; try assumption.
  - destruct (List.length ds =? 1)%nat; cbn [forallb]; rewrite ?H, ?H0, exp_text_chars; reflexivity.
  - now rewrite H1, H2.
  - now rewrite H3.
Qed.

(** The length of the text, as a list of characters. *)
Lemma float_repr_text_length x : (List.length (float_repr_text x) <= 24)%nat.
Proof.
  unfold float_repr_text. destruct (Prim2SF x) as [s | s | | s m e] eqn:Hx.
  - destruct s; vm_compute; lia.
  - destruct s; simpl; lia.
  - simpl; lia.
  - pose proof (prim_binary64_finite x s m e Hx) as Hb.
    pose proof (py_dg_dtoa_spec _ _ Hb) as Hs. pose proof (dec_exp_range _ _ Hb).
    destruct (py_dg_dtoa (Zpos m) e) as [ds decpt]. destruct Hs as (Hd & Hl & _ & Hdp).
    pose proof (length_sign_text s).
    apply (format_cases s ds decpt Hd ltac:(lia)); intros.
    + pose proof (length_exp_text (decpt - 1) ltac:(lia)).
      rewrite !length_app; cbn [List.length]; rewrite length_firstn;
        destruct (Nat.eqb_spec (List.length ds) 1); cbn [List.length]; rewrite ?length_skipn; lia.
    + rewrite length_app. cbn [List.length]. rewrite length_app, length_zeros. lia.
    + rewrite !length_app. cbn [List.length]. rewrite length_app, length_firstn, length_skipn, length_zeros. lia.
    + rewrite !length_app, length_zeros. cbn [List.length]. lia.
Qed.

(** C17.  Bound on the text: [repr] of any double, finite or not, is at
    most 24 characters long (a sign, 17 digits, a point and a four
    character exponent such as [e-308]). *)
Theorem float_repr_length x : (String.length (float_repr x) <= 24)%nat.
Proof. unfold float_repr. rewrite string_length_of_list. apply float_repr_text_length. Qed.

(** C16.  [repr] uses the fewest significant digits possible: when some
    decimal with [k] significant digits reads back as the finite nonzero
    double [x], the text [repr(x)] lays out a digit string of at most [k]
    digits. *)
Theorem float_repr_shortest x s m e d p k :
  Prim2SF x = S754_finite s m e -> (0 < d < 10 ^ k)%Z -> rounds_to d p (Zpos m) e = true ->
  exists ds decpt, float_repr_text x = format_float_short s ds decpt /\ (List.length ds <= Z.to_nat k)%nat.
Proof.
  intros Hx Hd Hr. pose proof (prim_binary64_finite x s m e Hx) as Hb.
  exists (fst (py_dg_dtoa (Zpos m) e)), (snd (py_dg_dtoa (Zpos m) e)).
  split; [exact (repr_finite_text x s m e Hx) |].
  pose proof (dtoa_core_shortest _ _ d p k Hb Hd Hr) as Hk.
  pose proof (dtoa_core_rounds _ _ Hb) as Hc.
  unfold py_dg_dtoa. destruct (dtoa_core (Zpos m) e) as [t q]. cbn [fst] in *. destruct Hc as [Ht _].
  assert (Ht20 : 0 <= t < 10 ^ Z.of_nat 20) by (split; [lia | eapply Z.lt_trans; [apply Ht | reflexivity]]).
  destruct (pos_digits_spec 20 t ltac:(lia) Ht20) as (_ & _ & _ & _ & Hge).
  specialize (Hge ltac:(lia)).
  assert (0 <= k) by (destruct (Z.lt_ge_cases k 0); [rewrite Z.pow_neg_r in Hd by lia; lia | lia]).
  assert (Z.of_nat (List.length (pos_digits 20 t)) - 1 < k) by (apply (Z.pow_lt_mono_r_iff 10); lia).
  lia.
Qed.

(** ** The properties at concrete inputs *)

Local Set Warnings "-inexact-float".

Lemma float_repr_round_trip_witness :
  PrimFloat.is_finite 0.1%float = true /\
  exists s N p, parse_float_text (String.list_ascii_of_string (float_repr 0.1%float)) = Some (s, N, p) /\
  forall y, PrimFloat.is_finite y = true -> sf_value (Prim2SF y) <> sf_value (Prim2SF 0.1%float) ->
    (Rabs (signed s (dval N p) - sf_value (Prim2SF 0.1%float)) < Rabs (signed s (dval N p) - sf_value (Prim2SF y)) \/
     Rabs (signed s (dval N p) - sf_value (Prim2SF 0.1%float)) = Rabs (signed s (dval N p) - sf_value (Prim2SF y)) /\
     sf_even (Prim2SF 0.1%float) = true)%R.
Proof.
  assert (Hf : PrimFloat.is_finite 0.1%float = true) by reflexivity.
  split; [exact Hf | exact (float_repr_round_trip 0.1%float Hf)].
Defined.

(** [0.05 * 2] prints as [0.1] does, and is [0.1]. *)
Lemma float_repr_injective_witness :
  float_repr 0.1%float = float_repr (0.05 * 2)%float /\ 0.1%float = (0.05 * 2)%float.
Proof.
  assert (E : float_repr 0.1%float = float_repr (0.05 * 2)%float) by (vm_compute; reflexivity).
  split; [exact E | exact (float_repr_injective 0.1%float (0.05 * 2)%float E)].
Defined.

(** [0.1] is [7205759403792794 * 2^-56], and the one-digit decimal
    [1 * 10^-1] reads back as it. *)
Lemma float_repr_shortest_witness :
  Prim2SF 0.1%float = S754_finite false 7205759403792794 (-56) /\ (0 < 1 < 10 ^ 1)%Z /\
  rounds_to 1 (-1) 7205759403792794 (-56) = true /\
  exists ds decpt, float_repr_text 0.1%float = format_float_short false ds decpt /\
                   (List.length ds <= Z.to_nat 1)%nat.
Proof.
  assert (Hx : Prim2SF 0.1%float = S754_finite false 7205759403792794 (-56)) by (vm_compute; reflexivity).
  assert (Hd : (0 < 1 < 10 ^ 1)%Z) by (vm_compute; split; reflexivity).
  assert (Hr : rounds_to 1 (-1) 7205759403792794 (-56) = true) by (vm_compute; reflexivity).
  split; [exact Hx | split; [exact Hd | split; [exact Hr |]]].
  exact (float_repr_shortest 0.1%float false 7205759403792794 (-56) 1 (-1) 1 Hx Hd Hr).
Defined.

Module CPythonValues.
Import String.

(** Agreement with CPython on values whose [repr] its documentation and
    test suite fix: the shortest digits ([0.1], [0.1 + 0.2]), the switch
    to exponent notation at [1e16] and below [1e-4], two exponent digits
    at least, the smallest subnormal and the largest double, [".0"] on
    integers, signed zero, the named special values. *)
Example float_repr_cpython :
  map (fun x => String.list_ascii_of_string (float_repr x))
    [0.1; 0.1 + 0.2; 1e16; 1e15; 1e-4; 0.00001; 0x1p-1074; 0x1.fffffffffffffp+1023;
     20000000000000008.0; 100.0; -2.5; 377.0; -0.0; 1 / 0; -1 / 0; 0 / 0]%float =
  map String.list_ascii_of_string
    ["0.1"; "0.30000000000000004"; "1e+16"; "1000000000000000.0"; "0.0001"; "1e-05";
     "5e-324"; "1.7976931348623157e+308"; "2.000000000000001e+16"; "100.0"; "-2.5";
     "377.0"; "-0.0"; "inf"; "-inf"; "nan"]%string.
Proof. vm_compute. reflexivity. Qed.

End CPythonValues.
