(* ===== verification/Output.v ===== *)
(** * What the script writes to standard output

    Line 25 of [src/fdtd1d.py], [print(ez[50])], writes [str(x)] followed
    by a newline; for a float [str] is [repr] ([Repr.float_repr_text]).
    [print_line] is one such line and [stdout] the whole output of a run
    whose printed values are [out s].  [binary64_stdout] turns the
    early-silence property of the binary64 program into text: the output
    starts with [min(50, maxTime)] lines that read exactly [0.0].  No
    [repr] contains a line end and [repr] is injective, so the output
    determines the printed floats ([stdout_determines_out]); a run writes
    at most [25 * maxTime] characters ([stdout_length]). *)

From Stdlib Require Import ZArith Lia Floats Ascii.
From S2P Require Import Prelude PyList PyFloat Fdtd Causality IEEE Repr.
Import FieldStepper.

(** ** Definitions *)

Definition newline : ascii := ascii_of_nat 10.

(** Line 25: [print(ez[50])], the text [repr(v)] and the line end. *)
Definition print_line (v : float) : list ascii := float_repr_text v ++ [newline].

(** Everything the run has printed. *)
Definition stdout (s : @state float) : list ascii := mjoin (print_line <$> out s).

(** The line [print(0.0)] writes. *)
Definition zero_line : list ascii := ["0"%char; "."%char; "0"%char; newline].

(** ** Lemmas *)

Lemma print_line_zero : print_line 0.0%float = zero_line.
Proof. reflexivity. Qed.

(** A list whose first [n] entries are [0.0] prints [zero_line] for each. *)
Lemma stdout_prefix (o : list float) n :
  (forall j, (j < n)%nat -> (j < length o)%nat -> o !! j = Some 0.0%float) ->
  mjoin (print_line <$> o) =
  mjoin (replicate (Nat.min n (length o)) zero_line) ++ mjoin (print_line <$> drop n o).
Proof.
  revert n. induction o as [|v o IH]; intros n Hz.
  - rewrite Nat.min_0_r, drop_nil. reflexivity.
  - destruct n as [|n]; [reflexivity |].
    assert (Hv : v = 0.0%float) by (specialize (Hz 0%nat ltac:(lia) ltac:(simpl; lia)); simpl in Hz; congruence).
    subst v.
    change (mjoin (print_line <$> 0.0%float :: o)) with (print_line 0.0%float ++ mjoin (print_line <$> o)).
    change (mjoin (replicate (Nat.min (S n) (length (0.0%float :: o))) zero_line))
      with (zero_line ++ mjoin (replicate (Nat.min n (length o)) zero_line)).
    change (drop (S n) (0.0%float :: o)) with (drop n o).
    rewrite print_line_zero, (IH n), app_assoc; [reflexivity |].
    intros j Hj Hl. apply (Hz (S j)); simpl; lia.
Qed.

(** No float prints a line end. *)
Lemma float_repr_text_no_newline v : newline ∉ float_repr_text v.
Proof.
  intros Hin. pose proof (float_repr_text_chars v) as H. rewrite forallb_forall in H.
  apply list_elem_of_In, H in Hin. vm_compute in Hin. discriminate.
Qed.

(** A text up to its first line end splits one way only. *)
Lemma line_app_inv l1 l2 r1 r2 :
  newline ∉ l1 -> newline ∉ l2 -> l1 ++ newline :: r1 = l2 ++ newline :: r2 -> l1 = l2 /\ r1 = r2.
Proof.
  revert l2. induction l1 as [|c l1 IH]; intros [|c' l2] H1 H2 E; simpl in E.
  - injection E as ->. done.
  - injection E as <- _. destruct H2. constructor.
  - injection E as -> _. destruct H1. constructor.
  - injection E as -> E. apply not_elem_of_cons in H1 as [_ H1], H2 as [_ H2].
    destruct (IH l2 H1 H2 E) as [-> ->]. done.
Qed.

Lemma print_lines_cons v o : mjoin (print_line <$> v :: o) = float_repr_text v ++ newline :: mjoin (print_line <$> o).
Proof. unfold print_line. cbn [fmap list_fmap mjoin list_join]. now rewrite <- app_assoc. Qed.

(** Printing is injective on lists of floats. *)
Lemma print_lines_inj o1 o2 : mjoin (print_line <$> o1) = mjoin (print_line <$> o2) -> o1 = o2.
Proof.
  revert o2. induction o1 as [|x o1 IH]; intros [|y o2] E; [done | | |].
  - rewrite print_lines_cons in E. destruct (float_repr_text y); discriminate.
  - rewrite print_lines_cons in E. destruct (float_repr_text x); discriminate.
  - rewrite !print_lines_cons in E.
    apply line_app_inv in E as [Exy Eo]; [| apply float_repr_text_no_newline ..].
    apply float_repr_text_inj in Exy as ->. f_equal. exact (IH o2 Eo).
Qed.

Lemma print_lines_length o : (length (mjoin (print_line <$> o)) <= 25 * length o)%nat.
Proof.
  induction o as [|v o IH]; [simpl; lia |]. rewrite print_lines_cons, length_app.
  pose proof (float_repr_text_length v). cbn [length]. lia.
Qed.

(** C22.  The output determines what was printed: two runs (of any
    configurations, with any [exp]) that write the same text to
    standard output printed the same sequence of floats, bit for bit
    ([repr] is injective and no [repr] contains a line end). *)
Theorem stdout_determines_out (s1 s2 : @state float) : stdout s1 = stdout s2 -> out s1 = out s2.
Proof. exact (print_lines_inj (out s1) (out s2)). Qed.

Section Script.
Variable libm_exp : float -> float.
#[local] Instance binary64 : PyFloat float := prim_pyfloat libm_exp.

(** C18.  The text of the program in binary64: with more than 50 cells
    and an impedance that is a finite float other than [0.0], whatever
    the C library's [exp], the script terminates normally after printing
    [maxTime] lines, and its output begins with [min(50, maxTime)] lines
    that read exactly [0.0] followed by the line end. *)
Theorem binary64_stdout c :
  (50 < SIZE c)%Z -> PrimFloat.is_finite (imp0 c) = true -> (imp0 c =? 0)%float = false ->
  exists s, run c = (s, None) /\ length (out s) = Z.to_nat (maxTime c) /\
    stdout s = mjoin (replicate (Nat.min 50 (Z.to_nat (maxTime c))) zero_line) ++
               mjoin (print_line <$> drop 50 (out s)).
Proof.
  intros HN Hf Hz. assert (Hz' : fis_zero (imp0 c) = false) by exact Hz.
  destruct (run_reach c HN Hz') as (s & Hrun & Hr).
  pose proof (reachable_out c _ s Hr) as Hlen. rewrite Nat2Z.id in Hlen.
  exists s. split; [exact Hrun |]. split; [exact Hlen |].
  unfold stdout. rewrite <- Hlen. apply stdout_prefix.
  exact (reachable_early_out (HQ := binary64_quiet libm_exp _ Hf Hz) c _ s Hr).
Qed.

(** C23.  Size of the output: however the script ends, normally or with
    an exception, it has written at most [25 * maxTime] characters (at
    most [maxTime] lines of at most 24 characters and a line end). *)
Theorem stdout_length c s e :
  run c = (s, e) -> (length (stdout s) <= 25 * Z.to_nat (maxTime c))%nat.
Proof.
  intros Hrun. pose proof (run_out_length c s e Hrun). pose proof (print_lines_length (out s)).
  unfold stdout. lia.
Qed.

End Script.

(** ** The property at the script's configuration *)

#[local] Instance demo_binary64 : PyFloat float := binary64 exp_approx.

Lemma binary64_stdout_witness :
  (50 < SIZE fdtd1d)%Z /\ PrimFloat.is_finite (imp0 fdtd1d) = true /\ (imp0 fdtd1d =? 0)%float = false /\
  exists s, run fdtd1d = (s, None) /\ length (out s) = Z.to_nat (maxTime fdtd1d) /\
    stdout s = mjoin (replicate (Nat.min 50 (Z.to_nat (maxTime fdtd1d))) zero_line) ++
               mjoin (print_line <$> drop 50 (out s)).
Proof.
  assert (HN : (50 < SIZE fdtd1d)%Z) by (vm_compute; reflexivity).
  assert (Hf : PrimFloat.is_finite (imp0 fdtd1d) = true) by reflexivity.
  assert (Hz : (imp0 fdtd1d =? 0)%float = false) by reflexivity.
  split; [exact HN | split; [exact Hf | split; [exact Hz |]]].
  exact (binary64_stdout exp_approx fdtd1d HN Hf Hz).
Defined.

(** 61 cells instead of 60, three iterations. *)
Definition c_demo61 : config := mk_config 61 377.0%float 3.

(** Two configurations that print the same three lines printed the same
    three floats. *)
Lemma stdout_determines_out_witness :
  stdout (run c_demo).1 = stdout (run c_demo61).1 /\ out (run c_demo).1 = out (run c_demo61).1.
Proof.
  assert (E : stdout (run c_demo).1 = stdout (run c_demo61).1) by (vm_compute; reflexivity).
  split; [exact E | exact (stdout_determines_out _ _ E)].
Defined.

Lemma stdout_length_witness :
  run c_demo = ((run c_demo).1, (run c_demo).2) /\
  (length (stdout (run c_demo).1) <= 25 * Z.to_nat (maxTime c_demo))%nat.
Proof.
  split; [apply surjective_pairing |].
  exact (stdout_length exp_approx c_demo _ _ (surjective_pairing _)).
Defined.
